(** * link-preview: the fetch-and-extract engine of [main.go]

    A shallow embedding of [MetaExtractor.FetchLinkPreview],
    [extractMetadata], [extractTag] and [extractMetaContent], together with
    the parts of the Go standard library they call ([strings], [regexp],
    [net/url], [io]).  Go strings are byte strings: they are modelled by
    [string], whose characters are the 8-bit [ascii]. *)

From Stdlib Require Import String Ascii List NArith ZArith Lia Bool.
From Stdlib Require Import DecimalString.
Import ListNotations.

Local Open Scope string_scope.
Local Open Scope bool_scope.

(* ================================================================== *)
(** ** Bytes *)

Module byte.

Definition code (c : ascii) : N := N_of_ascii c.

Definition between (lo hi : N) (c : ascii) : bool :=
  (lo <=? code c)%N && (code c <=? hi)%N.

Definition isUpper (c : ascii) : bool := between 65 90 c.
Definition isLower (c : ascii) : bool := between 97 122 c.
Definition isDigit (c : ascii) : bool := between 48 57 c.
Definition isLetter (c : ascii) : bool := isUpper c || isLower c.

Definition eqb (a b : ascii) : bool := Ascii.eqb a b.

Definition mem (c : ascii) (cs : list ascii) : bool := existsb (eqb c) cs.

(** [c + ('a' - 'A')] on an upper-case ASCII letter, the byte itself
    otherwise. *)
Definition toLower (c : ascii) : ascii :=
  if isUpper c then ascii_of_N (code c + 32) else c.

End byte.

(** The double and the single quote. *)
Definition dquote : ascii := "034"%char.
Definition squote : ascii := "039"%char.
Definition DQ : string := String dquote "".

(** A value or the text of a Go [error]. *)
Inductive res (A : Type) : Type :=
| Ok (a : A)
| Fail (err : string).
Arguments Ok {A} a.
Arguments Fail {A} err.

Definition bind {A B : Type} (x : res A) (f : A -> res B) : res B :=
  match x with
  | Ok a => f a
  | Fail e => Fail e
  end.

Notation "x <- c ;; k" := (bind c (fun x => k))
  (at level 61, c at next level, right associativity).
Notation "' p <- c ;; k" := (bind c (fun x => match x with p => k end))
  (at level 61, p pattern, c at next level, right associativity).

Definition rev (s : string) : string :=
  string_of_list_ascii (List.rev (list_ascii_of_string s)).

(** Every byte of [s] satisfies [p]. *)
Fixpoint string_all (p : ascii -> bool) (s : string) : bool :=
  match s with
  | EmptyString => true
  | String c s' => p c && string_all p s'
  end.

(** [s[n:]]. *)
Fixpoint drop (n : nat) (s : string) : string :=
  match n, s with
  | O, _ => s
  | S n', String _ s' => drop n' s'
  | S _, EmptyString => EmptyString
  end.

(** [s[:n]]. *)
Fixpoint take (n : nat) (s : string) : string :=
  match n, s with
  | O, _ => EmptyString
  | S n', String c s' => String c (take n' s')
  | S _, EmptyString => EmptyString
  end.

(** [g] occurs in [s] as a contiguous block. *)
Definition infix_of (g s : string) : Prop :=
  exists p q, s = p ++ g ++ q.

(* ================================================================== *)
(** ** Package [strings] *)

Module strings.

(** [strings.ToLower].  Upper-case ASCII letters are mapped to lower case.
    Bytes from 0x80 up are kept: Go maps multi-byte runes through the
    Unicode case tables, which are not part of this model, so the model is
    exact on ASCII documents. *)
Fixpoint ToLower (s : string) : string :=
  match s with
  | EmptyString => EmptyString
  | String c s' => String (byte.toLower c) (ToLower s')
  end.

(** The six ASCII white-space bytes: tab, LF, VT, FF, CR, space. *)
Definition asciiSpace (c : ascii) : bool :=
  let n := byte.code c in
  (n =? 9)%N || (n =? 10)%N || (n =? 11)%N || (n =? 12)%N || (n =? 13)%N
  || (n =? 32)%N.

(** The UTF-8 encodings of the remaining runes for which
    [unicode.IsSpace] holds.  Two bytes: U+0085, U+00A0. *)
Definition space2 (a b : ascii) : bool :=
  (byte.code a =? 194)%N && ((byte.code b =? 133)%N || (byte.code b =? 160)%N).

(** Three bytes: U+1680, U+2000..U+200A, U+2028, U+2029, U+202F, U+205F,
    U+3000. *)
Definition space3 (a b c : ascii) : bool :=
  let x := byte.code a in let y := byte.code b in let z := byte.code c in
  ((x =? 225) && (y =? 154) && (z =? 128))%N
  || ((x =? 226) && (y =? 128)
      && ((128 <=? z) && (z <=? 138) || (z =? 168) || (z =? 169) || (z =? 175)))%N
  || ((x =? 226) && (y =? 129) && (z =? 159))%N
  || ((x =? 227) && (y =? 128) && (z =? 128))%N.

(** Strip white-space runes from the front.  With [back = true] the string
    is read back to front (the bytes of a rune then come last byte
    first). *)
Fixpoint trimFront (back : bool) (s : string) : string :=
  match s with
  | EmptyString => s
  | String a s1 =>
      if asciiSpace a then trimFront back s1
      else
        match s1 with
        | EmptyString => s
        | String b s2 =>
            if (if back then space2 b a else space2 a b) then trimFront back s2
            else
              match s2 with
              | EmptyString => s
              | String c s3 =>
                  if (if back then space3 c b a else space3 a b c)
                  then trimFront back s3
                  else s
              end
        end
  end.

(** [strings.TrimSpace]: leading and trailing white space removed. *)
Definition TrimSpace (s : string) : string :=
  rev (trimFront true (rev (trimFront false s))).

(** [strings.HasPrefix]. *)
Definition HasPrefix (s p : string) : bool := String.prefix p s.

(** [strings.HasSuffix]. *)
Definition HasSuffix (s p : string) : bool := String.prefix (rev p) (rev s).

(** [strings.Index]: position of the first occurrence of [sub]. *)
Fixpoint Index (s sub : string) : option nat :=
  if String.prefix sub s then Some O
  else
    match s with
    | EmptyString => None
    | String _ s' => option_map S (Index s' sub)
    end.

(** [strings.LastIndex]. *)
Fixpoint LastIndex (s sub : string) : option nat :=
  match s with
  | EmptyString => if String.prefix sub s then Some O else None
  | String _ s' =>
      match LastIndex s' sub with
      | Some i => Some (S i)
      | None => if String.prefix sub s then Some O else None
      end
  end.

(** [strings.Contains]. *)
Definition Contains (s sub : string) : bool :=
  match Index s sub with Some _ => true | None => false end.

(** [strings.Cut]: the text before and after the first [sep], and whether
    [sep] was found. *)
Definition Cut (s sep : string) : string * string * bool :=
  match Index s sep with
  | Some i => (take i s, drop (i + String.length sep) s, true)
  | None => (s, "", false)
  end.

(** [strings.Count] for a one-byte separator. *)
Fixpoint CountByte (s : string) (c : ascii) : nat :=
  match s with
  | EmptyString => O
  | String a s' => (if byte.eqb a c then 1 else 0) + CountByte s' c
  end.

(** [strings.Split] for a one-byte separator: the pieces between the
    separators, in order; one piece more than there are separators. *)
Fixpoint SplitByte (s : string) (sep : ascii) : list string :=
  match s with
  | EmptyString => [EmptyString]
  | String a s' =>
      if byte.eqb a sep then EmptyString :: SplitByte s' sep
      else
        match SplitByte s' sep with
        | piece :: pieces => String a piece :: pieces
        | [] => [String a EmptyString]
        end
  end.

End strings.

(* ================================================================== *)
(** ** Package [regexp]

    The patterns of [main.go] are built from literal bytes, bracket
    classes, the greedy star of a class and one capturing group.  Go's
    [regexp] returns the leftmost match and, among those, the one a
    backtracking search finds first; the matcher below is that
    backtracking search, written with a success continuation. *)

Module regexp.

Inductive class : Type :=
| Byte (c : ascii)            (* a literal byte *)
| OneOf (cs : list ascii)     (* a bracket class *)
| NoneOf (cs : list ascii).   (* a negated bracket class *)

Definition accepts (k : class) (c : ascii) : bool :=
  match k with
  | Byte a => byte.eqb c a
  | OneOf cs => byte.mem c cs
  | NoneOf cs => negb (byte.mem c cs)
  end.

Inductive Regexp : Type :=
| Empty
| Char (k : class)
| Star (k : class)                 (* zero or more of k, greedy *)
| Concat (r1 r2 : Regexp)
| Capture (r : Regexp).            (* capturing group 1 *)

(** The literal text [w]; this is what a pattern made of
    [regexp.QuoteMeta(w)] matches. *)
Fixpoint Literal (w : string) : Regexp :=
  match w with
  | EmptyString => Empty
  | String c w' => Concat (Char (Byte c)) (Literal w')
  end.

(** [r1 r2 ... rn]. *)
Fixpoint Seq (rs : list Regexp) : Regexp :=
  match rs with
  | [] => Empty
  | r :: rs' => Concat r (Seq rs')
  end.

(** The text consumed between position [s] and the later position [s']. *)
Definition consumed (s s' : string) : string :=
  take (String.length s - String.length s') s.

Section Matcher.
Context {A : Type}.

Fixpoint star (k : class) (s : string) (cont : string -> option A)
  : option A :=
  match s with
  | EmptyString => cont s
  | String c s' =>
      if accepts k c then
        match star k s' cont with
        | Some a => Some a
        | None => cont s
        end
      else cont s
  end.

(** [run r s cap cont]: match [r] at the front of [s]; [cap] is the text
    of group 1 so far; [cont] receives the rest of the input. *)
Fixpoint run (r : Regexp) (s : string) (cap : option string)
    (cont : string -> option string -> option A) : option A :=
  match r with
  | Empty => cont s cap
  | Char k =>
      match s with
      | EmptyString => None
      | String c s' => if accepts k c then cont s' cap else None
      end
  | Star k => star k s (fun s' => cont s' cap)
  | Concat r1 r2 => run r1 s cap (fun s1 cap1 => run r2 s1 cap1 cont)
  | Capture r1 => run r1 s cap (fun s1 _ => cont s1 (Some (consumed s s1)))
  end.

End Matcher.

(** A match anchored at the front of [s]: the rest of the input and
    group 1. *)
Definition matchAt (r : Regexp) (s : string) : option (string * option string) :=
  run r s None (fun s' cap => Some (s', cap)).

Definition group (cap : option string) : string :=
  match cap with Some g => g | None => "" end.

(** [Regexp.FindStringSubmatch]: the whole match and group 1 of the
    leftmost match, [nil] when there is none. *)
Fixpoint FindStringSubmatch (r : Regexp) (s : string) : list string :=
  match matchAt r s with
  | Some (s', cap) => [consumed s s'; group cap]
  | None =>
      match s with
      | EmptyString => []
      | String _ s' => FindStringSubmatch r s'
      end
  end.

End regexp.

(* ================================================================== *)
(** ** The extractor of [main.go] *)

Record LinkPreviewResponse : Type := mkPreview {
  URL : string;
  Title : string;
  Description : string;
  Image : string;
  SiteName : string;
  Error : string
}.

(** The zero value of the struct ([var result LinkPreviewResponse]). *)
Definition zeroResponse : LinkPreviewResponse := mkPreview "" "" "" "" "" "".

Definition setURL (v : string) (r : LinkPreviewResponse) :=
  mkPreview v (Title r) (Description r) (Image r) (SiteName r) (Error r).
Definition setTitle (v : string) (r : LinkPreviewResponse) :=
  mkPreview (URL r) v (Description r) (Image r) (SiteName r) (Error r).
Definition setDescription (v : string) (r : LinkPreviewResponse) :=
  mkPreview (URL r) (Title r) v (Image r) (SiteName r) (Error r).
Definition setImage (v : string) (r : LinkPreviewResponse) :=
  mkPreview (URL r) (Title r) (Description r) v (SiteName r) (Error r).
Definition setSiteName (v : string) (r : LinkPreviewResponse) :=
  mkPreview (URL r) (Title r) (Description r) (Image r) v (Error r).
Definition setError (v : string) (r : LinkPreviewResponse) :=
  mkPreview (URL r) (Title r) (Description r) (Image r) (SiteName r) v.

Definition nonEmpty (s : string) : bool :=
  match s with EmptyString => false | _ => true end.

Import regexp.

Definition quote : class := OneOf [dquote; squote].
Definition notQuote : class := NoneOf [dquote; squote].
Definition notGt : class := NoneOf [">"%char].
Definition notLt : class := NoneOf ["<"%char].

(** The pattern of the title element: the text [<title], any run of
    bytes other than [>], a [>], group 1 = any run of bytes other than
    [<], and the text [</title>]. *)
Definition titlePattern : Regexp :=
  Seq [Literal "<title"; Star notGt; Literal ">";
       Capture (Star notLt); Literal "</title>"].

(** The marker attribute of a key: [MARKER=], a quote, the key, a quote.
    A quote is either quote character; the key is
    [regexp.QuoteMeta(metaName)], which matches [metaName] literally. *)
Definition markerPart (marker metaName : string) : Regexp :=
  Seq [Literal (marker ++ "="); Char quote; Literal metaName; Char quote].

(** The content attribute: [content=], a quote, group 1 = a run of
    non-quote bytes, a quote. *)
Definition valuePart : Regexp :=
  Seq [Literal "content="; Char quote; Capture (Star notQuote); Char quote].

(** Patterns 1 and 2 of [extractMetaContent], marker before content:
    [<meta], a run of non-[>] bytes, the marker attribute, a run of
    non-[>] bytes, the content attribute. *)
Definition markerFirst (marker metaName : string) : Regexp :=
  Seq [Literal "<meta"; Star notGt; markerPart marker metaName;
       Star notGt; valuePart].

(** Patterns 3 and 4, content before marker: [<meta], a run of non-[>]
    bytes, the content attribute, a run of non-[>] bytes, the marker
    attribute. *)
Definition contentFirst (marker metaName : string) : Regexp :=
  Seq [Literal "<meta"; Star notGt; valuePart; Star notGt;
       markerPart marker metaName].

(** [extractTag]: group 1 of the leftmost match of the pattern, the empty
    string when the pattern does not match. *)
Definition extractTag (html : string) (pattern : Regexp) : string :=
  match FindStringSubmatch pattern html with
  | _ :: g :: _ => g
  | _ => ""
  end.

(** [extractMetaContent]: the four patterns, tried in this order, each on
    the whole document. *)
Definition extractMetaContent (html metaName : string) : string :=
  let pattern1 := markerFirst "name" metaName in
  let content1 := extractTag html pattern1 in
  if nonEmpty content1 then content1 else
  let pattern2 := markerFirst "property" metaName in
  let content2 := extractTag html pattern2 in
  if nonEmpty content2 then content2 else
  let pattern3 := contentFirst "name" metaName in
  let content3 := extractTag html pattern3 in
  if nonEmpty content3 then content3 else
  let pattern4 := contentFirst "property" metaName in
  extractTag html pattern4.

(** One guarded assignment of [extractMetadata]: when [v] is not the
    empty string, the field is set to [strings.TrimSpace(v)]. *)
Definition assignIf (set : string -> LinkPreviewResponse -> LinkPreviewResponse)
    (v : string) (result : LinkPreviewResponse) : LinkPreviewResponse :=
  if nonEmpty v then set (strings.TrimSpace v) result else result.

(** [extractMetadata] after its first line, with the lowered copy of the
    document as a parameter: the title element is looked for in the
    document, every meta tag in the copy. *)
Definition extractFields (htmlContent lowerHTML : string)
    (result : LinkPreviewResponse) : LinkPreviewResponse :=
  let result := assignIf setTitle (extractTag htmlContent titlePattern) result in
  let result := assignIf setTitle (extractMetaContent lowerHTML "og:title") result in
  let result := assignIf setDescription (extractMetaContent lowerHTML "description") result in
  let result := assignIf setDescription (extractMetaContent lowerHTML "og:description") result in
  let result := assignIf setImage (extractMetaContent lowerHTML "og:image") result in
  let result := assignIf setSiteName (extractMetaContent lowerHTML "og:site_name") result in
  result.

(** [extractMetadata], as a function from the record before the call to
    the record after it. *)
Definition extractMetadata (htmlContent : string) (result : LinkPreviewResponse)
  : LinkPreviewResponse :=
  let lowerHTML := strings.ToLower htmlContent in
  extractFields htmlContent lowerHTML result.

(* ================================================================== *)
(** ** Package [strconv] *)

Module strconv.

(** One hexadecimal digit of [n < 16]. *)
Definition hexDigit (upper : bool) (n : N) : ascii :=
  if (n <? 10)%N then ascii_of_N (48 + n)
  else ascii_of_N ((if upper then 55 else 87) + n).

(** The two hexadecimal digits of a byte. *)
Definition hex2 (upper : bool) (c : ascii) : string :=
  let n := byte.code c in
  String (hexDigit upper (n / 16)) (String (hexDigit upper (n mod 16)) "").

Definition backslash : ascii := "092"%char.

(** What [strconv.Quote] writes for one byte.  Printable ASCII is kept,
    the double quote and the backslash get a backslash, control bytes are
    written as escapes.  Bytes from 0x80 up are kept, which is what Go
    does for the bytes of a printable rune. *)
Definition quoteByte (c : ascii) : string :=
  let n := byte.code c in
  let esc (x : string) := String backslash x in
  if byte.eqb c dquote || byte.eqb c backslash then esc (String c "")
  else if (32 <=? n)%N && (n <=? 126)%N then String c ""
  else if (n =? 7)%N then esc "a"
  else if (n =? 8)%N then esc "b"
  else if (n =? 12)%N then esc "f"
  else if (n =? 10)%N then esc "n"
  else if (n =? 13)%N then esc "r"
  else if (n =? 9)%N then esc "t"
  else if (n =? 11)%N then esc "v"
  else if (n <? 32)%N || (n =? 127)%N then esc ("x" ++ hex2 false c)
  else String c "".

Fixpoint quoteBody (s : string) : string :=
  match s with
  | EmptyString => EmptyString
  | String c s' => quoteByte c ++ quoteBody s'
  end.

(** [strconv.Quote], the verb [%q] of [fmt]. *)
Definition Quote (s : string) : string := DQ ++ quoteBody s ++ DQ.

(** The verb [%d] of [fmt] on an [int]. *)
Definition Itoa (n : Z) : string := NilZero.string_of_int (Z.to_int n).

End strconv.

(* ================================================================== *)
(** ** Package [net/url]

    [Parse] and [URL.String] with the functions they call, one
    definition per function of [net/url] as of Go 1.22, the version the
    repository builds with.  All of them work on bytes. *)

Module url.

Inductive encoding : Type :=
| encodePath
| encodePathSegment
| encodeHost
| encodeZone
| encodeUserPassword
| encodeQueryComponent
| encodeFragment.

Definition isHostMode (mode : encoding) : bool :=
  match mode with encodeHost | encodeZone => true | _ => false end.

Record Userinfo : Type := mkUserinfo {
  username : string;
  password : string;
  passwordSet : bool
}.

Record URL : Type := mkURL {
  Scheme : string;
  Opaque : string;
  User : option Userinfo;
  Host : string;
  Path : string;
  RawPath : string;
  OmitHost : bool;
  ForceQuery : bool;
  RawQuery : string;
  Fragment : string;
  RawFragment : string
}.

Definition withScheme (v : string) (u : URL) : URL :=
  mkURL v (Opaque u) (User u) (Host u) (Path u) (RawPath u) (OmitHost u)
        (ForceQuery u) (RawQuery u) (Fragment u) (RawFragment u).

Definition ishex (c : ascii) : bool :=
  byte.isDigit c || byte.between 97 102 c || byte.between 65 70 c.

Definition unhex (c : ascii) : N :=
  let n := byte.code c in
  if byte.isDigit c then (n - 48)%N
  else if byte.between 97 102 c then (n - 97 + 10)%N
  else if byte.between 65 70 c then (n - 65 + 10)%N
  else 0%N.

(** [shouldEscape]: whether byte [c] must be written as a percent escape
    in the part of the URL given by [mode]. *)
Definition shouldEscape (c : ascii) (mode : encoding) : bool :=
  if byte.isLower c || byte.isUpper c || byte.isDigit c then false
  else if isHostMode mode
          && byte.mem c ["!"; "$"; "&"; squote; "("; ")"; "*"; "+"; ","; ";";
                         "="; ":"; "["; "]"; "<"; ">"; dquote]%char
  then false
  else if byte.mem c ["-"; "_"; "."; "~"]%char then false
  else if byte.mem c ["$"; "&"; "+"; ","; "/"; ":"; ";"; "="; "?"; "@"]%char
          && match mode with
             | encodePath | encodePathSegment | encodeUserPassword
             | encodeQueryComponent | encodeFragment => true
             | _ => false
             end
  then
    match mode with
    | encodePath => byte.eqb c "?"
    | encodePathSegment => byte.mem c ["/"; ";"; ","; "?"]%char
    | encodeUserPassword => byte.mem c ["@"; "/"; "?"; ":"]%char
    | encodeQueryComponent => true
    | _ => false
    end
  else if match mode with encodeFragment => byte.mem c ["!"; "("; ")"; "*"]%char
                     | _ => false end
  then false
  else true.

(** The text of an [EscapeError] and of an [InvalidHostError]. *)
Definition EscapeError (s : string) : string :=
  "invalid URL escape " ++ strconv.Quote s.
Definition InvalidHostError (s : string) : string :=
  "invalid character " ++ strconv.Quote s ++ " in host name".

(** The first loop of [unescape]: every [%] is followed by two
    hexadecimal digits, and the bytes are allowed in [mode]. *)
Fixpoint checkEscapes (mode : encoding) (s : string) : res unit :=
  match s with
  | EmptyString => Ok tt
  | String c s1 =>
      if byte.eqb c "%" then
        match s1 with
        | String h1 (String h2 s3) =>
            if ishex h1 && ishex h2 then
              if match mode with encodeHost => true | _ => false end
                 && (unhex h1 <? 8)%N && negb (String.eqb (take 3 s) "%25")
              then Fail (EscapeError (take 3 s))
              else
                let v := ascii_of_N (unhex h1 * 16 + unhex h2) in
                if match mode with encodeZone => true | _ => false end
                   && negb (String.eqb (take 3 s) "%25")
                   && negb (byte.eqb v " ") && shouldEscape v encodeHost
                then Fail (EscapeError (take 3 s))
                else checkEscapes mode s3
            else Fail (EscapeError (take 3 s))
        | _ => Fail (EscapeError (take 3 s))
        end
      else if byte.eqb c "+" then checkEscapes mode s1
      else if isHostMode mode && (byte.code c <? 128)%N
              && shouldEscape c encodeHost
      then Fail (InvalidHostError (String c ""))
      else checkEscapes mode s1
  end.

(** The second loop of [unescape]: percent escapes decoded, and [+] read
    as a space in a query component. *)
Fixpoint decode (mode : encoding) (s : string) : string :=
  match s with
  | EmptyString => EmptyString
  | String c s1 =>
      if byte.eqb c "%" then
        match s1 with
        | String h1 (String h2 s3) =>
            String (ascii_of_N (unhex h1 * 16 + unhex h2)) (decode mode s3)
        | _ => s
        end
      else if byte.eqb c "+" then
        String (match mode with encodeQueryComponent => " "%char | _ => c end)
               (decode mode s1)
      else String c (decode mode s1)
  end.

Definition unescape (s : string) (mode : encoding) : res string :=
  _ <- checkEscapes mode s ;; Ok (decode mode s).

Fixpoint escape (s : string) (mode : encoding) : string :=
  match s with
  | EmptyString => EmptyString
  | String c s' =>
      if shouldEscape c mode then
        if byte.eqb c " " && match mode with encodeQueryComponent => true
                                        | _ => false end
        then String "+" (escape s' mode)
        else String "%" (strconv.hex2 true c ++ escape s' mode)
      else String c (escape s' mode)
  end.

(** [validEncoded]: [s] only has bytes that may stand unescaped. *)
Definition validEncoded (s : string) (mode : encoding) : bool :=
  string_all
    (fun c =>
       byte.mem c ["!"; "$"; "&"; squote; "("; ")"; "*"; "+"; ","; ";"; "=";
                   ":"; "@"; "["; "]"; "%"]%char
       || negb (shouldEscape c mode)) s.

Definition stringContainsCTLByte (s : string) : bool :=
  negb (string_all
          (fun c => negb ((byte.code c <? 32)%N || (byte.code c =? 127)%N)) s).

(** [getScheme]: the scheme and the text after its colon.  The first
    argument is [i > 0], the second the bytes read so far, in reverse. *)
Fixpoint getSchemeFrom (later : bool) (seen : list ascii) (rawURL s : string)
  : res (string * string) :=
  match s with
  | EmptyString => Ok ("", rawURL)
  | String c s' =>
      if byte.isLetter c then getSchemeFrom true (c :: seen) rawURL s'
      else if byte.isDigit c || byte.mem c ["+"; "-"; "."]%char then
        if later then getSchemeFrom true (c :: seen) rawURL s'
        else Ok ("", rawURL)
      else if byte.eqb c ":" then
        if later then Ok (string_of_list_ascii (List.rev seen), s')
        else Fail "missing protocol scheme"
      else Ok ("", rawURL)
  end.

Definition getScheme (rawURL : string) : res (string * string) :=
  getSchemeFrom false [] rawURL rawURL.

Definition validOptionalPort (port : string) : bool :=
  match port with
  | EmptyString => true
  | String c digits => byte.eqb c ":" && string_all byte.isDigit digits
  end.

Definition validUserinfo (s : string) : bool :=
  string_all
    (fun c =>
       byte.isUpper c || byte.isLower c || byte.isDigit c
       || byte.mem c ["-"; "."; "_"; ":"; "~"; "!"; "$"; "&"; squote; "(";
                      ")"; "*"; "+"; ","; ";"; "="; "%"; "@"]%char) s.

Definition invalidPort (colonPort : string) : string :=
  "invalid port " ++ strconv.Quote colonPort ++ " after host".

Definition parseHost (host : string) : res string :=
  if strings.HasPrefix host "[" then
    match strings.LastIndex host "]" with
    | None => Fail "missing ']' in host"
    | Some i =>
        let colonPort := drop (i + 1) host in
        if negb (validOptionalPort colonPort) then Fail (invalidPort colonPort)
        else
          match strings.Index (take i host) "%25" with
          | Some zone =>
              host1 <- unescape (take zone host) encodeHost ;;
              host2 <- unescape (drop zone (take i host)) encodeZone ;;
              host3 <- unescape (drop i host) encodeHost ;;
              Ok (host1 ++ host2 ++ host3)
          | None => unescape host encodeHost
          end
    end
  else
    match strings.LastIndex host ":" with
    | Some i =>
        let colonPort := drop i host in
        if negb (validOptionalPort colonPort) then Fail (invalidPort colonPort)
        else unescape host encodeHost
    | None => unescape host encodeHost
    end.

Definition parseAuthority (authority : string) : res (option Userinfo * string) :=
  let at_ := strings.LastIndex authority "@" in
  host <- parseHost (match at_ with
                     | None => authority
                     | Some i => drop (i + 1) authority
                     end) ;;
  match at_ with
  | None => Ok (None, host)
  | Some i =>
      let userinfo := take i authority in
      if negb (validUserinfo userinfo) then Fail "net/url: invalid userinfo"
      else if negb (strings.Contains userinfo ":") then
        userinfo <- unescape userinfo encodeUserPassword ;;
        Ok (Some (mkUserinfo userinfo "" false), host)
      else
        let '(username, password, _) := strings.Cut userinfo ":" in
        username <- unescape username encodeUserPassword ;;
        password <- unescape password encodeUserPassword ;;
        Ok (Some (mkUserinfo username password true), host)
  end.

(** [setPath]: the decoded path, and the raw path when it is not the
    default encoding of the decoded one. *)
Definition setPath (p : string) : res (string * string) :=
  path <- unescape p encodePath ;;
  Ok (path, if String.eqb p (escape path encodePath) then "" else p).

Definition setFragment (f : string) : res (string * string) :=
  frag <- unescape f encodeFragment ;;
  Ok (frag, if String.eqb f (escape frag encodeFragment) then "" else f).

(** [parse]: a URL without fragment. *)
Definition parse (rawURL : string) (viaRequest : bool) : res URL :=
  if stringContainsCTLByte rawURL
  then Fail "net/url: invalid control character in URL"
  else if String.eqb rawURL "" && viaRequest then Fail "empty url"
  else if String.eqb rawURL "*"
  then Ok (mkURL "" "" None "" "*" "" false false "" "" "")
  else
    '(scheme, rest) <- getScheme rawURL ;;
    let scheme := strings.ToLower scheme in
    let '(rest, forceQuery, rawQuery) :=
      if strings.HasSuffix rest "?" && (strings.CountByte rest "?" =? 1)%nat
      then (take (String.length rest - 1) rest, true, "")
      else let '(before, after, _) := strings.Cut rest "?" in
           (before, false, after) in
    let rootless := negb (strings.HasPrefix rest "/") in
    if rootless && nonEmpty scheme
    then Ok (mkURL scheme rest None "" "" "" false forceQuery rawQuery "" "")
    else if rootless && viaRequest then Fail "invalid URI for request"
    else if rootless
            && strings.Contains (fst (fst (strings.Cut rest "/"))) ":"
    then Fail "first path segment in URL cannot contain colon"
    else
      '(user, host, rest, omitHost) <-
        (if (nonEmpty scheme
             || negb viaRequest && negb (strings.HasPrefix rest "///"))
            && strings.HasPrefix rest "//"
         then
           let authority := drop 2 rest in
           let '(authority, rest) :=
             match strings.Index authority "/" with
             | Some i => (take i authority, drop i authority)
             | None => (authority, "")
             end in
           '(user, host) <- parseAuthority authority ;;
           Ok (user, host, rest, false)
         else Ok (None, "", rest,
                  nonEmpty scheme && strings.HasPrefix rest "/")) ;;
      '(path, rawPath) <- setPath rest ;;
      Ok (mkURL scheme "" user host path rawPath omitHost forceQuery rawQuery
                "" "").

(** The text of a [url.Error]. *)
Definition ErrorText (op u err : string) : string :=
  op ++ " " ++ strconv.Quote u ++ ": " ++ err.

(** [url.Parse]. *)
Definition Parse (rawURL : string) : res URL :=
  let '(u, frag, _) := strings.Cut rawURL "#" in
  match parse u false with
  | Fail err => Fail (ErrorText "parse" u err)
  | Ok url =>
      if String.eqb frag "" then Ok url
      else
        match setFragment frag with
        | Fail err => Fail (ErrorText "parse" rawURL err)
        | Ok (fragment, rawFragment) =>
            Ok (mkURL (Scheme url) (Opaque url) (User url) (Host url)
                      (Path url) (RawPath url) (OmitHost url) (ForceQuery url)
                      (RawQuery url) fragment rawFragment)
        end
  end.

Definition EscapedPath (u : URL) : string :=
  if nonEmpty (RawPath u) && validEncoded (RawPath u) encodePath
     && match unescape (RawPath u) encodePath with
        | Ok p => String.eqb p (Path u)
        | Fail _ => false
        end
  then RawPath u
  else if String.eqb (Path u) "*" then "*"
  else escape (Path u) encodePath.

Definition EscapedFragment (u : URL) : string :=
  if nonEmpty (RawFragment u) && validEncoded (RawFragment u) encodeFragment
     && match unescape (RawFragment u) encodeFragment with
        | Ok f => String.eqb f (Fragment u)
        | Fail _ => false
        end
  then RawFragment u
  else escape (Fragment u) encodeFragment.

Definition UserinfoString (ui : Userinfo) : string :=
  escape (username ui) encodeUserPassword
  ++ (if passwordSet ui then ":" ++ escape (password ui) encodeUserPassword
      else "").

Definition isSome {A : Type} (o : option A) : bool :=
  match o with Some _ => true | None => false end.

(** [URL.String]: the URL written out again. *)
Definition String_ (u : URL) : string :=
  let buf := if nonEmpty (Scheme u) then Scheme u ++ ":" else "" in
  let buf :=
    if nonEmpty (Opaque u) then buf ++ Opaque u
    else
      let buf :=
        if nonEmpty (Scheme u) || nonEmpty (Host u) || isSome (User u) then
          if OmitHost u && negb (nonEmpty (Host u)) && negb (isSome (User u))
          then buf
          else
            buf
            ++ (if nonEmpty (Host u) || nonEmpty (Path u) || isSome (User u)
                then "//" else "")
            ++ (match User u with
                | Some ui => UserinfoString ui ++ "@"
                | None => ""
                end)
            ++ (if nonEmpty (Host u) then escape (Host u) encodeHost else "")
        else buf in
      let path := EscapedPath u in
      let buf :=
        if nonEmpty path && negb (strings.HasPrefix path "/")
           && nonEmpty (Host u)
        then buf ++ "/" else buf in
      let buf :=
        if negb (nonEmpty buf)
           && strings.Contains (fst (fst (strings.Cut path "/"))) ":"
        then buf ++ "./" else buf in
      buf ++ path in
  let buf :=
    if ForceQuery u || nonEmpty (RawQuery u) then buf ++ "?" ++ RawQuery u
    else buf in
  if nonEmpty (Fragment u) then buf ++ "#" ++ EscapedFragment u else buf.

End url.

(* ================================================================== *)
(** ** Package [io] *)

Module io.

(** A byte stream as a reader sees it: the bytes it delivers, and how it
    ends once they are read: [None] for [io.EOF], or the text of a read
    error. *)
Record Reader : Type := mkReader {
  data : string;
  failure : option string
}.

(** [io.LimitReader(r, n)]: the stream stops with [io.EOF] after [n]
    bytes; the end of [r] is only seen when [r] is shorter than [n]. *)
Definition LimitReader (r : Reader) (n : N) : Reader :=
  if (N.of_nat (String.length (data r)) <? n)%N then r
  else mkReader (take (N.to_nat n) (data r)) None.

(** [io.ReadAll]: everything up to the end of the stream, and the error
    that ended it, if it was not [io.EOF]. *)
Definition ReadAll (r : Reader) : string * option string :=
  (data r, failure r).

End io.

(* ================================================================== *)
(** ** Package [net/http] *)

Module http.

Record Response : Type := mkResponse {
  StatusCode : Z;
  Status : string;
  Body : io.Reader
}.

Definition StatusOK : Z := 200.
Definition StatusRequestTimeout : Z := 408.

(** The response that the client builds from a status line with code
    [code] and reason phrase [reason]: [Status] is the text after the
    protocol version, code included, and [StatusCode] is its number. *)
Definition response (code : Z) (reason : string) (body : io.Reader) : Response :=
  mkResponse code (strconv.Itoa code ++ " " ++ reason) body.

(** [http.NewRequestWithContext] with method GET and no body: it fails
    exactly when [url.Parse] rejects the URL, with that error.  The
    request is then given by its URL. *)
Definition NewRequestWithContext (target : string) : res string :=
  _ <- url.Parse target ;; Ok target.

(** The network, as [me.client.Do] shows it: for the GET request of a URL
    (with the fixed User-Agent header), a response or the text of a
    transport error. *)
Definition Client : Type := string -> res Response.

End http.

(* ================================================================== *)
(** ** [FetchLinkPreview] *)

(** The value of [result] when [FetchLinkPreview] returns, which is what
    its deferred function offers to the channel, and the URLs for which
    the client was called. *)
Definition FetchLinkPreview (client : http.Client) (targetURL : string)
  : LinkPreviewResponse * list string :=
  let result := zeroResponse in
  let result := setURL targetURL result in
  match url.Parse targetURL with
  | Fail err => (setError ("Invalid URL format: " ++ err) result, [])
  | Ok parsedURL =>
      let '(targetURL, result) :=
        if String.eqb (url.Scheme parsedURL) "" then
          let parsedURL := url.withScheme "https" parsedURL in
          let targetURL := url.String_ parsedURL in
          (targetURL, setURL targetURL result)
        else (targetURL, result) in
      match http.NewRequestWithContext targetURL with
      | Fail err => (setError ("Failed to create request: " ++ err) result, [])
      | Ok req =>
          match client req with
          | Fail err =>
              (setError ("Failed to fetch URL: " ++ err) result, [req])
          | Ok resp =>
              if negb (Z.eqb (http.StatusCode resp) http.StatusOK) then
                (setError ("HTTP error: "
                           ++ strconv.Itoa (http.StatusCode resp) ++ " "
                           ++ http.Status resp) result, [req])
              else
                match io.ReadAll (io.LimitReader (http.Body resp) (1024 * 1024)) with
                | (_, Some err) =>
                    (setError ("Failed to read response body: " ++ err) result,
                     [req])
                | (body, None) => (extractMetadata body result, [req])
                end
          end
      end
  end.

(* ================================================================== *)
(** ** [handleLinkPreview]: the handler, the goroutine and the channel

    The handler makes a context with a time budget and a channel of
    capacity one, starts [FetchLinkPreview] as a goroutine and then
    executes a [select] on the channel and on the end of the context.  The
    goroutine ends in a deferred [select] that sends its result or sees
    the end of the context.  The system is a transition relation; the
    passing of time is the step that ends the context.

    A [select] takes one of the communications that can proceed when it
    is executed, any of them when there are several, and blocks when
    there is none; a blocked [select] is completed by the first
    communication that becomes possible: the send that finds the handler
    blocked hands it the value, the end of the context that finds it
    blocked wakes it with the time-out. *)

Module handler.

(** Where the goroutine is. *)
Inductive producer : Type :=
| Fetching                              (* inside FetchLinkPreview *)
| Delivering (r : LinkPreviewResponse)  (* at the deferred select *)
| Exited.

(** Where the handler is. *)
Inductive consumer : Type :=
| Starting                              (* before its select *)
| Waiting                               (* blocked in its select *)
| Replied (r : LinkPreviewResponse)     (* c.JSON(200, result) *)
| TimedOut.                             (* c.JSON(408, ...) *)

Record state : Type := mkState {
  prod : producer;
  resultChan : list LinkPreviewResponse;   (* the buffer of the channel *)
  done : bool;                             (* ctx.Done() is closed *)
  cons : consumer
}.

(** [make(chan LinkPreviewResponse, 1)]. *)
Definition capacity : nat := 1.

Definition init : state := mkState Fetching [] false Starting.

(** The HTTP status the handler answers with. *)
Definition statusOf (c : consumer) : option Z :=
  match c with
  | Starting | Waiting => None
  | Replied _ => Some http.StatusOK
  | TimedOut => Some http.StatusRequestTimeout
  end.

(** What the end of the context does to the handler: one that is blocked
    in its [select] takes the case [<-ctx.Done()]. *)
Definition wake (c : consumer) : consumer :=
  match c with
  | Waiting => TimedOut
  | _ => c
  end.

Section Steps.
(** The result the fetch ends with, whenever that is. *)
Variable outcome : LinkPreviewResponse.

(** Steps of the goroutine.  Its deferred [select] sends when the handler
    is blocked in its own [select] (the value is handed over) or the
    buffer has room, and may take [<-ctx.Done()] once the context has
    ended. *)
Inductive producer_step : state -> state -> Prop :=
| fetch_returns : forall ch d c,
    producer_step (mkState Fetching ch d c)
                  (mkState (Delivering outcome) ch d c)
| hand_over : forall r ch d,
    producer_step (mkState (Delivering r) ch d Waiting)
                  (mkState Exited ch d (Replied r))
| send : forall r ch d c,
    c <> Waiting -> length ch < capacity ->
    producer_step (mkState (Delivering r) ch d c)
                  (mkState Exited (ch ++ [r]) d c)
| abandon : forall r ch c,
    producer_step (mkState (Delivering r) ch true c)
                  (mkState Exited ch true c).

(** Steps of the handler: it executes its [select]. *)
Inductive consumer_step : state -> state -> Prop :=
| receive : forall p r ch d,
    consumer_step (mkState p (r :: ch) d Starting)
                  (mkState p ch d (Replied r))
| time_out : forall p ch,
    consumer_step (mkState p ch true Starting)
                  (mkState p ch true TimedOut)
| block : forall p,
    consumer_step (mkState p [] false Starting)
                  (mkState p [] false Waiting).

(** Steps of the context: the budget runs out or the parent is cancelled,
    and the handler's deferred [cancel()] once it has answered. *)
Inductive context_step : state -> state -> Prop :=
| expire : forall p ch c,
    context_step (mkState p ch false c) (mkState p ch true (wake c)).

Inductive step (s s' : state) : Prop :=
| by_producer : producer_step s s' -> step s s'
| by_consumer : consumer_step s s' -> step s s'
| by_context : context_step s s' -> step s s'.

Inductive reachable : state -> Prop :=
| reach_init : reachable init
| reach_step : forall s s', reachable s -> step s s' -> reachable s'.

(** A run from one state to a later one. *)
Inductive steps : state -> state -> Prop :=
| steps_refl : forall s, steps s s
| steps_step : forall s s' s'', step s s' -> steps s' s'' -> steps s s''.

End Steps.

End handler.

(* ================================================================== *)
(** ** The answer of [handleLinkPreview] *)

(** [LinkPreviewRequest]; its field is [URL] in the source. *)
Record LinkPreviewRequest : Type := mkRequest {
  reqURL : string
}.

(** The body of the request as [c.ShouldBindJSON(&req)] reads it: a text
    that [encoding/json] does not decode into the struct ([details] is
    the text of its error), or a JSON object, with the text of its [url]
    member when it has one that is not [null]. *)
Inductive RequestBody : Type :=
| Malformed (details : string)
| Decoded (url : option string).

(** The error of the validator for the tag [binding:"required"] of the
    field [URL]. *)
Definition requiredError : string :=
  "Key: 'LinkPreviewRequest.URL' Error:Field validation for 'URL' failed on the 'required' tag".

(** [c.ShouldBindJSON(&req)]: the body is decoded, and the field [URL],
    which is required, must not be left at its zero value. *)
Definition ShouldBindJSON (body : RequestBody) : res LinkPreviewRequest :=
  match body with
  | Malformed details => Fail details
  | Decoded None => Fail requiredError
  | Decoded (Some url) =>
      if String.eqb url "" then Fail requiredError else Ok (mkRequest url)
  end.

Module gin.

(** The response headers, as [c.Header] sees them. *)
Definition Headers : Type := list (string * string).

Definition Del (key : string) (h : Headers) : Headers :=
  filter (fun kv => negb (String.eqb (fst kv) key)) h.

(** [c.Header(key, value)]: the header is set, or deleted when the value
    is empty. *)
Definition Header (key value : string) (h : Headers) : Headers :=
  if String.eqb value "" then Del key h
  else (Del key h ++ [(key, value)])%list.

(** The value of a header, empty when it is not set. *)
Fixpoint Get (key : string) (h : Headers) : string :=
  match h with
  | [] => ""
  | (k, v) :: h' => if String.eqb k key then v else Get key h'
  end.

(** What a middleware does last: [c.Next()] or [c.AbortWithStatus]. *)
Inductive Flow : Type :=
| Next
| Abort (code : Z).

(** The body given to [c.JSON]: a [gin.H] of strings, or the result. *)
Inductive Payload : Type :=
| Object (fields : list (string * string))
| Preview (result : LinkPreviewResponse).

(** An answer written with [c.Header] and [c.JSON]. *)
Record Answer : Type := mkAnswer {
  Code : Z;
  Head : Headers;
  Body : Payload
}.

End gin.

Definition StatusBadRequest : Z := 400.

Definition cacheControl : string :=
  "public, max-age=3600, s-maxage=3600, stale-while-revalidate=86400".

(** [handleLinkPreview].  The goroutine is started on the trimmed URL.
    How handler, goroutine and context are scheduled is not decided by
    the code: [schedule outcome] is a state of the run of their system
    in which the fetch ends with [outcome], and the answer is the one
    the handler has given in that state, [None] as long as it has not
    left its [select]. *)
Definition handleLinkPreview (extractor : http.Client)
    (schedule : LinkPreviewResponse -> handler.state) (body : RequestBody)
  : option gin.Answer :=
  match ShouldBindJSON body with
  | Fail details =>
      Some (gin.mkAnswer StatusBadRequest []
              (gin.Object
                 [("error",
                   "Invalid request format. Expected JSON with 'url' field.");
                  ("details", details)]))
  | Ok req =>
      if String.eqb (strings.TrimSpace (reqURL req)) "" then
        Some (gin.mkAnswer StatusBadRequest []
                (gin.Object [("error", "URL cannot be empty")]))
      else
        let outcome :=
          fst (FetchLinkPreview extractor (strings.TrimSpace (reqURL req))) in
        match handler.cons (schedule outcome) with
        | handler.Starting | handler.Waiting => None
        | handler.Replied result =>
            if nonEmpty (Error result) then
              Some (gin.mkAnswer http.StatusOK [] (gin.Preview result))
            else
              Some (gin.mkAnswer http.StatusOK
                      (gin.Header "Cache-Control" cacheControl [])
                      (gin.Preview result))
        | handler.TimedOut =>
            Some (gin.mkAnswer http.StatusRequestTimeout []
                    (gin.Object
                       [("error",
                         "Request timed out while fetching link preview");
                        ("url", reqURL req)]))
        end
  end.

(* ================================================================== *)
(** ** [Config], [NewConfig], [isOriginAllowed] and the CORS middleware *)

(** [os.Getenv]: the value of a variable, empty when it is not set. *)
Definition Env : Type := string -> string.

Record Config : Type := mkConfig {
  AllowedOrigins : list string;
  Port : string
}.

Definition defaultOrigins : list string :=
  ["https://localhost:3000"; "http://localhost:3000"; "http://localhost:5173"].

(** The loop of [NewConfig] over the pieces of [ALLOWED_ORIGINS]: each
    piece is trimmed and appended unless it is empty. *)
Fixpoint collectOrigins (pieces origins : list string) : list string :=
  match pieces with
  | [] => origins
  | origin :: rest =>
      let origin := strings.TrimSpace origin in
      collectOrigins rest
        (if nonEmpty origin then (origins ++ [origin])%list else origins)
  end.

Definition NewConfig (getenv : Env) : Config :=
  let allowedOrigins := getenv "ALLOWED_ORIGINS" in
  let origins :=
    if nonEmpty allowedOrigins
    then collectOrigins (strings.SplitByte allowedOrigins ",") []
    else [] in
  let origins :=
    if (length origins =? 0)%nat then defaultOrigins else origins in
  let port := getenv "PORT" in
  let port := if String.eqb port "" then ":5465" else port in
  let port :=
    if negb (strings.HasPrefix port ":") then ":" ++ port else port in
  mkConfig origins port.

(** The loop of [isOriginAllowed]. *)
Fixpoint allowedAmong (allowedOrigins : list string) (origin : string) : bool :=
  match allowedOrigins with
  | [] => false
  | allowed :: rest =>
      if String.eqb allowed "*" || String.eqb allowed origin then true
      else allowedAmong rest origin
  end.

Definition isOriginAllowed (c : Config) (origin : string) : bool :=
  allowedAmong (AllowedOrigins c) origin.

(** [len(config.AllowedOrigins) == 1 && config.AllowedOrigins[0] == "*"],
    written without the quotes: the list is the wildcard alone. *)
Definition wildcardAlone (config : Config) : bool :=
  (length (AllowedOrigins config) =? 1)%nat
  && match AllowedOrigins config with
     | first :: _ => String.eqb first "*"
     | [] => false
     end.

(** The middleware that [setupRoutes] installs, for a request with the
    given [Origin] header (empty when absent) and method, on the response
    headers [h]. *)
Definition corsMiddleware (config : Config) (origin method : string)
    (h : gin.Headers) : gin.Headers * gin.Flow :=
  let h :=
    if nonEmpty origin then
      if isOriginAllowed config origin then
        gin.Header "Access-Control-Allow-Credentials" "true"
          (gin.Header "Access-Control-Allow-Origin" origin h)
      else if wildcardAlone config then
        gin.Header "Access-Control-Allow-Origin" "*" h
      else h
    else if wildcardAlone config then
      gin.Header "Access-Control-Allow-Origin" "*" h
    else h in
  let h := gin.Header "Access-Control-Allow-Methods" "GET, POST, OPTIONS" h in
  let h :=
    gin.Header "Access-Control-Allow-Headers" "Content-Type, Authorization" h in
  if String.eqb method "OPTIONS" then (h, gin.Abort 204) else (h, gin.Next).

(* ================================================================== *)
(** ** The example client: [truncateString] *)

(** [truncateString].  [s[:maxLen]] panics when [maxLen] is negative;
    the panic is the [Fail] case, with the text of the runtime error. *)
Definition truncateString (s : string) (maxLen : Z) : res string :=
  if (Z.of_nat (String.length s) <=? maxLen)%Z then Ok s
  else if (maxLen <? 0)%Z then
    Fail ("runtime error: slice bounds out of range [:"
          ++ strconv.Itoa maxLen ++ "]")
  else Ok (take (Z.to_nat maxLen) s ++ "...").

(* ================================================================== *)
(** ** Vocabulary of the statements *)

(** [t] is what is left of [s] after some bytes have been read. *)
Definition suffix_of (t s : string) : Prop := exists p, s = p ++ t.

(** A byte that is not an upper-case ASCII letter. *)
Definition notUpper (c : ascii) : bool := negb (byte.isUpper c).

(** A byte that may stand in an attribute value without ending it or
    being read as part of the tag: no quote, no [>], no [=]. *)
Definition valueByte (c : ascii) : bool :=
  negb (byte.mem c [dquote; squote; ">"; "="]%char).

(** A byte that [net/url] leaves as it is in a path, the colon apart. *)
Definition pathByte (c : ascii) : bool :=
  negb (url.shouldEscape c url.encodePath) && negb (byte.eqb c ":").

(** A client for which every request fails in the transport. *)
Definition offline : http.Client := fun _ => Fail "no such host".

(** A client that answers every request with the given status line and
    body. *)
Definition answering (code : Z) (reason : string) (body : io.Reader)
  : http.Client :=
  fun _ => Ok (http.response code reason body).

(** What the star does after a run [u] of its bytes when nothing matched
    further on: it gives back the bytes of [u] one at a time, last byte
    first, and tries [f] each time. *)
Fixpoint retry {A : Type} (u t : string) (f : string -> option A) : option A :=
  match u with
  | EmptyString => None
  | String c u' =>
      match retry u' t f with
      | Some a => Some a
      | None => f (String c u' ++ t)
      end
  end.

(** A byte of a plain value: a value byte other than [<]. *)
Definition plainByte (c : ascii) : bool :=
  valueByte c && negb (byte.eqb c "<").

(** A text starts with bytes of the classes [ks], in this order. *)
Fixpoint matchSeq (ks : list regexp.class) (s : string) : bool :=
  match ks with
  | [] => true
  | k :: ks' =>
      match s with
      | EmptyString => false
      | String c s' => regexp.accepts k c && matchSeq ks' s'
      end
  end.

(** The classes [ks] and the text [v] go together as far as both go. *)
Fixpoint agreeSeq (ks : list regexp.class) (v : string) : bool :=
  match ks, v with
  | k :: ks', String d v' => regexp.accepts k d && agreeSeq ks' v'
  | _, _ => true
  end.

(** Bytes of the classes [ks] cannot start anywhere in [u], whatever
    follows [u]. *)
Fixpoint cleanRun (ks : list regexp.class) (u : string) : bool :=
  match u with
  | EmptyString => true
  | String _ u' => negb (agreeSeq ks u) && cleanRun ks u'
  end.

(** The same for [p] after its first byte. *)
Definition cleanTail (ks : list regexp.class) (p : string) : bool :=
  match p with
  | EmptyString => true
  | String _ p' => cleanRun ks p'
  end.

(** The classes of a literal, one per byte. *)
Definition literalClasses (w : string) : list regexp.class :=
  map regexp.Byte (list_ascii_of_string w).

(** The classes of a marker attribute, one per byte. *)
Definition markerClasses (marker metaName : string) : list regexp.class :=
  (literalClasses (marker ++ "=") ++ [quote]
   ++ literalClasses metaName ++ [quote])%list.

(** A pattern that can only match where the text [<meta] starts. *)
Definition needsMeta (r : regexp.Regexp) : Prop :=
  forall s, String.prefix "<meta" s = false -> regexp.matchAt r s = None.

(** A byte other than [<]. *)
Definition notLtByte (c : ascii) : bool := negb (byte.eqb c "<").

(** The four patterns of [key] pass over a tag with marker [m] and key
    [k]: the marker attributes of [key] start nowhere in the tag, and the
    text [content=] starts nowhere before the content attribute. *)
Definition passesOver (key m k : string) : bool :=
  let u1 := " " ++ m ++ "=" ++ DQ ++ k ++ DQ ++ " " in
  let u := " " ++ m ++ "=" ++ DQ ++ k ++ DQ ++ " content=" ++ DQ in
  string_all (regexp.accepts notGt) u1
  && string_all (regexp.accepts notGt) u
  && string_all notLtByte (m ++ k)
  && cleanRun (markerClasses "name" key) u
  && cleanRun (markerClasses "property" key) u
  && cleanRun (literalClasses "content=") u1.

(** Until the goroutine has left its deferred [select], nothing is in
    the channel; afterwards at most its one result. *)
Definition channel_invariant (s : handler.state) : Prop :=
  match handler.prod s with
  | handler.Exited => length (handler.resultChan s) <= handler.capacity
  | _ => handler.resultChan s = []
  end.

(** The keys that [extractMetadata] looks up. *)
Definition metaKeys : list string :=
  ["og:title"; "description"; "og:description"; "og:image"; "og:site_name"].

(** The text of a meta tag with the marker attribute first. *)
Definition metaTag (marker key value : string) : string :=
  "<meta " ++ marker ++ "=" ++ DQ ++ key ++ DQ ++ " content=" ++ DQ ++ value
  ++ DQ ++ ">".

(** [n] copies of the byte [c]. *)
Fixpoint replicate (n : nat) (c : ascii) : string :=
  match n with
  | O => EmptyString
  | S n' => String c (replicate n' c)
  end.

(** A text of ASCII white space only. *)
Definition blank (s : string) : bool := string_all strings.asciiSpace s.

(** The byte [sep] does not occur in [s]. *)
Definition without (sep : ascii) (s : string) : bool :=
  string_all (fun c => negb (byte.eqb c sep)) s.

(** A list of origins written as one setting: the entries with a comma
    and a space between them. *)
Fixpoint joinOrigins (origins : list string) : string :=
  match origins with
  | [] => ""
  | [origin] => origin
  | origin :: rest => origin ++ ", " ++ joinOrigins rest
  end.

(** An entry as [NewConfig] keeps it: not empty, without white space
    around it, without comma. *)
Definition cleanOrigin (origin : string) : Prop :=
  origin <> "" /\ strings.TrimSpace origin = origin
  /\ without "," origin = true.

(** The header [key] is set in [h]. *)
Definition hasHeader (key : string) (h : gin.Headers) : bool :=
  existsb (fun kv => String.eqb (fst kv) key) h.

(** The checks of [trimFront] fail on the first bytes of [s]: no white
    space starts there. *)
Definition frontChecks (back : bool) (s : string) : Prop :=
  match s with
  | String a s1 =>
      strings.asciiSpace a = false
      /\ match s1 with
         | String b s2 =>
             (if back then strings.space2 b a else strings.space2 a b) = false
             /\ match s2 with
                | String c _ =>
                    (if back then strings.space3 c b a
                     else strings.space3 a b c) = false
                | EmptyString => True
                end
         | EmptyString => True
         end
  | EmptyString => True
  end.

(** The names of the headers that the middleware writes. *)
Definition AllowOrigin : string := "Access-Control-Allow-Origin".
Definition AllowCredentials : string := "Access-Control-Allow-Credentials".
Definition AllowMethods : string := "Access-Control-Allow-Methods".
Definition AllowHeaders : string := "Access-Control-Allow-Headers".

(** An environment in which only [ALLOWED_ORIGINS] is set. *)
Definition originsEnv (value : string) : Env :=
  fun name => if String.eqb name "ALLOWED_ORIGINS" then value else "".

(** Every group of the pattern is a run of bytes of a class within
    [p]. *)
Fixpoint groupsWithin (p : ascii -> bool) (r : regexp.Regexp) : Prop :=
  match r with
  | regexp.Capture (regexp.Star k) =>
      forall c, regexp.accepts k c = true -> p c = true
  | regexp.Capture _ => False
  | regexp.Concat r1 r2 => groupsWithin p r1 /\ groupsWithin p r2
  | _ => True
  end.

(** A byte that is neither quote character. *)
Definition notQuoteByte (c : ascii) : bool :=
  negb (byte.eqb c dquote) && negb (byte.eqb c squote).

(** The URL for which [FetchLinkPreview] builds its request: the target,
    or the target written out again with the scheme [https]; [None] when
    the target is not parsed or no request can be built. *)
Definition requestURL (targetURL : string) : option string :=
  match url.Parse targetURL with
  | Fail _ => None
  | Ok parsedURL =>
      let target :=
        if String.eqb (url.Scheme parsedURL) ""
        then url.String_ (url.withScheme "https" parsedURL)
        else targetURL in
      match http.NewRequestWithContext target with
      | Fail _ => None
      | Ok req => Some req
      end
  end.

(** What [FetchLinkPreview] makes of the answer of the client for the
    request of [target]. *)
Definition afterRequest (client : http.Client) (target : string)
  : LinkPreviewResponse :=
  let result := setURL target zeroResponse in
  match client target with
  | Fail err => setError ("Failed to fetch URL: " ++ err) result
  | Ok resp =>
      if negb (Z.eqb (http.StatusCode resp) http.StatusOK) then
        setError ("HTTP error: " ++ strconv.Itoa (http.StatusCode resp) ++ " "
                  ++ http.Status resp) result
      else
        match io.ReadAll (io.LimitReader (http.Body resp) (1024 * 1024)) with
        | (_, Some err) =>
            setError ("Failed to read response body: " ++ err) result
        | (body, None) => extractMetadata body result
        end
  end.

(** A text of ASCII bytes; on such a text [strings.ToLower] only changes
    the upper-case letters, byte for byte. *)
Definition asciiText (s : string) : bool :=
  string_all (fun c => (byte.code c <? 128)%N) s.

(** [value] is a piece of [text] with the white space around it
    removed. *)
Definition takenFrom (text value : string) : Prop :=
  exists piece, infix_of piece text /\ value = strings.TrimSpace piece.

(** What holds of replies and of the channel in every state: the
    goroutine delivers the result of the fetch, the channel holds nothing
    else, the handler replies with it only after the goroutine has
    finished and the channel is empty again, and a time-out is answered
    only when the context has ended. *)
Definition reply_invariant (outcome : LinkPreviewResponse)
    (s : handler.state) : Prop :=
  (forall r, handler.prod s = handler.Delivering r -> r = outcome)
  /\ (forall r, In r (handler.resultChan s) -> r = outcome)
  /\ (forall r, handler.cons s = handler.Replied r ->
        r = outcome /\ handler.prod s = handler.Exited
        /\ handler.resultChan s = [])
  /\ (handler.cons s = handler.TimedOut -> handler.done s = true).

(* ================================================================== *)
(** * Properties *)

(** ** Strings *)

Lemma nonEmpty_true (s : string) : nonEmpty s = true <-> s <> "".
Proof. destruct s; simpl; split; congruence. Qed.

Lemma nonEmpty_false (s : string) : nonEmpty s = false <-> s = "".
Proof. destruct s; simpl; split; congruence. Qed.

Lemma append_nil_r (s : string) : s ++ "" = s.
Proof. induction s; simpl; congruence. Qed.

Lemma append_assoc (a b c : string) : (a ++ b) ++ c = a ++ b ++ c.
Proof. induction a; simpl; congruence. Qed.

Lemma length_append (a b : string) :
  String.length (a ++ b) = String.length a + String.length b.
Proof. induction a; simpl; congruence. Qed.

Lemma take_append (p s : string) : take (String.length p) (p ++ s) = p.
Proof. induction p; simpl; [destruct s; reflexivity | congruence]. Qed.

Lemma take_all (s : string) (n : nat) : String.length s <= n -> take n s = s.
Proof.
  revert n; induction s as [|c s IH]; intros [|n] H; simpl in *;
    try reflexivity; try lia.
  rewrite IH by lia; reflexivity.
Qed.

Lemma length_take (s : string) (n : nat) :
  String.length (take n s) = Nat.min n (String.length s).
Proof.
  revert n; induction s as [|c s IH]; intros [|n]; simpl; auto.
Qed.

Lemma string_all_append (p : ascii -> bool) (a b : string) :
  string_all p (a ++ b) = string_all p a && string_all p b.
Proof.
  induction a as [|c a IH]; simpl; [reflexivity|].
  rewrite IH, andb_assoc; reflexivity.
Qed.

Lemma string_all_infix (p : ascii -> bool) (g s : string) :
  infix_of g s -> string_all p s = true -> string_all p g = true.
Proof.
  intros (a & b & ->) H.
  rewrite !string_all_append in H.
  apply andb_true_iff in H as [_ H].
  apply andb_true_iff in H as [H _]; exact H.
Qed.

Lemma infix_trans (a b c : string) :
  infix_of a b -> infix_of b c -> infix_of a c.
Proof.
  intros (p & q & ->) (p' & q' & ->).
  exists (p' ++ p), (q ++ q').
  rewrite !append_assoc; reflexivity.
Qed.

Lemma infix_cons (c : ascii) (g s : string) :
  infix_of g s -> infix_of g (String c s).
Proof. intros (p & q & ->); exists (String c p), q; reflexivity. Qed.

Lemma infix_empty (s : string) : infix_of "" s.
Proof. exists "", s; reflexivity. Qed.

Lemma suffix_refl (s : string) : suffix_of s s.
Proof. exists ""; reflexivity. Qed.

Lemma suffix_cons (c : ascii) (t s : string) :
  suffix_of t s -> suffix_of t (String c s).
Proof. intros (p & ->); exists (String c p); reflexivity. Qed.

Lemma suffix_trans (a b c : string) :
  suffix_of a b -> suffix_of b c -> suffix_of a c.
Proof.
  intros (p & ->) (q & ->); exists (q ++ p); rewrite append_assoc; reflexivity.
Qed.

Lemma consumed_append (p s : string) : regexp.consumed (p ++ s) s = p.
Proof.
  unfold regexp.consumed.
  rewrite length_append.
  replace (String.length p + String.length s - String.length s)
    with (String.length p) by lia.
  apply take_append.
Qed.

Lemma consumed_infix (s t : string) :
  suffix_of t s -> infix_of (regexp.consumed s t) s.
Proof.
  intros (p & ->); rewrite consumed_append; exists "", t; reflexivity.
Qed.

Lemma list_of_append (a b : string) :
  list_ascii_of_string (a ++ b)
  = (list_ascii_of_string a ++ list_ascii_of_string b)%list.
Proof. induction a; simpl; congruence. Qed.

Lemma string_of_app (l m : list ascii) :
  string_of_list_ascii (l ++ m)
  = string_of_list_ascii l ++ string_of_list_ascii m.
Proof. induction l; simpl; congruence. Qed.

Lemma rev_append (a b : string) : rev (a ++ b) = rev b ++ rev a.
Proof.
  unfold rev; rewrite list_of_append, rev_app_distr; apply string_of_app.
Qed.

Lemma rev_involutive (s : string) : rev (rev s) = s.
Proof.
  unfold rev.
  rewrite list_ascii_of_string_of_list_ascii, List.rev_involutive.
  apply string_of_list_ascii_of_string.
Qed.

Lemma string_all_impl (p q : ascii -> bool) (s : string) :
  (forall c, p c = true -> q c = true) ->
  string_all p s = true -> string_all q s = true.
Proof.
  intros Hpq; induction s as [|c s IH]; simpl; [reflexivity|].
  intros H; apply andb_true_iff in H as [Hc Hs].
  rewrite (Hpq c Hc), IH; auto.
Qed.

Lemma string_all_take (p : ascii -> bool) (n : nat) (s : string) :
  string_all p s = true -> string_all p (take n s) = true.
Proof.
  revert n; induction s as [|c s IH]; intros [|n]; simpl; auto.
  intros H; apply andb_true_iff in H as [Hc Hs].
  rewrite Hc, IH; auto.
Qed.

Lemma string_all_rev (p : ascii -> bool) (s : string) :
  string_all p (rev s) = string_all p s.
Proof.
  induction s as [|c s IH]; [reflexivity|].
  change (String c s) with (String c "" ++ s).
  rewrite rev_append, !string_all_append, IH.
  simpl; rewrite andb_true_r; apply andb_comm.
Qed.

Lemma trimFront_suffix (back : bool) (s : string) :
  suffix_of (strings.trimFront back s) s.
Proof.
  assert (H : forall n s, String.length s < n ->
                          suffix_of (strings.trimFront back s) s).
  { clear s; induction n as [|n IH]; intros s Hn; [lia|].
    destruct s as [|a [|b [|c s3]]]; simpl in *.
    - apply suffix_refl.
    - destruct (strings.asciiSpace a); [|apply suffix_refl].
      exists (String a ""); reflexivity.
    - destruct (strings.asciiSpace a).
      + apply suffix_cons, IH; simpl; lia.
      + destruct (if back then strings.space2 b a else strings.space2 a b);
          [|apply suffix_refl].
        exists (String a (String b "")); reflexivity.
    - destruct (strings.asciiSpace a).
      + apply suffix_cons, IH; simpl; lia.
      + destruct (if back then strings.space2 b a else strings.space2 a b).
        * do 2 apply suffix_cons; apply IH; simpl; lia.
        * destruct (if back then strings.space3 c b a
                    else strings.space3 a b c); [|apply suffix_refl].
          do 3 apply suffix_cons; apply IH; simpl; lia. }
  apply (H (S (String.length s))); lia.
Qed.

(** What [strings.TrimSpace] returns is a piece of its argument. *)
Lemma TrimSpace_infix (s : string) : infix_of (strings.TrimSpace s) s.
Proof.
  unfold strings.TrimSpace.
  destruct (trimFront_suffix false s) as (p & Hp).
  destruct (trimFront_suffix true (rev (strings.trimFront false s)))
    as (q & Hq).
  exists p, (rev q).
  rewrite Hp at 1; f_equal.
  rewrite <- rev_append, <- Hq; symmetry; apply rev_involutive.
Qed.

(** ** The matcher *)

Section MatcherFacts.
Context {A : Type}.

Lemma star_inv (k : regexp.class) (s : string) (cont : string -> option A)
    (a : A) :
  regexp.star k s cont = Some a ->
  exists t, suffix_of t s /\ cont t = Some a.
Proof.
  induction s as [|c s IH]; simpl; intros H.
  - exists ""; split; [apply suffix_refl | exact H].
  - destruct (regexp.accepts k c).
    + destruct (regexp.star k s cont) as [a'|] eqn:E.
      * destruct (IH H) as (t & Ht & Hc).
        exists t; split; [apply suffix_cons, Ht | exact Hc].
      * exists (String c s); split; [apply suffix_refl | exact H].
    + exists (String c s); split; [apply suffix_refl | exact H].
Qed.

(** A successful run hands its continuation a later position of the
    input, and a group that is either the one it started with or a piece
    of the input. *)
Lemma run_inv (r : regexp.Regexp) :
  forall (s : string) (cap : option string)
         (cont : string -> option string -> option A) (a : A),
    regexp.run r s cap cont = Some a ->
    exists t cap',
      suffix_of t s /\ cont t cap' = Some a
      /\ (cap' = cap \/ exists g, cap' = Some g /\ infix_of g s).
Proof.
  induction r as [|k|k|r1 IH1 r2 IH2|r1 IH1]; simpl; intros s cap cont a H.
  - exists s, cap; auto using suffix_refl.
  - destruct s as [|c s]; [discriminate|].
    destruct (regexp.accepts k c); [|discriminate].
    exists s, cap; repeat split; auto.
    exists (String c ""); reflexivity.
  - apply star_inv in H as (t & Ht & Hc).
    exists t, cap; auto.
  - apply IH1 in H as (t1 & cap1 & Hs1 & H & Hcap1).
    apply IH2 in H as (t & cap' & Hs & H & Hcap).
    exists t, cap'; split; [eapply suffix_trans; eauto|].
    split; [exact H|].
    destruct Hcap as [->|(g & -> & Hg)].
    + exact Hcap1.
    + right; exists g; split; [reflexivity|].
      destruct Hs1 as (p & ->).
      destruct Hg as (x & y & ->).
      exists (p ++ x), y; rewrite append_assoc; reflexivity.
  - apply IH1 in H as (t & cap1 & Hs & H & _).
    exists t, (Some (regexp.consumed s t)); repeat split; auto.
    right; eexists; split; [reflexivity | apply consumed_infix, Hs].
Qed.

End MatcherFacts.

Lemma matchAt_group_infix (r : regexp.Regexp) (s t : string)
    (cap : option string) :
  regexp.matchAt r s = Some (t, cap) -> infix_of (regexp.group cap) s.
Proof.
  unfold regexp.matchAt; intros H.
  apply run_inv in H as (t' & cap' & _ & H & Hcap).
  injection H as -> ->.
  destruct Hcap as [->|(g & -> & Hg)]; simpl; [apply infix_empty | exact Hg].
Qed.

(** Group 1 of [FindStringSubmatch] is a piece of the text searched. *)
Lemma extractTag_infix (html : string) (pattern : regexp.Regexp) :
  infix_of (extractTag html pattern) html.
Proof.
  unfold extractTag.
  induction html as [|c s IH]; simpl.
  - destruct (regexp.matchAt pattern "") as [[t cap]|] eqn:E.
    + eapply matchAt_group_infix; eauto.
    + apply infix_empty.
  - destruct (regexp.matchAt pattern (String c s)) as [[t cap]|] eqn:E.
    + eapply matchAt_group_infix; eauto.
    + apply infix_cons, IH.
Qed.

Lemma extractMetaContent_infix (html metaName : string) :
  infix_of (extractMetaContent html metaName) html.
Proof.
  unfold extractMetaContent.
  repeat match goal with
         | |- context [if ?b then _ else _] => destruct b
         end; apply extractTag_infix.
Qed.

(** ** Lower case *)

Lemma toLower_notUpper (c : ascii) : notUpper (byte.toLower c) = true.
Proof.
  destruct c as [[] [] [] [] [] [] [] []]; vm_compute; reflexivity.
Qed.

Lemma toLower_fixed (c : ascii) : notUpper c = true -> byte.toLower c = c.
Proof.
  unfold notUpper, byte.toLower; destruct (byte.isUpper c);
    simpl; congruence.
Qed.

Lemma ToLower_notUpper (s : string) :
  string_all notUpper (strings.ToLower s) = true.
Proof.
  induction s as [|c s IH]; simpl; [reflexivity|].
  rewrite toLower_notUpper, IH; reflexivity.
Qed.

Lemma notUpper_ToLower (s : string) :
  string_all notUpper s = true -> strings.ToLower s = s.
Proof.
  induction s as [|c s IH]; simpl; [reflexivity|].
  intros H; apply andb_true_iff in H as [Hc Hs].
  rewrite toLower_fixed, IH; auto.
Qed.

(** A value cut out of the lower-cased document and trimmed is in lower
    case. *)
Lemma lowered_piece (html g : string) :
  infix_of g (strings.ToLower html) ->
  strings.ToLower (strings.TrimSpace g) = strings.TrimSpace g.
Proof.
  intros H; apply notUpper_ToLower.
  eapply string_all_infix; [|apply (ToLower_notUpper html)].
  eapply infix_trans; [apply TrimSpace_infix | exact H].
Qed.

(** ** [extractMetadata] *)

Ltac split_guards :=
  repeat match goal with
         | |- context [if nonEmpty ?v then _ else _] =>
             destruct (nonEmpty v) eqn:?
         end.

Lemma extractMetadata_Error (html : string) (r : LinkPreviewResponse) :
  Error (extractMetadata html r) = Error r.
Proof. unfold extractMetadata, extractFields, assignIf; split_guards; reflexivity. Qed.

Lemma extractMetadata_URL (html : string) (r : LinkPreviewResponse) :
  URL (extractMetadata html r) = URL r.
Proof. unfold extractMetadata, extractFields, assignIf; split_guards; reflexivity. Qed.

Lemma extractMetadata_Title (html : string) (r : LinkPreviewResponse) :
  Title (extractMetadata html r)
  = let title := extractTag html titlePattern in
    let ogTitle := extractMetaContent (strings.ToLower html) "og:title" in
    if nonEmpty ogTitle then strings.TrimSpace ogTitle
    else if nonEmpty title then strings.TrimSpace title
    else Title r.
Proof. unfold extractMetadata, extractFields, assignIf; split_guards; reflexivity. Qed.

Lemma extractMetadata_Description (html : string) (r : LinkPreviewResponse) :
  Description (extractMetadata html r)
  = let desc := extractMetaContent (strings.ToLower html) "description" in
    let ogDesc := extractMetaContent (strings.ToLower html) "og:description" in
    if nonEmpty ogDesc then strings.TrimSpace ogDesc
    else if nonEmpty desc then strings.TrimSpace desc
    else Description r.
Proof. unfold extractMetadata, extractFields, assignIf; split_guards; reflexivity. Qed.

Lemma extractMetadata_Image (html : string) (r : LinkPreviewResponse) :
  Image (extractMetadata html r)
  = let ogImage := extractMetaContent (strings.ToLower html) "og:image" in
    if nonEmpty ogImage then strings.TrimSpace ogImage else Image r.
Proof. unfold extractMetadata, extractFields, assignIf; split_guards; reflexivity. Qed.

Lemma extractMetadata_SiteName (html : string) (r : LinkPreviewResponse) :
  SiteName (extractMetadata html r)
  = let siteName := extractMetaContent (strings.ToLower html) "og:site_name" in
    if nonEmpty siteName then strings.TrimSpace siteName else SiteName r.
Proof. unfold extractMetadata, extractFields, assignIf; split_guards; reflexivity. Qed.

(** ** First match *)

Section StarFacts.
Context {A : Type}.

Lemma run_Literal (w : string) :
  forall (s : string) (cap : option string)
         (cont : string -> option string -> option A),
    regexp.run (regexp.Literal w) s cap cont
    = if String.prefix w s then cont (drop (String.length w) s) cap else None.
Proof.
  induction w as [|c w IH]; intros s cap cont.
  - destruct s; reflexivity.
  - destruct s as [|d s]; [reflexivity|].
    cbn [regexp.run regexp.Literal regexp.accepts String.prefix
         String.length drop].
    unfold byte.eqb.
    destruct (Ascii.eqb_spec d c) as [->|Hne].
    + destruct (ascii_dec c c); [apply IH | congruence].
    + destruct (ascii_dec c d); [congruence | reflexivity].
Qed.

(** A literal that has a byte [e] foreign to [x], and that does not have
    the byte [c], is not found at the front of [x] followed by [c]. *)
Lemma prefix_blocked (w x : string) (c e : ascii) (y : string) :
  string_all (fun b => negb (byte.eqb b c)) w = true ->
  string_all (fun b => negb (byte.eqb b e)) w = false ->
  string_all (fun b => negb (byte.eqb b e)) x = true ->
  String.prefix w (x ++ String c y) = false.
Proof.
  revert w; induction x as [|d x IH]; intros w Hc He Hx.
  - destruct w as [|b w]; [discriminate He|].
    simpl in *; apply andb_true_iff in Hc as [Hb _].
    destruct (ascii_dec b c) as [->|_]; [|reflexivity].
    unfold byte.eqb in Hb; rewrite Ascii.eqb_refl in Hb; discriminate.
  - destruct w as [|b w]; [discriminate He|].
    simpl in *.
    apply andb_true_iff in Hc as [_ Hc].
    apply andb_true_iff in Hx as [Hd Hx].
    destruct (ascii_dec b d) as [->|_]; [|reflexivity].
    rewrite Hd in He; simpl in He.
    apply IH; assumption.
Qed.

(** The star gives up on a run of its bytes when nothing that can follow
    starts inside the run. *)
Lemma star_blocked (k : regexp.class) (w x : string) (c e : ascii)
    (y : string) (f : string -> option A) :
  (forall s, String.prefix w s = false -> f s = None) ->
  string_all (regexp.accepts k) x = true ->
  regexp.accepts k c = false ->
  string_all (fun b => negb (byte.eqb b c)) w = true ->
  string_all (fun b => negb (byte.eqb b e)) w = false ->
  string_all (fun b => negb (byte.eqb b e)) x = true ->
  regexp.star k (x ++ String c y) f = None.
Proof.
  intros Hf Hx Hk Hc He Hxe.
  induction x as [|d x IH]; simpl.
  - rewrite Hk; apply Hf.
    apply (prefix_blocked w "" c e y); auto.
  - simpl in Hx, Hxe.
    apply andb_true_iff in Hx as [Hd Hx].
    rewrite Hd, IH; auto.
    + apply Hf; apply (prefix_blocked w (String d x) c e y); auto.
    + apply andb_true_iff in Hxe as [_ Hxe]; exact Hxe.
Qed.

Lemma run_Literal_app (w : string) :
  forall (s : string) (cap : option string)
         (cont : string -> option string -> option A),
    regexp.run (regexp.Literal w) (w ++ s) cap cont = cont s cap.
Proof.
  induction w as [|c w IH]; intros s cap cont; [reflexivity|].
  cbn [regexp.run regexp.Literal regexp.accepts append].
  unfold byte.eqb; rewrite Ascii.eqb_refl; apply IH.
Qed.

(** The star of a class followed by something that cannot start with a
    byte of the class takes the whole run. *)
Lemma star_forced (k : regexp.class) (x : string) (c : ascii) (y : string)
    (f : string -> option A) :
  string_all (regexp.accepts k) x = true ->
  regexp.accepts k c = false ->
  (forall d s, regexp.accepts k d = true -> f (String d s) = None) ->
  regexp.star k (x ++ String c y) f = f (String c y).
Proof.
  intros Hx Hk Hf; induction x as [|d x IH]; simpl.
  - rewrite Hk; reflexivity.
  - simpl in Hx; apply andb_true_iff in Hx as [Hd Hx].
    rewrite Hd, (IH Hx).
    destruct (f (String c y)) eqn:E; [reflexivity|].
    apply Hf, Hd.
Qed.

Lemma star_split (k : regexp.class) (u t : string) (f : string -> option A) :
  string_all (regexp.accepts k) u = true ->
  regexp.star k (u ++ t) f
  = match regexp.star k t f with
    | Some a => Some a
    | None => retry u t f
    end.
Proof.
  induction u as [|c u IH]; intros Hu.
  - simpl; destruct (regexp.star k t f); reflexivity.
  - simpl in Hu; apply andb_true_iff in Hu as [Hc Hu].
    cbn [append regexp.star retry]; rewrite Hc, (IH Hu).
    destruct (regexp.star k t f); reflexivity.
Qed.

Lemma run_markerPart (marker metaName s : string) (cap : option string)
    (cont : string -> option string -> option A) :
  regexp.run (markerPart marker metaName)
             (marker ++ "=" ++ DQ ++ metaName ++ DQ ++ s) cap cont
  = cont s cap.
Proof.
  unfold markerPart; cbn [regexp.Seq regexp.run].
  rewrite <- (append_assoc marker "=" _), run_Literal_app.
  cbn [DQ append regexp.accepts quote byte.mem existsb].
  unfold byte.eqb at 1; rewrite Ascii.eqb_refl; cbn [orb].
  rewrite run_Literal_app.
  cbn [DQ append regexp.accepts quote byte.mem existsb].
  unfold byte.eqb at 1; rewrite Ascii.eqb_refl; reflexivity.
Qed.

Lemma run_markerPart_fail (marker metaName s : string) (cap : option string)
    (cont : string -> option string -> option A) :
  String.prefix (marker ++ "=") s = false ->
  regexp.run (markerPart marker metaName) s cap cont = None.
Proof.
  intros H; unfold markerPart; cbn [regexp.Seq regexp.run].
  rewrite run_Literal, H; reflexivity.
Qed.

Lemma run_valuePart_fail (s : string) (cap : option string)
    (cont : string -> option string -> option A) :
  String.prefix "content=" s = false ->
  regexp.run valuePart s cap cont = None.
Proof.
  intros H; unfold valuePart; cbn [regexp.Seq regexp.run].
  rewrite run_Literal, H; reflexivity.
Qed.


Lemma matchSeq_literal (w s : string) :
  matchSeq (literalClasses w) s = String.prefix w s.
Proof.
  revert s; induction w as [|c w IH]; intros s; [destruct s; reflexivity|].
  destruct s as [|d s]; [reflexivity|].
  unfold literalClasses in *; cbn [list_ascii_of_string map matchSeq
                                   regexp.accepts String.prefix].
  rewrite IH; unfold byte.eqb.
  destruct (Ascii.eqb_spec d c) as [->|Hne].
  - destruct (ascii_dec c c); [reflexivity | congruence].
  - destruct (ascii_dec c d); [congruence | reflexivity].
Qed.

Lemma matchSeq_app (ks1 ks2 : list regexp.class) (s : string) :
  matchSeq (ks1 ++ ks2) s
  = matchSeq ks1 s && matchSeq ks2 (drop (length ks1) s).
Proof.
  revert s; induction ks1 as [|k ks1 IH]; intros s; [reflexivity|].
  destruct s as [|c s]; [reflexivity|].
  cbn [app matchSeq length drop]; rewrite IH, andb_assoc; reflexivity.
Qed.

Lemma length_literalClasses (w : string) :
  length (literalClasses w) = String.length w.
Proof.
  unfold literalClasses; rewrite length_map.
  induction w; simpl; congruence.
Qed.

Lemma agreeSeq_matchSeq (ks : list regexp.class) (v t : string) :
  agreeSeq ks v = false -> matchSeq ks (v ++ t) = false.
Proof.
  revert v; induction ks as [|k ks IH]; intros v H;
    [destruct v; discriminate H|].
  destruct v as [|d v]; [discriminate H|].
  cbn [agreeSeq] in H; cbn [append matchSeq].
  destruct (regexp.accepts k d); [apply IH, H | reflexivity].
Qed.

Lemma retry_clean (ks : list regexp.class) (u t : string)
    (f : string -> option A) :
  (forall s, matchSeq ks s = false -> f s = None) ->
  cleanRun ks u = true -> retry u t f = None.
Proof.
  intros Hf; induction u as [|c u IH]; intros H; [reflexivity|].
  cbn [cleanRun] in H; apply andb_true_iff in H as [Hc Hu].
  cbn [retry]; rewrite (IH Hu).
  apply Hf, agreeSeq_matchSeq, negb_true_iff, Hc.
Qed.

Lemma retry_app (u p t : string) (f : string -> option A) :
  retry (u ++ p) t f
  = match retry p t f with
    | Some a => Some a
    | None => retry u (p ++ t) f
    end.
Proof.
  induction u as [|c u IH]; cbn [append retry].
  - destruct (retry p t f); reflexivity.
  - rewrite IH, append_assoc.
    destruct (retry p t f); reflexivity.
Qed.

(** The star in front of a literal: it runs over [u], [p] and [x] up to
    the byte [c], finds no later place for the literal, and comes back to
    the one at the front of [p]. *)
Lemma star_lands (k : regexp.class) (w u p x : string) (c e : ascii)
    (y : string) (f : string -> option A) (r : A) :
  (forall s, String.prefix w s = false -> f s = None) ->
  string_all (regexp.accepts k) (u ++ p) = true ->
  string_all (regexp.accepts k) x = true ->
  regexp.accepts k c = false ->
  string_all (fun b => negb (byte.eqb b c)) w = true ->
  string_all (fun b => negb (byte.eqb b e)) w = false ->
  string_all (fun b => negb (byte.eqb b e)) x = true ->
  cleanTail (literalClasses w) p = true ->
  f (p ++ x ++ String c y) = Some r ->
  regexp.star k (u ++ p ++ x ++ String c y) f = Some r.
Proof.
  intros Hf Hup Hx Hk Hc He Hxe Hp Hr.
  assert (Hks : forall s, matchSeq (literalClasses w) s = false -> f s = None)
    by (intros s Hs; apply Hf; rewrite <- matchSeq_literal; exact Hs).
  rewrite <- append_assoc, star_split by exact Hup.
  rewrite (star_blocked k w x c e y f) by assumption.
  rewrite retry_app.
  destruct p as [|c0 p'].
  - cbn [append] in Hr.
    rewrite Hf in Hr; [discriminate Hr|].
    apply (prefix_blocked w x c e y); assumption.
  - cbn [retry]; cbn [cleanTail] in Hp.
    rewrite (retry_clean _ p' _ f Hks Hp), Hr; reflexivity.
Qed.

(** The star in front of something that starts nowhere in the run: no
    match. *)
Lemma star_misses (k : regexp.class) (w u x : string) (c e : ascii)
    (y : string) (f : string -> option A) :
  (forall s, String.prefix w s = false -> f s = None) ->
  string_all (regexp.accepts k) u = true ->
  string_all (regexp.accepts k) x = true ->
  regexp.accepts k c = false ->
  string_all (fun b => negb (byte.eqb b c)) w = true ->
  string_all (fun b => negb (byte.eqb b e)) w = false ->
  string_all (fun b => negb (byte.eqb b e)) x = true ->
  retry u (x ++ String c y) f = None ->
  regexp.star k (u ++ x ++ String c y) f = None.
Proof.
  intros Hf Hu Hx Hk Hc He Hxe Hr.
  rewrite star_split by exact Hu.
  rewrite (star_blocked k w x c e y f) by assumption.
  exact Hr.
Qed.

(** The marker attribute only matches a text that starts with bytes of
    its classes. *)
Lemma run_markerPart_seq (marker metaName s : string) (cap : option string)
    (cont : string -> option string -> option A) :
  matchSeq (markerClasses marker metaName) s = false ->
  regexp.run (markerPart marker metaName) s cap cont = None.
Proof.
  unfold markerClasses; intros H.
  rewrite matchSeq_app, matchSeq_literal, length_literalClasses in H.
  unfold markerPart; cbn [regexp.Seq regexp.run].
  rewrite run_Literal.
  destruct (String.prefix (marker ++ "=") s); [|reflexivity].
  cbn [andb] in H.
  destruct (drop (String.length (marker ++ "=")) s) as [|c s2];
    [reflexivity|].
  cbn [app matchSeq] in H.
  destruct (regexp.accepts quote c); [|reflexivity].
  cbn [andb] in H.
  rewrite matchSeq_app, matchSeq_literal, length_literalClasses in H.
  rewrite run_Literal.
  destruct (String.prefix metaName s2); [|reflexivity].
  cbn [andb] in H.
  destruct (drop (String.length metaName) s2) as [|c' s4]; [reflexivity|].
  cbn [matchSeq] in H.
  destruct (regexp.accepts quote c'); [discriminate H | reflexivity].
Qed.

End StarFacts.

Lemma valueByte_facts (c : ascii) :
  valueByte c = true ->
  regexp.accepts notQuote c = true /\ regexp.accepts notGt c = true
  /\ negb (byte.eqb c "=") = true.
Proof.
  destruct c as [[] [] [] [] [] [] [] []]; vm_compute; intros H;
    try discriminate H; repeat split; reflexivity.
Qed.

(** The content attribute with a plain value is read whole. *)
Lemma run_valuePart {A : Type} (a tail : string) (cap : option string)
    (cont : string -> option string -> option A) :
  string_all valueByte a = true ->
  regexp.run valuePart ("content=" ++ DQ ++ a ++ DQ ++ tail) cap cont
  = cont tail (Some a).
Proof.
  intros Ha.
  assert (Hq : string_all (regexp.accepts notQuote) a = true).
  { eapply string_all_impl; [|exact Ha].
    intros c Hc; apply valueByte_facts in Hc; tauto. }
  unfold valuePart; cbn [regexp.Seq regexp.run].
  rewrite run_Literal_app.
  cbn [DQ append].
  change (regexp.accepts quote dquote) with true; cbv iota.
  rewrite star_forced; auto.
  - change (regexp.accepts quote dquote) with true; cbv iota.
    change (a ++ String dquote tail) with (a ++ (String dquote tail)).
    rewrite consumed_append; reflexivity.
  - intros d s Hd.
    destruct d as [[] [] [] [] [] [] [] []]; try discriminate Hd; reflexivity.
Qed.


Lemma matchAt_FindStringSubmatch (r : regexp.Regexp) (s t : string)
    (cap : option string) :
  regexp.matchAt r s = Some (t, cap) ->
  regexp.FindStringSubmatch r s = [regexp.consumed s t; regexp.group cap].
Proof. intros H; destruct s; simpl; rewrite H; reflexivity. Qed.

(** A tag with the marker attribute first and a plain value, at the front
    of the text, is matched by the pattern with the marker first, and
    group 1 is the value. *)
Lemma matchAt_markerFirst (marker key a rest : string) :
  let w := marker ++ "=" in
  let p := w ++ DQ ++ key ++ DQ ++ " content=" ++ DQ in
  string_all (regexp.accepts notGt) p = true ->
  cleanTail (literalClasses w) p = true ->
  string_all valueByte a = true ->
  regexp.matchAt (markerFirst marker key) (metaTag marker key a ++ rest)
  = Some (">" ++ rest, Some a).
Proof.
  intros w p Hp Hclean Ha.
  set (x := a ++ DQ).
  assert (Hx : string_all (regexp.accepts notGt) x = true).
  { unfold x; rewrite string_all_append, andb_true_iff; split; [|reflexivity].
    eapply string_all_impl; [|exact Ha].
    intros c Hc; apply valueByte_facts in Hc; tauto. }
  assert (Hxe : string_all (fun b => negb (byte.eqb b "=")) x = true).
  { unfold x; rewrite string_all_append, andb_true_iff; split; [|reflexivity].
    eapply string_all_impl; [|exact Ha].
    intros c Hc; apply valueByte_facts in Hc; tauto. }
  assert (E : metaTag marker key a ++ rest
              = "<meta" ++ " " ++ p ++ x ++ String ">" rest).
  { unfold metaTag, p, w, x; rewrite !append_assoc; reflexivity. }
  rewrite E; clear E.
  unfold regexp.matchAt, markerFirst; cbn [regexp.Seq regexp.run].
  rewrite run_Literal_app.
  assert (Hw : string_all (regexp.accepts notGt) w = true).
  { unfold p in Hp; rewrite string_all_append in Hp.
    apply andb_true_iff in Hp as [Hw _]; exact Hw. }
  apply (star_lands notGt w " " p x ">" "=" rest).
  - intros s Hs; apply run_markerPart_fail, Hs.
  - cbn [append string_all]; rewrite Hp; reflexivity.
  - exact Hx.
  - reflexivity.
  - eapply string_all_impl; [|exact Hw].
    intros c Hc; cbn in Hc; rewrite orb_false_r in Hc; exact Hc.
  - unfold w; rewrite string_all_append; apply andb_false_r.
  - exact Hxe.
  - exact Hclean.
  - unfold p, w; rewrite !append_assoc, run_markerPart.
    change (" content=" ++ DQ ++ x ++ String ">" rest)
      with (" " ++ ("content=" ++ DQ) ++ x ++ String ">" rest).
    apply (star_lands notGt "content=" " " ("content=" ++ DQ) x ">" "=" rest);
      try reflexivity; try assumption.
    + intros s Hs; apply run_valuePart_fail, Hs.
    + unfold x; rewrite !append_assoc.
      apply (run_valuePart a (">" ++ rest)); exact Ha.
Qed.

Lemma extractMetaContent_first_tag (key a rest : string) :
  In key metaKeys -> string_all valueByte a = true -> a <> "" ->
  extractMetaContent (metaTag "name" key a ++ rest) key = a.
Proof.
  intros Hk Ha Hne.
  assert (H : regexp.matchAt (markerFirst "name" key)
                (metaTag "name" key a ++ rest) = Some (">" ++ rest, Some a)).
  { simpl in Hk.
    repeat (destruct Hk as [<-|Hk];
            [apply matchAt_markerFirst; [reflexivity | reflexivity | exact Ha]|]).
    contradiction. }
  unfold extractMetaContent, extractTag.
  rewrite (matchAt_FindStringSubmatch _ _ _ _ H); cbn [regexp.group].
  apply nonEmpty_true in Hne; rewrite Hne; reflexivity.
Qed.


(** ** Tags that a pattern passes over *)

Lemma markerFirst_needsMeta (marker key : string) :
  needsMeta (markerFirst marker key).
Proof.
  intros s H; unfold regexp.matchAt, markerFirst; cbn [regexp.Seq regexp.run].
  rewrite run_Literal, H; reflexivity.
Qed.

Lemma contentFirst_needsMeta (marker key : string) :
  needsMeta (contentFirst marker key).
Proof.
  intros s H; unfold regexp.matchAt, contentFirst; cbn [regexp.Seq regexp.run].
  rewrite run_Literal, H; reflexivity.
Qed.

Lemma FindStringSubmatch_miss (r : regexp.Regexp) (c : ascii) (s : string) :
  regexp.matchAt r (String c s) = None ->
  regexp.FindStringSubmatch r (String c s) = regexp.FindStringSubmatch r s.
Proof. intros H; cbn [regexp.FindStringSubmatch]; rewrite H; reflexivity. Qed.

(** A pattern that starts with the literal [w], itself starting with
    [<], passes over a text without [<]. *)
Lemma FindStringSubmatch_skip_lt (w : string) (r : regexp.Regexp)
    (x s : string) :
  (forall s, String.prefix (String "<" w) s = false ->
             regexp.matchAt r s = None) ->
  string_all notLtByte x = true ->
  regexp.FindStringSubmatch r (x ++ s) = regexp.FindStringSubmatch r s.
Proof.
  intros Hr; induction x as [|c x IH]; intros Hx; [reflexivity|].
  cbn [string_all] in Hx; apply andb_true_iff in Hx as [Hc Hx].
  cbn [append]; rewrite FindStringSubmatch_miss; [apply IH, Hx|].
  apply Hr; cbn [String.prefix].
  destruct (ascii_dec "<" c) as [<-|_]; [discriminate Hc | reflexivity].
Qed.

(** A pattern that needs [<meta] passes over a text without [<]. *)
Lemma FindStringSubmatch_skip (r : regexp.Regexp) (x s : string) :
  needsMeta r -> string_all notLtByte x = true ->
  regexp.FindStringSubmatch r (x ++ s) = regexp.FindStringSubmatch r s.
Proof. intros Hr; apply (FindStringSubmatch_skip_lt "meta"), Hr. Qed.

Lemma plainByte_facts (c : ascii) :
  plainByte c = true ->
  valueByte c = true /\ notLtByte c = true
  /\ plainByte (byte.toLower c) = true.
Proof.
  destruct c as [[] [] [] [] [] [] [] []]; vm_compute; intros H;
    try discriminate H; repeat split; reflexivity.
Qed.

Lemma plain_value (v : string) :
  string_all plainByte v = true -> string_all valueByte v = true.
Proof.
  apply string_all_impl; intros c Hc; apply plainByte_facts in Hc; tauto.
Qed.

Lemma plain_notLt (v : string) :
  string_all plainByte v = true -> string_all notLtByte v = true.
Proof.
  apply string_all_impl; intros c Hc; apply plainByte_facts in Hc; tauto.
Qed.

(** The text of a tag, written from its first byte on. *)
Lemma metaTag_unfold (m k v rest : string) :
  metaTag m k v ++ rest
  = "<meta" ++ (" " ++ m ++ "=" ++ DQ ++ k ++ DQ ++ " content=" ++ DQ)
    ++ (v ++ DQ) ++ String ">" rest.
Proof. unfold metaTag; rewrite !append_assoc; reflexivity. Qed.

Lemma value_then_quote (v : string) :
  string_all valueByte v = true ->
  string_all (regexp.accepts notGt) (v ++ DQ) = true
  /\ string_all (fun b => negb (byte.eqb b "=")) (v ++ DQ) = true.
Proof.
  intros Hv; rewrite !string_all_append, !andb_true_iff.
  repeat split; try reflexivity;
    (eapply string_all_impl; [|exact Hv]);
    intros c Hc; apply valueByte_facts in Hc; tauto.
Qed.

Lemma notGt_no_gt (w : string) :
  string_all (regexp.accepts notGt) w = true ->
  string_all (fun b => negb (byte.eqb b ">")) w = true.
Proof.
  apply string_all_impl.
  intros c Hc; cbn in Hc; rewrite orb_false_r in Hc; exact Hc.
Qed.

Lemma ends_with_eq (m : string) :
  string_all (fun b => negb (byte.eqb b "=")) (m ++ "=") = false.
Proof. rewrite string_all_append; apply andb_false_r. Qed.

(** A pattern with the marker first does not match at a tag in which its
    marker attribute starts nowhere. *)
Lemma matchAt_markerFirst_miss (m2 k2 m k v rest : string) :
  let u := " " ++ m ++ "=" ++ DQ ++ k ++ DQ ++ " content=" ++ DQ in
  string_all (regexp.accepts notGt) u = true ->
  string_all (regexp.accepts notGt) (m2 ++ "=") = true ->
  cleanRun (markerClasses m2 k2) u = true ->
  string_all valueByte v = true ->
  regexp.matchAt (markerFirst m2 k2) (metaTag m k v ++ rest) = None.
Proof.
  intros u Hu Hw Hclean Hv.
  destruct (value_then_quote v Hv) as [Hx Hxe].
  rewrite metaTag_unfold; fold u.
  unfold regexp.matchAt, markerFirst; cbn [regexp.Seq regexp.run].
  rewrite run_Literal_app.
  apply (star_misses notGt (m2 ++ "=") u (v ++ DQ) ">" "=" rest);
    auto using notGt_no_gt, ends_with_eq.
  - intros s Hs; apply run_markerPart_fail, Hs.
  - apply (retry_clean (markerClasses m2 k2)); [|exact Hclean].
    intros s Hs; apply run_markerPart_seq, Hs.
Qed.

(** A pattern with the content first does not match at a tag that has
    the marker first: after the content attribute the tag ends. *)
Lemma matchAt_contentFirst_miss (m2 k2 m k v rest : string) :
  let u := " " ++ m ++ "=" ++ DQ ++ k ++ DQ ++ " " in
  string_all (regexp.accepts notGt) u = true ->
  string_all (regexp.accepts notGt) (m2 ++ "=") = true ->
  cleanRun (literalClasses "content=") u = true ->
  string_all valueByte v = true ->
  regexp.matchAt (contentFirst m2 k2) (metaTag m k v ++ rest) = None.
Proof.
  intros u Hu Hw Hclean Hv.
  destruct (value_then_quote v Hv) as [Hx Hxe].
  assert (E : metaTag m k v ++ rest
              = "<meta" ++ (u ++ "content=" ++ DQ) ++ (v ++ DQ)
                ++ String ">" rest).
  { unfold metaTag, u; rewrite !append_assoc; reflexivity. }
  rewrite E; clear E.
  unfold regexp.matchAt, contentFirst; cbn [regexp.Seq regexp.run].
  rewrite run_Literal_app.
  assert (Hf : forall (cap : option string)
                      (cont : string -> option string
                              -> option (string * option string)) s,
             matchSeq (literalClasses "content=") s = false ->
             regexp.run valuePart s cap cont = None).
  { intros cap cont s Hs; apply run_valuePart_fail.
    rewrite <- matchSeq_literal; exact Hs. }
  apply (star_misses notGt "content=" (u ++ "content=" ++ DQ) (v ++ DQ)
                     ">" "=" rest); auto.
  - intros s Hs; apply run_valuePart_fail, Hs.
  - rewrite string_all_append, Hu; reflexivity.
  - rewrite retry_app.
    assert (Hp : retry ("content=" ++ DQ) ((v ++ DQ) ++ String ">" rest)
                   (fun s' : string =>
                      regexp.run valuePart s' None
                        (fun s1 cap1 =>
                           regexp.star notGt s1
                             (fun s'0 =>
                                regexp.run (markerPart m2 k2) s'0 cap1
                                  (fun s0 cap0 => Some (s0, cap0)))))
                 = None).
    { change ("content=" ++ DQ) with (String "c" ("ontent=" ++ DQ)).
      cbn [retry].
      rewrite (retry_clean (literalClasses "content=")); auto.
      change (String "c" ("ontent=" ++ DQ) ++ (v ++ DQ) ++ String ">" rest)
        with ("content=" ++ DQ ++ (v ++ DQ) ++ String ">" rest).
      rewrite append_assoc.
      rewrite (run_valuePart v (String ">" rest)) by exact Hv.
      cbn [regexp.star]; change (regexp.accepts notGt ">") with false.
      cbv iota; apply run_markerPart_fail.
      apply (prefix_blocked (m2 ++ "=") "" ">" "=" rest);
        auto using notGt_no_gt, ends_with_eq. }
    rewrite Hp.
    apply (retry_clean (literalClasses "content=")); auto.
Qed.

(** A pattern that does not match at the front of a tag passes over the
    tag. *)
Lemma FindStringSubmatch_skip_tag (r : regexp.Regexp) (m k v rest : string) :
  needsMeta r ->
  regexp.matchAt r (metaTag m k v ++ rest) = None ->
  string_all notLtByte (m ++ k ++ v) = true ->
  regexp.FindStringSubmatch r (metaTag m k v ++ rest)
  = regexp.FindStringSubmatch r rest.
Proof.
  intros Hr Hmiss Hlt.
  rewrite !string_all_append, !andb_true_iff in Hlt.
  destruct Hlt as (Hm & Hk & Hv).
  assert (E : metaTag m k v ++ rest
              = String "<" (("meta " ++ m ++ "=" ++ DQ ++ k ++ DQ
                             ++ " content=" ++ DQ ++ v ++ DQ ++ ">") ++ rest)).
  { unfold metaTag; reflexivity. }
  rewrite E in *; clear E.
  rewrite FindStringSubmatch_miss by exact Hmiss.
  apply FindStringSubmatch_skip; [exact Hr|].
  rewrite !string_all_append, Hm, Hk, Hv; reflexivity.
Qed.

(** ** The title element *)

Lemma extractTag_title (t rest : string) :
  string_all notLtByte t = true ->
  extractTag ("<title>" ++ t ++ "</title>" ++ rest) titlePattern = t.
Proof.
  intros Ht.
  assert (Hn : string_all (regexp.accepts notLt) t = true).
  { eapply string_all_impl; [|exact Ht].
    intros c Hc; cbn; rewrite orb_false_r; exact Hc. }
  assert (H : regexp.matchAt titlePattern ("<title>" ++ t ++ "</title>" ++ rest)
              = Some (rest, Some t)).
  { unfold regexp.matchAt, titlePattern; cbn [regexp.Seq regexp.run].
    change ("<title>" ++ t ++ "</title>" ++ rest)
      with ("<title" ++ String ">" (t ++ String "<" ("/title>" ++ rest))).
    rewrite run_Literal_app.
    cbn [regexp.star]; change (regexp.accepts notGt ">") with false.
    cbv iota.
    change (String ">" (t ++ String "<" ("/title>" ++ rest)))
      with (">" ++ (t ++ String "<" ("/title>" ++ rest))).
    rewrite run_Literal_app.
    rewrite star_forced; auto.
    - change (String "<" ("/title>" ++ rest)) with ("</title>" ++ rest).
      rewrite run_Literal_app, consumed_append; reflexivity.
    - intros d s Hd.
      rewrite run_Literal; cbn [String.prefix].
      destruct (ascii_dec "<" d) as [<-|_]; [discriminate Hd | reflexivity]. }
  unfold extractTag.
  rewrite (matchAt_FindStringSubmatch _ _ _ _ H); reflexivity.
Qed.

(** The pattern of the title element does not find an element written
    in upper case. *)
Lemma extractTag_upper_title (t : string) :
  string_all notLtByte t = true ->
  extractTag ("<TITLE>" ++ t ++ "</TITLE>") titlePattern = "".
Proof.
  intros Ht.
  assert (Hr : forall s, String.prefix "<title" s = false ->
                         regexp.matchAt titlePattern s = None).
  { intros s H; unfold regexp.matchAt, titlePattern.
    cbn [regexp.Seq regexp.run]; rewrite run_Literal, H; reflexivity. }
  unfold extractTag; cbn [append].
  do 7 (rewrite FindStringSubmatch_miss by (apply Hr; reflexivity)).
  rewrite (FindStringSubmatch_skip_lt "title") by assumption.
  do 8 (rewrite FindStringSubmatch_miss by (apply Hr; reflexivity)).
  reflexivity.
Qed.

(** A pattern that needs [<meta] passes over a title element. *)
Lemma FindStringSubmatch_skip_title (r : regexp.Regexp) (t rest : string) :
  needsMeta r -> string_all notLtByte t = true ->
  regexp.FindStringSubmatch r ("<title>" ++ t ++ "</title>" ++ rest)
  = regexp.FindStringSubmatch r rest.
Proof.
  intros Hr Ht.
  cbn [append].
  do 7 (rewrite FindStringSubmatch_miss by (apply Hr; reflexivity)).
  rewrite FindStringSubmatch_skip by assumption.
  do 8 (rewrite FindStringSubmatch_miss by (apply Hr; reflexivity)).
  reflexivity.
Qed.

(** ** Documents made of a title element and meta tags *)

Lemma extractTag_skip_tag (r : regexp.Regexp) (m k v rest : string) :
  needsMeta r ->
  regexp.matchAt r (metaTag m k v ++ rest) = None ->
  string_all notLtByte (m ++ k ++ v) = true ->
  extractTag (metaTag m k v ++ rest) r = extractTag rest r.
Proof.
  intros Hr Hmiss Hlt; unfold extractTag.
  rewrite FindStringSubmatch_skip_tag by assumption; reflexivity.
Qed.

(** The patterns of a key pass over a tag of another marker or key. *)
Lemma extractMetaContent_skip_tag (key m k v rest : string) :
  passesOver key m k = true -> string_all plainByte v = true ->
  extractMetaContent (metaTag m k v ++ rest) key
  = extractMetaContent rest key.
Proof.
  unfold passesOver; intros H Hv.
  repeat (apply andb_true_iff in H as [H ?]).
  pose proof (plain_value v Hv) as Hval.
  assert (Hlt : string_all notLtByte (m ++ k ++ v) = true).
  { rewrite <- append_assoc, string_all_append, (plain_notLt v Hv).
    rewrite andb_true_r; assumption. }
  unfold extractMetaContent.
  rewrite !(extractTag_skip_tag _ m k v rest);
    auto using markerFirst_needsMeta, contentFirst_needsMeta.
  - apply matchAt_contentFirst_miss; auto.
  - apply matchAt_contentFirst_miss; auto.
  - apply matchAt_markerFirst_miss; auto.
  - apply matchAt_markerFirst_miss; auto.
Qed.

(** The patterns of a key pass over a title element. *)
Lemma extractMetaContent_skip_title (key t rest : string) :
  string_all notLtByte t = true ->
  extractMetaContent ("<title>" ++ t ++ "</title>" ++ rest) key
  = extractMetaContent rest key.
Proof.
  intros Ht; unfold extractMetaContent, extractTag.
  rewrite !FindStringSubmatch_skip_title;
    auto using markerFirst_needsMeta, contentFirst_needsMeta.
Qed.

(** A tag with the marker [property] at the front gives the value when
    no tag with the marker [name] is found after it. *)
Lemma extractMetaContent_property_tag (key v rest : string) :
  In key metaKeys -> string_all plainByte v = true -> v <> "" ->
  extractTag rest (markerFirst "name" key) = "" ->
  extractMetaContent (metaTag "property" key v ++ rest) key = v.
Proof.
  intros Hk Hv Hne Hrest.
  pose proof (plain_value v Hv) as Hval.
  pose proof (plain_notLt v Hv) as Hlt.
  assert (H1 : extractTag (metaTag "property" key v ++ rest)
                 (markerFirst "name" key) = "").
  { rewrite extractTag_skip_tag; auto using markerFirst_needsMeta.
    - simpl in Hk.
      repeat (destruct Hk as [<-|Hk];
              [apply matchAt_markerFirst_miss; auto; reflexivity|]).
      contradiction.
    - simpl in Hk.
      repeat (destruct Hk as [<-|Hk];
              [rewrite <- append_assoc, string_all_append, Hlt;
               reflexivity|]).
      contradiction. }
  assert (H2 : regexp.matchAt (markerFirst "property" key)
                 (metaTag "property" key v ++ rest)
               = Some (">" ++ rest, Some v)).
  { simpl in Hk.
    repeat (destruct Hk as [<-|Hk];
            [apply matchAt_markerFirst; [reflexivity | reflexivity | exact Hval]|]).
    contradiction. }
  assert (H3 : extractTag (metaTag "property" key v ++ rest)
                 (markerFirst "property" key) = v).
  { unfold extractTag.
    rewrite (matchAt_FindStringSubmatch _ _ _ _ H2); reflexivity. }
  unfold extractMetaContent; rewrite H1, H3; cbn [nonEmpty].
  apply nonEmpty_true in Hne; rewrite Hne; reflexivity.
Qed.

Lemma ToLower_append (a b : string) :
  strings.ToLower (a ++ b) = strings.ToLower a ++ strings.ToLower b.
Proof. induction a; simpl; congruence. Qed.

Lemma ToLower_metaTag (m k v : string) :
  strings.ToLower m = m -> strings.ToLower k = k ->
  strings.ToLower (metaTag m k v) = metaTag m k (strings.ToLower v).
Proof.
  intros Hm Hk; unfold metaTag.
  rewrite !ToLower_append, Hm, Hk; reflexivity.
Qed.

Lemma ToLower_plain (v : string) :
  string_all plainByte v = true ->
  string_all plainByte (strings.ToLower v) = true.
Proof.
  induction v as [|c v IH]; [reflexivity|].
  cbn [string_all strings.ToLower]; intros H.
  apply andb_true_iff in H as [Hc Hv].
  apply plainByte_facts in Hc as (_ & _ & ->); auto.
Qed.

Lemma toLower_notLt (c : ascii) :
  notLtByte c = true -> notLtByte (byte.toLower c) = true.
Proof.
  destruct c as [[] [] [] [] [] [] [] []]; vm_compute; intros H;
    try discriminate H; reflexivity.
Qed.

Lemma ToLower_notLt (t : string) :
  string_all notLtByte t = true ->
  string_all notLtByte (strings.ToLower t) = true.
Proof.
  induction t as [|c t IH]; [reflexivity|].
  cbn [string_all strings.ToLower]; intros H.
  apply andb_true_iff in H as [Hc Ht].
  rewrite toLower_notLt, IH; auto.
Qed.

Lemma ToLower_nonEmpty (v : string) : v <> "" -> strings.ToLower v <> "".
Proof. destruct v; simpl; congruence. Qed.

(** Both description tags: the social one is returned. *)
Lemma description_both (g s : string) (result : LinkPreviewResponse) :
  string_all plainByte g = true -> string_all plainByte s = true ->
  s <> "" ->
  Description
    (extractMetadata (metaTag "name" "description" g
                      ++ metaTag "property" "og:description" s) result)
  = strings.TrimSpace (strings.ToLower s).
Proof.
  intros Hg Hs Hne.
  rewrite extractMetadata_Description; cbv zeta.
  rewrite ToLower_append, !ToLower_metaTag by reflexivity.
  assert (H : extractMetaContent
                (metaTag "name" "description" (strings.ToLower g)
                 ++ metaTag "property" "og:description" (strings.ToLower s))
                "og:description" = strings.ToLower s).
  { rewrite extractMetaContent_skip_tag;
      [|reflexivity | apply ToLower_plain, Hg].
    rewrite <- (append_nil_r (metaTag "property" _ _)).
    apply extractMetaContent_property_tag;
      auto using ToLower_plain, ToLower_nonEmpty.
    simpl; auto. }
  rewrite H.
  apply ToLower_nonEmpty, nonEmpty_true in Hne; rewrite Hne; reflexivity.
Qed.

(** The generic description tag alone: it is returned. *)
Lemma description_generic (g : string) (result : LinkPreviewResponse) :
  string_all plainByte g = true -> g <> "" ->
  Description (extractMetadata (metaTag "name" "description" g) result)
  = strings.TrimSpace (strings.ToLower g).
Proof.
  intros Hg Hne.
  rewrite extractMetadata_Description; cbv zeta.
  rewrite ToLower_metaTag by reflexivity.
  rewrite <- (append_nil_r (metaTag "name" _ _)).
  rewrite extractMetaContent_skip_tag;
    [|reflexivity | apply ToLower_plain, Hg].
  change (nonEmpty (extractMetaContent "" "og:description")) with false.
  cbv iota.
  rewrite extractMetaContent_first_tag;
    auto using ToLower_nonEmpty, plain_value, ToLower_plain.
  - apply ToLower_nonEmpty, nonEmpty_true in Hne; rewrite Hne; reflexivity.
  - simpl; auto.
Qed.

Lemma ToLower_title (t rest : string) :
  strings.ToLower ("<title>" ++ t ++ "</title>" ++ rest)
  = "<title>" ++ strings.ToLower t ++ "</title>" ++ strings.ToLower rest.
Proof. rewrite !ToLower_append; reflexivity. Qed.

(** A title element and an og:title tag: the social one is returned. *)
Lemma title_both (t s : string) (result : LinkPreviewResponse) :
  string_all notLtByte t = true -> string_all plainByte s = true ->
  s <> "" ->
  Title
    (extractMetadata ("<title>" ++ t ++ "</title>"
                      ++ metaTag "property" "og:title" s) result)
  = strings.TrimSpace (strings.ToLower s).
Proof.
  intros Ht Hs Hne.
  rewrite extractMetadata_Title; cbv zeta.
  rewrite ToLower_title, ToLower_metaTag by reflexivity.
  rewrite extractMetaContent_skip_title by (apply ToLower_notLt, Ht).
  rewrite <- (append_nil_r (metaTag "property" _ _)).
  rewrite extractMetaContent_property_tag;
    auto using ToLower_plain, ToLower_nonEmpty.
  - apply ToLower_nonEmpty, nonEmpty_true in Hne; rewrite Hne; reflexivity.
  - simpl; auto.
Qed.

(** The title element alone: its text is returned, in its own case. *)
Lemma title_generic (t : string) (result : LinkPreviewResponse) :
  string_all notLtByte t = true -> t <> "" ->
  Title (extractMetadata ("<title>" ++ t ++ "</title>") result)
  = strings.TrimSpace t.
Proof.
  intros Ht Hne.
  rewrite extractMetadata_Title; cbv zeta.
  replace ("<title>" ++ t ++ "</title>")
    with ("<title>" ++ t ++ "</title>" ++ "") by reflexivity.
  rewrite ToLower_title.
  rewrite extractMetaContent_skip_title by (apply ToLower_notLt, Ht).
  change (nonEmpty (extractMetaContent (strings.ToLower "") "og:title"))
    with false.
  cbv iota.
  rewrite extractTag_title by exact Ht.
  apply nonEmpty_true in Hne; rewrite Hne; reflexivity.
Qed.

(** The title element in upper case: no title is found. *)
Lemma title_upper (t : string) (result : LinkPreviewResponse) :
  string_all notLtByte t = true ->
  Title (extractMetadata ("<TITLE>" ++ t ++ "</TITLE>") result)
  = Title result.
Proof.
  intros Ht.
  rewrite extractMetadata_Title; cbv zeta.
  rewrite (extractTag_upper_title t Ht).
  replace (strings.ToLower ("<TITLE>" ++ t ++ "</TITLE>"))
    with ("<title>" ++ strings.ToLower t ++ "</title>" ++ "")
    by (rewrite !ToLower_append; reflexivity).
  rewrite extractMetaContent_skip_title by (apply ToLower_notLt, Ht).
  reflexivity.
Qed.

(** ** The claims about the extractor *)

Lemma titlePattern_needsTitle (s : string) :
  String.prefix "<title" s = false -> regexp.matchAt titlePattern s = None.
Proof.
  intros H; unfold regexp.matchAt, titlePattern; cbn [regexp.Seq regexp.run].
  rewrite run_Literal, H; reflexivity.
Qed.

(** Text without [<] in front of a document changes nothing for the
    patterns. *)
Lemma extractMetaContent_skip_text (key x rest : string) :
  string_all notLtByte x = true ->
  extractMetaContent (x ++ rest) key = extractMetaContent rest key.
Proof.
  intros Hx; unfold extractMetaContent, extractTag.
  rewrite !(FindStringSubmatch_skip _ x rest);
    auto using markerFirst_needsMeta, contentFirst_needsMeta.
Qed.

Lemma extractTag_skip_text (x rest : string) :
  string_all notLtByte x = true ->
  extractTag (x ++ rest) titlePattern = extractTag rest titlePattern.
Proof.
  intros Hx; unfold extractTag.
  rewrite (FindStringSubmatch_skip_lt "title" titlePattern x rest);
    auto using titlePattern_needsTitle.
Qed.

Lemma extractFields_Title (html lower : string) (r : LinkPreviewResponse) :
  Title (extractFields html lower r)
  = let title := extractTag html titlePattern in
    let ogTitle := extractMetaContent lower "og:title" in
    if nonEmpty ogTitle then strings.TrimSpace ogTitle
    else if nonEmpty title then strings.TrimSpace title
    else Title r.
Proof. unfold extractFields, assignIf; split_guards; reflexivity. Qed.

Lemma extractFields_Description (html lower : string)
    (r : LinkPreviewResponse) :
  Description (extractFields html lower r)
  = let desc := extractMetaContent lower "description" in
    let ogDesc := extractMetaContent lower "og:description" in
    if nonEmpty ogDesc then strings.TrimSpace ogDesc
    else if nonEmpty desc then strings.TrimSpace desc
    else Description r.
Proof. unfold extractFields, assignIf; split_guards; reflexivity. Qed.

(** A title element and, after it, an og:title tag: the value of the
    tag is the title, whatever stands before, between and after them,
    as long as no tag with [name="og:title"] follows. *)
Lemma title_social (pre t mid s post : string) (result : LinkPreviewResponse) :
  string_all notLtByte pre = true -> string_all notLtByte t = true ->
  string_all notLtByte mid = true ->
  string_all plainByte s = true -> string_all notUpper s = true -> s <> "" ->
  extractTag (strings.ToLower post) (markerFirst "name" "og:title") = "" ->
  Title (extractMetadata
           (pre ++ "<title>" ++ t ++ "</title>" ++ mid
            ++ metaTag "property" "og:title" s ++ post) result)
  = strings.TrimSpace s.
Proof.
  intros Hpre Ht Hmid Hs Hlow Hne Hpost.
  rewrite extractMetadata_Title; cbv zeta.
  rewrite ToLower_append, ToLower_title, !ToLower_append,
    ToLower_metaTag by reflexivity.
  rewrite (notUpper_ToLower s Hlow).
  rewrite extractMetaContent_skip_text by (apply ToLower_notLt, Hpre).
  rewrite extractMetaContent_skip_title by (apply ToLower_notLt, Ht).
  rewrite extractMetaContent_skip_text by (apply ToLower_notLt, Hmid).
  rewrite extractMetaContent_property_tag;
    [|cbn; tauto | exact Hs | exact Hne | exact Hpost].
  rewrite (proj2 (nonEmpty_true s) Hne); reflexivity.
Qed.

(** A title element and no og:title after it: the text of the element
    is the title, in the letter case of the document. *)
Lemma title_alone (pre t post : string) (result : LinkPreviewResponse) :
  string_all notLtByte pre = true -> string_all notLtByte t = true ->
  t <> "" ->
  extractMetaContent (strings.ToLower post) "og:title" = "" ->
  Title (extractMetadata (pre ++ "<title>" ++ t ++ "</title>" ++ post) result)
  = strings.TrimSpace t.
Proof.
  intros Hpre Ht Hne Hpost.
  rewrite extractMetadata_Title; cbv zeta.
  rewrite ToLower_append, ToLower_title.
  rewrite extractMetaContent_skip_text by (apply ToLower_notLt, Hpre).
  rewrite extractMetaContent_skip_title by (apply ToLower_notLt, Ht).
  rewrite Hpost; cbn [nonEmpty String.eqb negb].
  rewrite (extractTag_skip_text pre _ Hpre), (extractTag_title t post Ht).
  rewrite (proj2 (nonEmpty_true t) Hne); reflexivity.
Qed.

(** A generic description tag and, after it, an og:description tag. *)
Lemma description_social (pre g mid s post : string)
    (result : LinkPreviewResponse) :
  string_all notLtByte pre = true -> string_all plainByte g = true ->
  string_all notLtByte mid = true ->
  string_all plainByte s = true -> string_all notUpper s = true -> s <> "" ->
  extractTag (strings.ToLower post) (markerFirst "name" "og:description") = "" ->
  Description
    (extractMetadata
       (pre ++ metaTag "name" "description" g ++ mid
        ++ metaTag "property" "og:description" s ++ post) result)
  = strings.TrimSpace s.
Proof.
  intros Hpre Hg Hmid Hs Hlow Hne Hpost.
  rewrite extractMetadata_Description; cbv zeta.
  rewrite !ToLower_append, !ToLower_metaTag by reflexivity.
  rewrite (notUpper_ToLower s Hlow).
  rewrite (extractMetaContent_skip_text "og:description")
    by (apply ToLower_notLt, Hpre).
  rewrite (extractMetaContent_skip_tag "og:description")
    by (try reflexivity; apply ToLower_plain, Hg).
  rewrite (extractMetaContent_skip_text "og:description")
    by (apply ToLower_notLt, Hmid).
  rewrite extractMetaContent_property_tag;
    [|cbn; tauto | exact Hs | exact Hne | exact Hpost].
  rewrite (proj2 (nonEmpty_true s) Hne); reflexivity.
Qed.

(** A generic description tag and no og:description after it. *)
Lemma description_alone (pre g post : string) (result : LinkPreviewResponse) :
  string_all notLtByte pre = true ->
  string_all plainByte g = true -> string_all notUpper g = true -> g <> "" ->
  extractMetaContent (strings.ToLower post) "og:description" = "" ->
  Description
    (extractMetadata (pre ++ metaTag "name" "description" g ++ post) result)
  = strings.TrimSpace g.
Proof.
  intros Hpre Hg Hlow Hne Hpost.
  rewrite extractMetadata_Description; cbv zeta.
  rewrite !ToLower_append, !ToLower_metaTag by reflexivity.
  rewrite (notUpper_ToLower g Hlow).
  rewrite (extractMetaContent_skip_text "og:description"),
    (extractMetaContent_skip_text "description")
    by (apply ToLower_notLt, Hpre).
  rewrite (extractMetaContent_skip_tag "og:description")
    by (try reflexivity; exact Hg).
  rewrite Hpost; cbn [nonEmpty String.eqb negb].
  rewrite extractMetaContent_first_tag;
    [|cbn; tauto | apply plain_value, Hg | exact Hne].
  rewrite (proj2 (nonEmpty_true g) Hne); reflexivity.
Qed.

(** C1.  Title and description are resolved with the social-metadata
    value taking precedence, over the values that the patterns capture.
    For every document and every lowered copy of it: a non-empty
    captured og:title is the title, otherwise a non-empty captured title
    element is; a non-empty captured og:description is the description,
    otherwise a non-empty captured generic description is.  On ASCII
    documents with a title element (or a generic description tag) and an
    Open Graph tag after it, whatever text without [<] stands before and
    between them: the Open Graph value, trimmed, is returned when it is
    not empty, has no quote character, [>], [=], [<] or upper-case
    letter, and no tag naming the same key with [name=] follows; with no
    Open Graph value for the field after the title element (or generic
    tag), its own value, trimmed, is returned. *)
Theorem title_description_precedence
    (htmlContent lowerHTML : string) (result : LinkPreviewResponse) :
  let title := extractTag htmlContent titlePattern in
  let ogTitle := extractMetaContent lowerHTML "og:title" in
  let desc := extractMetaContent lowerHTML "description" in
  let ogDesc := extractMetaContent lowerHTML "og:description" in
  let after := extractFields htmlContent lowerHTML result in
  Title after
  = (if nonEmpty ogTitle then strings.TrimSpace ogTitle
     else if nonEmpty title then strings.TrimSpace title
     else Title result)
  /\ Description after
     = (if nonEmpty ogDesc then strings.TrimSpace ogDesc
        else if nonEmpty desc then strings.TrimSpace desc
        else Description result)
  /\ (forall pre generic mid social post : string,
         let document :=
           pre ++ metaTag "name" "description" generic ++ mid
           ++ metaTag "property" "og:description" social ++ post in
         asciiText document = true ->
         string_all notLtByte pre = true ->
         string_all plainByte generic = true ->
         string_all notLtByte mid = true ->
         string_all plainByte social = true ->
         string_all notUpper social = true -> social <> "" ->
         extractTag (strings.ToLower post)
                    (markerFirst "name" "og:description") = "" ->
         Description (extractMetadata document result)
         = strings.TrimSpace social)
  /\ (forall pre generic post : string,
         let document := pre ++ metaTag "name" "description" generic ++ post in
         asciiText document = true ->
         string_all notLtByte pre = true ->
         string_all plainByte generic = true ->
         string_all notUpper generic = true -> generic <> "" ->
         extractMetaContent (strings.ToLower post) "og:description" = "" ->
         Description (extractMetadata document result)
         = strings.TrimSpace generic)
  /\ (forall pre text mid social post : string,
         let document :=
           pre ++ "<title>" ++ text ++ "</title>" ++ mid
           ++ metaTag "property" "og:title" social ++ post in
         asciiText document = true ->
         string_all notLtByte pre = true ->
         string_all notLtByte text = true ->
         string_all notLtByte mid = true ->
         string_all plainByte social = true ->
         string_all notUpper social = true -> social <> "" ->
         extractTag (strings.ToLower post) (markerFirst "name" "og:title") = "" ->
         Title (extractMetadata document result) = strings.TrimSpace social)
  /\ (forall pre text post : string,
         let document := pre ++ "<title>" ++ text ++ "</title>" ++ post in
         asciiText document = true ->
         string_all notLtByte pre = true ->
         string_all notLtByte text = true -> text <> "" ->
         extractMetaContent (strings.ToLower post) "og:title" = "" ->
         Title (extractMetadata document result) = strings.TrimSpace text).
Proof.
  cbv zeta.
  rewrite extractFields_Title, extractFields_Description.
  split; [reflexivity|]; split; [reflexivity|].
  split; [intros; apply description_social; assumption|].
  split; [intros; apply description_alone; assumption|].
  split; [intros; apply title_social; assumption|].
  intros; apply title_alone; assumption.
Qed.

Lemma title_description_precedence_witness :
  Description
    (extractMetadata
       ("Preview: "
        ++ metaTag "name" "description" "A generic text" ++ " "
        ++ metaTag "property" "og:description" "a social text"
        ++ "<body>") zeroResponse)
  = "a social text"
  /\ Description
       (extractMetadata
          ("" ++ metaTag "name" "description" "a generic text" ++ "<body>")
          zeroResponse)
     = "a generic text"
  /\ Title
       (extractMetadata
          ("" ++ "<title>" ++ "Example Domain" ++ "</title>" ++ " "
           ++ metaTag "property" "og:title" "example" ++ "") zeroResponse)
     = "example"
  /\ Title
       (extractMetadata
          ("" ++ "<title>" ++ "Example Domain" ++ "</title>" ++ "<body>")
          zeroResponse)
     = "Example Domain".
Proof.
  destruct (title_description_precedence "" "" zeroResponse)
    as (_ & _ & Hboth & Hgeneric & Htboth & Htitle).
  split; [|split; [|split]].
  - rewrite Hboth; [reflexivity | reflexivity | reflexivity | reflexivity
                    | reflexivity | reflexivity | reflexivity | discriminate
                    | reflexivity].
  - rewrite Hgeneric; [reflexivity | reflexivity | reflexivity | reflexivity
                       | reflexivity | discriminate | reflexivity].
  - rewrite Htboth; [reflexivity | reflexivity | reflexivity | reflexivity
                     | reflexivity | reflexivity | reflexivity | discriminate
                     | reflexivity].
  - rewrite Htitle; [reflexivity | reflexivity | reflexivity | reflexivity
                     | discriminate | reflexivity].
Defined.

(** The claim as it was written fails on the values: an Open Graph value
    that begins with a quote character is captured as empty and does not
    override; a value is cut at its first quote character of either
    kind; upper-case letters come back in lower case. *)
Lemma quoted_value_not_returned :
  Description
    (extractMetadata
       (metaTag "name" "description" "generic"
        ++ metaTag "property" "og:description" "'Tis the season")
       zeroResponse)
  = "generic"
  /\ Title
       (extractMetadata
          ("<title>Site</title>"
           ++ metaTag "property" "og:title" "'Tis the season") zeroResponse)
     = "Site"
  /\ Description
       (extractMetadata (metaTag "name" "description" "It's social")
                        zeroResponse)
     = "it"
  /\ Description
       (extractMetadata (metaTag "name" "description" "A Generic Text")
                        zeroResponse)
     = "a generic text"
  /\ "it" <> "It's social" /\ "a generic text" <> "A Generic Text"
  /\ "generic" <> "'Tis the season".
Proof.
  repeat split; try reflexivity; discriminate.
Qed.

(** Within one pattern the leftmost match decides: when the pattern
    matches at [s] and nowhere in the text before [s], the match at [s]
    is the one reported, whatever else [s] holds. *)
Lemma extractTag_leftmost (pattern : regexp.Regexp)
    (before s t : string) (cap : option string) :
  (forall p1 p2, before = p1 ++ p2 -> p2 <> "" ->
                 regexp.matchAt pattern (p2 ++ s) = None) ->
  regexp.matchAt pattern s = Some (t, cap) ->
  extractTag (before ++ s) pattern = regexp.group cap.
Proof.
  intros Hnone Hs; unfold extractTag.
  induction before as [|c b IH].
  - cbn [append]; rewrite (matchAt_FindStringSubmatch _ _ _ _ Hs).
    reflexivity.
  - cbn [append]; rewrite FindStringSubmatch_miss.
    + apply IH; intros p1 p2 E Hp2.
      apply (Hnone (String c p1) p2); [rewrite E; reflexivity | exact Hp2].
    + apply (Hnone "" (String c b)); [reflexivity | discriminate].
Qed.

(** C2, as the code has it.  The four patterns are tried in a fixed
    order, marker [name] before content, marker [property] before
    content, content before marker [name], content before marker
    [property], each on the whole document, and the first one whose
    leftmost match has a non-empty group gives the value.  Within one
    pattern the first match in the document is the one reported.  So a
    tag of the first form at the front of the document wins over
    everything after it: for each key of the extractor and each
    non-empty value without quote, [>] and [=], the value of that tag is
    returned; in particular the first of two description tags of this
    form wins. *)
Theorem first_match_per_pattern (html metaName : string) :
  extractMetaContent html metaName
  = (let content1 := extractTag html (markerFirst "name" metaName) in
     let content2 := extractTag html (markerFirst "property" metaName) in
     let content3 := extractTag html (contentFirst "name" metaName) in
     let content4 := extractTag html (contentFirst "property" metaName) in
     if nonEmpty content1 then content1
     else if nonEmpty content2 then content2
     else if nonEmpty content3 then content3
     else content4)
  /\ (forall (pattern : regexp.Regexp) (before s t : string)
             (cap : option string),
         (forall p1 p2, before = p1 ++ p2 -> p2 <> "" ->
                        regexp.matchAt pattern (p2 ++ s) = None) ->
         regexp.matchAt pattern s = Some (t, cap) ->
         extractTag (before ++ s) pattern = regexp.group cap)
  /\ (forall key value rest : string,
         In key metaKeys -> string_all valueByte value = true ->
         value <> "" ->
         extractMetaContent (metaTag "name" key value ++ rest) key = value)
  /\ Description
       (extractMetadata
          (metaTag "name" "description" "first"
           ++ metaTag "name" "description" "second") zeroResponse)
     = "first".
Proof.
  split; [reflexivity|]; split; [|split].
  - apply extractTag_leftmost.
  - intros key value rest; apply extractMetaContent_first_tag.
  - vm_compute; reflexivity.
Qed.

Lemma first_match_per_pattern_witness :
  extractMetaContent
    (metaTag "name" "og:image" "/logo.png"
     ++ metaTag "property" "og:image" "/other.png") "og:image"
  = "/logo.png".
Proof.
  apply (proj1 (proj2 (proj2 (first_match_per_pattern "" "")))).
  - simpl; auto.
  - vm_compute; reflexivity.
  - discriminate.
Defined.

(** C2 as stated fails: a description tag with the marker [property]
    that comes first loses to a later one with the marker [name], and a
    tag with the content before the marker loses to a later one with the
    marker first. *)
Lemma later_tag_wins :
  let across :=
    extractMetadata
      "<meta property='description' content='first'><meta name='description' content='second'>"
      zeroResponse in
  let within :=
    extractMetadata
      "<meta content='first' name='description'><meta name='description' content='second'>"
      zeroResponse in
  Description across = "second" /\ Description across <> "first"
  /\ Description within = "second" /\ Description within <> "first".
Proof. repeat split; vm_compute; try reflexivity; discriminate. Qed.


(** C3.  The title element is matched on the document as it was
    received, with a pattern in lower case: for every text, a title
    element written in upper case is not found, while the same element
    in lower case gives the text; the meta tags of every field are
    matched without regard to case, in both attribute orders and with
    both quote characters. *)
Theorem title_element_case_sensitive (text : string) :
  string_all notLtByte text = true -> text <> "" ->
  Title (extractMetadata ("<TITLE>" ++ text ++ "</TITLE>") zeroResponse) = ""
  /\ Title (extractMetadata ("<title>" ++ text ++ "</title>") zeroResponse)
     = strings.TrimSpace text
  /\ Description
       (extractMetadata "<META NAME='description' CONTENT='a page'>"
                        zeroResponse) = "a page"
  /\ Description
       (extractMetadata ("<meta content=" ++ DQ ++ "a page" ++ DQ
                         ++ " Name=" ++ DQ ++ "Description" ++ DQ ++ ">")
                        zeroResponse) = "a page".
Proof.
  intros Ht Hne; split; [|split; [|split]].
  - apply (title_upper text zeroResponse Ht).
  - apply title_generic; assumption.
  - vm_compute; reflexivity.
  - vm_compute; reflexivity.
Qed.

Lemma title_element_case_sensitive_witness :
  Title (extractMetadata ("<TITLE>" ++ "Example" ++ "</TITLE>") zeroResponse)
  = ""
  /\ Title (extractMetadata ("<title>" ++ "Example" ++ "</title>")
                            zeroResponse)
     = "Example".
Proof.
  destruct (title_element_case_sensitive "Example") as (Hu & Hl & _);
    [reflexivity | discriminate |].
  split; [exact Hu | rewrite Hl; reflexivity].
Defined.

Lemma extractFields_Image (html lower : string) (r : LinkPreviewResponse) :
  Image (extractFields html lower r)
  = let ogImage := extractMetaContent lower "og:image" in
    if nonEmpty ogImage then strings.TrimSpace ogImage else Image r.
Proof. unfold extractFields, assignIf; split_guards; reflexivity. Qed.

Lemma extractFields_SiteName (html lower : string) (r : LinkPreviewResponse) :
  SiteName (extractFields html lower r)
  = let siteName := extractMetaContent lower "og:site_name" in
    if nonEmpty siteName then strings.TrimSpace siteName else SiteName r.
Proof. unfold extractFields, assignIf; split_guards; reflexivity. Qed.

(** What [extractMetaContent] returns, trimmed, is taken from the text
    it was given. *)
Lemma extractMetaContent_takenFrom (text key : string) :
  takenFrom text (strings.TrimSpace (extractMetaContent text key)).
Proof.
  exists (extractMetaContent text key); split;
    [apply extractMetaContent_infix | reflexivity].
Qed.

(** A value taken from a text has only bytes of that text. *)
Lemma takenFrom_all (p : ascii -> bool) (text value : string) :
  takenFrom text value -> string_all p text = true ->
  string_all p value = true.
Proof.
  intros (piece & Hpiece & ->) Hall.
  eapply string_all_infix; [|exact Hall].
  eapply infix_trans; [apply TrimSpace_infix | exact Hpiece].
Qed.

(** C7.  Every value taken from a meta tag is cut out of the lowered
    copy of the document, whatever the document and whatever the copy
    holds: it has no upper-case letter when the copy has none; a title
    that comes from the title element is cut out of the document as
    received.  On an ASCII document the values from meta tags are left
    unchanged by [strings.ToLower].  The example shows both on one
    document. *)
Theorem meta_values_lowercased
    (htmlContent lowerHTML : string) (result : LinkPreviewResponse) :
  let after := extractFields htmlContent lowerHTML result in
  let extracted := extractMetadata htmlContent result in
  let lowered := strings.ToLower htmlContent in
  (extractMetaContent lowerHTML "og:title" <> "" ->
   takenFrom lowerHTML (Title after))
  /\ (extractMetaContent lowerHTML "description" <> ""
      \/ extractMetaContent lowerHTML "og:description" <> "" ->
      takenFrom lowerHTML (Description after))
  /\ (extractMetaContent lowerHTML "og:image" <> "" ->
      takenFrom lowerHTML (Image after))
  /\ (extractMetaContent lowerHTML "og:site_name" <> "" ->
      takenFrom lowerHTML (SiteName after))
  /\ (forall value : string,
         takenFrom lowerHTML value ->
         string_all notUpper lowerHTML = true ->
         string_all notUpper value = true)
  /\ (extractMetaContent lowerHTML "og:title" = "" ->
      extractTag htmlContent titlePattern <> "" ->
      Title after = strings.TrimSpace (extractTag htmlContent titlePattern)
      /\ takenFrom htmlContent (Title after))
  /\ (asciiText htmlContent = true ->
      (extractMetaContent lowered "og:title" <> "" ->
       strings.ToLower (Title extracted) = Title extracted)
      /\ (extractMetaContent lowered "description" <> ""
          \/ extractMetaContent lowered "og:description" <> "" ->
          strings.ToLower (Description extracted) = Description extracted)
      /\ (extractMetaContent lowered "og:image" <> "" ->
          strings.ToLower (Image extracted) = Image extracted)
      /\ (extractMetaContent lowered "og:site_name" <> "" ->
          strings.ToLower (SiteName extracted) = SiteName extracted))
  /\ extractMetadata
       "<title>Example Domain</title><meta name='description' content='Hello World'><meta property='og:image' content='https://Example.com/Logo.PNG'><meta property='og:site_name' content='Example Inc'>"
       zeroResponse
     = mkPreview "" "Example Domain" "hello world"
                 "https://example.com/logo.png" "example inc" "".
Proof.
  cbv zeta.
  rewrite extractFields_Title, extractFields_Description,
    extractFields_Image, extractFields_SiteName.
  rewrite extractMetadata_Title, extractMetadata_Description,
    extractMetadata_Image, extractMetadata_SiteName.
  cbv zeta.
  split; [|split; [|split; [|split; [|split; [|split; [|split]]]]]].
  - intros H; apply nonEmpty_true in H; rewrite H.
    apply extractMetaContent_takenFrom.
  - intros H.
    destruct (nonEmpty (extractMetaContent _ "og:description")) eqn:E1.
    + apply extractMetaContent_takenFrom.
    + apply nonEmpty_false in E1.
      destruct H as [H|H]; [|congruence].
      apply nonEmpty_true in H; rewrite H.
      apply extractMetaContent_takenFrom.
  - intros H; apply nonEmpty_true in H; rewrite H.
    apply extractMetaContent_takenFrom.
  - intros H; apply nonEmpty_true in H; rewrite H.
    apply extractMetaContent_takenFrom.
  - intros value; apply takenFrom_all.
  - intros H H0; apply nonEmpty_false in H; apply nonEmpty_true in H0.
    rewrite H, H0; split; [reflexivity|].
    exists (extractTag htmlContent titlePattern); split;
      [apply extractTag_infix | reflexivity].
  - intros _; repeat split.
    + intros H; apply nonEmpty_true in H; rewrite H.
      eapply lowered_piece, extractMetaContent_infix.
    + intros H.
      destruct (nonEmpty (extractMetaContent _ "og:description")) eqn:E1.
      * eapply lowered_piece, extractMetaContent_infix.
      * apply nonEmpty_false in E1.
        destruct H as [H|H]; [|congruence].
        apply nonEmpty_true in H; rewrite H.
        eapply lowered_piece, extractMetaContent_infix.
    + intros H; apply nonEmpty_true in H; rewrite H.
      eapply lowered_piece, extractMetaContent_infix.
    + intros H; apply nonEmpty_true in H; rewrite H.
      eapply lowered_piece, extractMetaContent_infix.
  - reflexivity.
Qed.

Lemma meta_values_lowercased_witness :
  let after :=
    extractMetadata
      "<title>Example Domain</title><meta name='description' content='Hello World'>"
      zeroResponse in
  strings.ToLower (Description after) = Description after
  /\ Description after = "hello world"
  /\ Title after = "Example Domain".
Proof.
  pose proof (meta_values_lowercased
    "<title>Example Domain</title><meta name='description' content='Hello World'>"
    "<title>example domain</title><meta name='description' content='hello world'>"
    zeroResponse) as (_ & _ & _ & _ & _ & Ht & Hascii & _).
  cbv zeta in *.
  split; [|split].
  - apply (proj1 (proj2 (Hascii eq_refl))); left; vm_compute; discriminate.
  - reflexivity.
  - destruct Ht as [Ht _]; [vm_compute; reflexivity | vm_compute; discriminate|].
    exact Ht.
Defined.

(** ** [FetchLinkPreview] *)

(** C10.  A result with an error message carries no metadata: every path
    that sets the error returns before the extraction, and the extraction
    does not touch the error. *)
Theorem error_excludes_metadata (client : http.Client) (targetURL : string) :
  let result := fst (FetchLinkPreview client targetURL) in
  Error result <> "" ->
  Title result = "" /\ Description result = "" /\ Image result = ""
  /\ SiteName result = "".
Proof.
  unfold FetchLinkPreview.
  destruct (url.Parse targetURL) as [parsedURL|err]; [|simpl; auto].
  destruct (String.eqb (url.Scheme parsedURL) "");
    (destruct (http.NewRequestWithContext _) as [req|err]; [|simpl; auto]);
    (destruct (client req) as [resp|err]; [|simpl; auto]);
    (destruct (negb _); [simpl; auto|]);
    (destruct (io.ReadAll _) as [body [err|]]; [simpl; auto|]);
    simpl; rewrite extractMetadata_Error; simpl; congruence.
Qed.

Lemma error_excludes_metadata_witness :
  let result := fst (FetchLinkPreview offline "https://example.com") in
  Title result = "" /\ Description result = "" /\ Image result = ""
  /\ SiteName result = "".
Proof.
  apply (error_excludes_metadata offline "https://example.com").
  vm_compute; discriminate.
Defined.

(** C5, as the code has it.  An address that [url.Parse] rejects gives at
    once a result with the address as sent, the message
    [Invalid URL format: ...] and no metadata, and the client is not
    called; an address with a space in its host is one.  The text
    [not a url] is accepted by [url.Parse] as a relative path: it is
    written out as [https://not%20a%20url], the request for it cannot be
    built, and the result carries [Failed to create request: ...], again
    without metadata and without a call of the client. *)
Theorem invalid_url_result :
  (forall (client : http.Client) (targetURL err : string),
      url.Parse targetURL = Fail err ->
      FetchLinkPreview client targetURL
      = (mkPreview targetURL "" "" "" "" ("Invalid URL format: " ++ err), []))
  /\ (forall client : http.Client,
         FetchLinkPreview client "http://a b.com/"
         = (mkPreview "http://a b.com/" "" "" "" ""
              ("Invalid URL format: parse " ++ DQ ++ "http://a b.com/" ++ DQ
               ++ ": invalid character " ++ DQ ++ " " ++ DQ
               ++ " in host name"), []))
  /\ (forall client : http.Client,
         FetchLinkPreview client "not a url"
         = (mkPreview "https://not%20a%20url" "" "" "" ""
              ("Failed to create request: parse " ++ DQ
               ++ "https://not%20a%20url" ++ DQ ++ ": invalid URL escape "
               ++ DQ ++ "%20" ++ DQ), [])).
Proof.
  split; [|split].
  - intros client targetURL err H.
    unfold FetchLinkPreview; rewrite H; reflexivity.
  - intros client; vm_compute; reflexivity.
  - intros client; vm_compute; reflexivity.
Qed.

Lemma invalid_url_result_witness :
  FetchLinkPreview offline "%"
  = (mkPreview "%" "" "" "" ""
       ("Invalid URL format: parse " ++ DQ ++ "%" ++ DQ
        ++ ": invalid URL escape " ++ DQ ++ "%" ++ DQ), []).
Proof.
  apply (proj1 invalid_url_result offline "%").
  vm_compute; reflexivity.
Defined.

(** C5 as stated fails on its own example: [not a url] is parsed, the
    address echoed is not the one sent, and the message is not the one of
    an address that cannot be parsed. *)
Lemma not_a_url_is_parsed :
  let result := fst (FetchLinkPreview offline "not a url") in
  (exists parsedURL, url.Parse "not a url" = Ok parsedURL)
  /\ URL result <> "not a url"
  /\ strings.HasPrefix (Error result) "Invalid URL format: " = false.
Proof.
  split; [eexists; vm_compute; reflexivity|].
  split; vm_compute; [discriminate | reflexivity].
Qed.

(** C6.  A remote 404, whatever its reason phrase and body.
    [resp.Status] is the status line from the code on, so the message
    names the code twice, [HTTP error: 404 404 Not Found] for the usual
    reason phrase, and is never [HTTP error: 404 Not Found]; the metadata
    is empty. *)
Theorem http_404_message (reason : string) (body : io.Reader) :
  let run := FetchLinkPreview (answering 404 reason body) "https://example.com" in
  run = (mkPreview "https://example.com" "" "" "" ""
           ("HTTP error: 404 404 " ++ reason), ["https://example.com"])
  /\ Error (fst run) <> "HTTP error: 404 Not Found"
  /\ FetchLinkPreview (answering 404 "Not Found" body) "https://example.com"
     = (mkPreview "https://example.com" "" "" "" ""
          "HTTP error: 404 404 Not Found", ["https://example.com"]).
Proof.
  cbv zeta.
  assert (E : FetchLinkPreview (answering 404 reason body) "https://example.com"
              = (mkPreview "https://example.com" "" "" "" ""
                   ("HTTP error: 404 404 " ++ reason), ["https://example.com"]))
    by (vm_compute; reflexivity).
  rewrite E; split; [reflexivity|]; split.
  - simpl; discriminate.
  - vm_compute; reflexivity.
Qed.

(** *** The address echoed *)

(** The address in the result: as sent when it cannot be parsed or has a
    scheme, else the parsed URL written out with the scheme [https]. *)
Lemma FetchLinkPreview_URL (client : http.Client) (targetURL : string) :
  URL (fst (FetchLinkPreview client targetURL))
  = match url.Parse targetURL with
    | Fail _ => targetURL
    | Ok parsedURL =>
        if String.eqb (url.Scheme parsedURL) ""
        then url.String_ (url.withScheme "https" parsedURL)
        else targetURL
    end.
Proof.
  unfold FetchLinkPreview.
  destruct (url.Parse targetURL) as [parsedURL|err]; [|reflexivity].
  destruct (String.eqb (url.Scheme parsedURL) "");
    (destruct (http.NewRequestWithContext _) as [req|err]; [|reflexivity]);
    (destruct (client req) as [resp|err]; [|reflexivity]);
    (destruct (negb _); [reflexivity|]);
    (destruct (io.ReadAll _) as [body [err|]]; [reflexivity|]);
    simpl; apply extractMetadata_URL.
Qed.

Lemma NewRequest_same (target req : string) :
  http.NewRequestWithContext target = Ok req -> req = target.
Proof.
  unfold http.NewRequestWithContext, bind.
  destruct (url.Parse target); congruence.
Qed.

(** The client is called at most once, for the address in the result. *)
Lemma FetchLinkPreview_requests (client : http.Client) (targetURL : string) :
  let run := FetchLinkPreview client targetURL in
  snd run = [] \/ snd run = [URL (fst run)].
Proof.
  unfold FetchLinkPreview.
  destruct (url.Parse targetURL) as [parsedURL|err]; [|left; reflexivity].
  destruct (String.eqb (url.Scheme parsedURL) "");
    (destruct (http.NewRequestWithContext _) as [req|err] eqn:E;
       [apply NewRequest_same in E; subst req|left; reflexivity]);
    (destruct (client _) as [resp|err]; [|right; reflexivity]);
    (destruct (negb _); [right; reflexivity|]);
    (destruct (io.ReadAll _) as [body [err|]]; [right; reflexivity|]);
    right; simpl; rewrite extractMetadata_URL; reflexivity.
Qed.

(** *** [url.Parse] on plain paths *)

Lemma pathByte_facts (c : ascii) :
  pathByte c = true ->
  byte.eqb c "#" = false /\ byte.eqb c "?" = false /\ byte.eqb c "%" = false
  /\ byte.eqb c ":" = false /\ byte.eqb c "*" = false
  /\ url.shouldEscape c url.encodePath = false
  /\ ((byte.code c <? 32)%N || (byte.code c =? 127)%N) = false.
Proof.
  destruct c as [[] [] [] [] [] [] [] []]; vm_compute; intros H;
    try discriminate H; repeat split; reflexivity.
Qed.

(** A byte that does not occur in [s] is not found in it. *)
Lemma Index_absent (x : ascii) (s : string) :
  string_all (fun c => negb (byte.eqb c x)) s = true ->
  strings.Index s (String x "") = None.
Proof.
  induction s as [|c s IH]; simpl; [reflexivity|].
  intros H; apply andb_true_iff in H as [Hc Hs].
  destruct (ascii_dec x c) as [->|_].
  - unfold byte.eqb in Hc; rewrite Ascii.eqb_refl in Hc; discriminate.
  - rewrite IH; auto.
Qed.

Lemma Cut_absent (x : ascii) (s : string) :
  string_all (fun c => negb (byte.eqb c x)) s = true ->
  strings.Cut s (String x "") = (s, "", false).
Proof. intros H; unfold strings.Cut; rewrite Index_absent; auto. Qed.

Lemma Contains_absent (x : ascii) (s : string) :
  string_all (fun c => negb (byte.eqb c x)) s = true ->
  strings.Contains s (String x "") = false.
Proof. intros H; unfold strings.Contains; rewrite Index_absent; auto. Qed.

Lemma HasSuffix_absent (x : ascii) (s : string) :
  string_all (fun c => negb (byte.eqb c x)) s = true ->
  strings.HasSuffix s (String x "") = false.
Proof.
  intros H; unfold strings.HasSuffix.
  rewrite <- string_all_rev in H.
  change (rev (String x "")) with (String x "").
  destruct (rev s) as [|c t]; simpl in *; [reflexivity|].
  apply andb_true_iff in H as [Hc _].
  destruct (ascii_dec x c) as [->|_]; [|reflexivity].
  unfold byte.eqb in Hc; rewrite Ascii.eqb_refl in Hc; discriminate.
Qed.

Lemma getSchemeFrom_no_colon (later : bool) (seen : list ascii)
    (rawURL s : string) :
  string_all (fun c => negb (byte.eqb c ":")) s = true ->
  url.getSchemeFrom later seen rawURL s = Ok ("", rawURL).
Proof.
  revert later seen; induction s as [|c s IH]; intros later seen H;
    [reflexivity|].
  simpl in H; apply andb_true_iff in H as [Hc Hs].
  apply negb_true_iff in Hc.
  cbn [url.getSchemeFrom]; rewrite Hc.
  destruct (byte.isLetter c); [apply IH, Hs|].
  destruct (byte.isDigit c || byte.mem c ["+"; "-"; "."]%char);
    [destruct later; [apply IH, Hs | reflexivity] | reflexivity].
Qed.

Lemma checkEscapes_path (s : string) :
  string_all (fun c => negb (byte.eqb c "%")) s = true ->
  url.checkEscapes url.encodePath s = Ok tt.
Proof.
  induction s as [|c s IH]; simpl; [reflexivity|].
  intros H; apply andb_true_iff in H as [Hc Hs].
  apply negb_true_iff in Hc; rewrite Hc.
  destruct (byte.eqb c "+"); apply IH, Hs.
Qed.

Lemma decode_path (s : string) :
  string_all (fun c => negb (byte.eqb c "%")) s = true ->
  url.decode url.encodePath s = s.
Proof.
  induction s as [|c s IH]; simpl; [reflexivity|].
  intros H; apply andb_true_iff in H as [Hc Hs].
  apply negb_true_iff in Hc; rewrite Hc.
  destruct (byte.eqb c "+"); rewrite IH; auto.
Qed.

Lemma escape_path (s : string) :
  string_all (fun c => negb (url.shouldEscape c url.encodePath)) s = true ->
  url.escape s url.encodePath = s.
Proof.
  induction s as [|c s IH]; simpl; [reflexivity|].
  intros H; apply andb_true_iff in H as [Hc Hs].
  apply negb_true_iff in Hc; rewrite Hc, IH; auto.
Qed.

Ltac path_fact H :=
  eapply string_all_impl; [|exact H];
  let c := fresh "c" in
  let Hc := fresh "Hc" in
  intros c Hc; apply pathByte_facts in Hc;
  destruct Hc as (? & ? & ? & ? & ? & ? & ?);
  try (apply negb_true_iff; assumption).

(** A non-empty text of path bytes that does not begin with two slashes
    is parsed as a path and nothing else. *)
Lemma Parse_plain_path (s : string) :
  string_all pathByte s = true -> s <> "" ->
  strings.HasPrefix s "//" = false ->
  url.Parse s = Ok (url.mkURL "" "" None "" s "" false false "" "" "").
Proof.
  intros H Hne Hslash.
  assert (Hhash : string_all (fun c => negb (byte.eqb c "#")) s = true)
    by path_fact H.
  assert (Hq : string_all (fun c => negb (byte.eqb c "?")) s = true)
    by path_fact H.
  assert (Hpc : string_all (fun c => negb (byte.eqb c "%")) s = true)
    by path_fact H.
  assert (Hcol : string_all (fun c => negb (byte.eqb c ":")) s = true)
    by path_fact H.
  assert (Hesc : string_all
                   (fun c => negb (url.shouldEscape c url.encodePath)) s = true)
    by path_fact H.
  assert (Hctl : string_all
                   (fun c => negb ((byte.code c <? 32)%N
                                   || (byte.code c =? 127)%N)) s = true)
    by path_fact H.
  assert (Hstar : String.eqb s "*" = false).
  { destruct s as [|c [|d s]]; try reflexivity; [|simpl; destruct (Ascii.eqb c "*"); reflexivity].
    simpl in H; rewrite andb_true_r in H.
    apply pathByte_facts in H as (_ & _ & _ & _ & H & _).
    simpl; unfold byte.eqb in H; rewrite H; reflexivity. }
  assert (Hempty : String.eqb s "" = false)
    by (destruct s; [exfalso; apply Hne; reflexivity | reflexivity]).
  unfold url.Parse.
  rewrite (Cut_absent _ _ Hhash).
  unfold url.parse, url.stringContainsCTLByte.
  rewrite Hctl, Hempty, Hstar; simpl negb; cbv iota.
  unfold url.getScheme; rewrite (getSchemeFrom_no_colon _ _ _ _ Hcol).
  unfold bind at 1; cbv iota beta.
  change (strings.ToLower "") with "".
  rewrite (HasSuffix_absent _ _ Hq); simpl andb; cbv iota.
  rewrite (Cut_absent _ _ Hq).
  change (nonEmpty "") with false.
  rewrite !andb_false_r, Hslash, andb_false_r; cbv iota.
  replace (negb (strings.HasPrefix s "/")
           && strings.Contains (fst (fst (strings.Cut s "/"))) ":")
    with false.
  2:{ symmetry; apply andb_false_iff; right.
      apply Contains_absent.
      unfold strings.Cut; destruct (strings.Index s "/"); simpl;
        [apply string_all_take|]; exact Hcol. }
  cbv iota; unfold bind at 1; cbv iota beta.
  unfold url.setPath, url.unescape.
  rewrite (checkEscapes_path _ Hpc); unfold bind; cbv iota beta.
  rewrite (decode_path _ Hpc), (escape_path _ Hesc).
  cbv beta iota zeta; rewrite !String.eqb_refl.
  reflexivity.
Qed.

Lemma String_plain_path (s : string) :
  string_all pathByte s = true -> s <> "" ->
  url.String_ (url.withScheme "https"
                 (url.mkURL "" "" None "" s "" false false "" "" ""))
  = "https://" ++ s.
Proof.
  intros H Hne.
  assert (Hesc : string_all
                   (fun c => negb (url.shouldEscape c url.encodePath)) s = true)
    by path_fact H.
  assert (Hstar : String.eqb s "*" = false).
  { destruct s as [|c [|d s]]; try reflexivity; [|simpl; destruct (Ascii.eqb c "*"); reflexivity].
    simpl in H; rewrite andb_true_r in H.
    apply pathByte_facts in H as (_ & _ & _ & _ & H & _).
    simpl; unfold byte.eqb in H; rewrite H; reflexivity. }
  assert (Hn : nonEmpty s = true) by (apply nonEmpty_true, Hne).
  unfold url.String_, url.withScheme, url.EscapedPath; simpl.
  rewrite Hn, Hstar, (escape_path _ Hesc); simpl.
  rewrite Hn; simpl.
  rewrite andb_false_r; reflexivity.
Qed.

(** C4, as the code has it.  An address that is parsed without a scheme
    is replaced by the parsed URL written out again with the scheme
    [https], and that text is echoed and is the only address requested;
    for a non-empty address made of bytes that need no escape in a path,
    without colon and not beginning with two slashes, it is the address
    with [https://] in front.  An address that is parsed with a scheme
    is echoed as it was sent. *)
Theorem scheme_defaulting (client : http.Client) (targetURL : string) :
  let run := FetchLinkPreview client targetURL in
  (forall parsedURL,
      url.Parse targetURL = Ok parsedURL -> url.Scheme parsedURL = "" ->
      URL (fst run) = url.String_ (url.withScheme "https" parsedURL)
      /\ (snd run = [] \/ snd run = [URL (fst run)]))
  /\ (string_all pathByte targetURL = true -> targetURL <> "" ->
      strings.HasPrefix targetURL "//" = false ->
      URL (fst run) = "https://" ++ targetURL)
  /\ (forall parsedURL,
         url.Parse targetURL = Ok parsedURL -> url.Scheme parsedURL <> "" ->
         URL (fst run) = targetURL).
Proof.
  cbv zeta; split; [|split].
  - intros parsedURL HP HS; split.
    + rewrite FetchLinkPreview_URL, HP, HS; reflexivity.
    + apply FetchLinkPreview_requests.
  - intros H Hne Hslash.
    rewrite FetchLinkPreview_URL, (Parse_plain_path _ H Hne Hslash).
    simpl; apply String_plain_path; assumption.
  - intros parsedURL HP HS.
    rewrite FetchLinkPreview_URL, HP.
    destruct (String.eqb_spec (url.Scheme parsedURL) ""); congruence.
Qed.

Lemma scheme_defaulting_witness :
  URL (fst (FetchLinkPreview offline "example.com/about"))
  = "https://example.com/about"
  /\ URL (fst (FetchLinkPreview offline "http://example.com"))
     = "http://example.com".
Proof.
  split.
  - apply (proj1 (proj2 (scheme_defaulting offline "example.com/about")));
      [vm_compute; reflexivity | discriminate | vm_compute; reflexivity].
  - eapply (proj2 (proj2 (scheme_defaulting offline "http://example.com")));
      [vm_compute; reflexivity | vm_compute; discriminate].
Defined.

(** C4 as stated fails: an address that begins with two slashes is
    parsed, has no scheme, and is echoed with [https:] in front, not
    [https://]; an empty fragment is dropped and a space is escaped. *)
Lemma scheme_relative_reserialised :
  (exists parsedURL,
      url.Parse "//example.com" = Ok parsedURL /\ url.Scheme parsedURL = "")
  /\ URL (fst (FetchLinkPreview offline "//example.com"))
     = "https://example.com"
  /\ URL (fst (FetchLinkPreview offline "//example.com"))
     <> "https://" ++ "//example.com"
  /\ URL (fst (FetchLinkPreview offline "example.com#"))
     = "https://example.com"
  /\ URL (fst (FetchLinkPreview offline "example.com/a b"))
     = "https://example.com/a%20b".
Proof.
  split; [eexists; split; vm_compute; reflexivity|].
  repeat split; vm_compute; try reflexivity; discriminate.
Qed.

(** *** The body *)

Lemma length_replicate (n : nat) (c : ascii) :
  String.length (replicate n c) = n.
Proof. induction n; simpl; congruence. Qed.

(** The run of [FetchLinkPreview] once the response has status 200. *)
Lemma FetchLinkPreview_200 (client : http.Client) (targetURL : string)
    (parsedURL : url.URL) (resp : http.Response) :
  url.Parse targetURL = Ok parsedURL ->
  url.Scheme parsedURL <> "" ->
  client targetURL = Ok resp ->
  http.StatusCode resp = http.StatusOK ->
  FetchLinkPreview client targetURL
  = (match io.ReadAll (io.LimitReader (http.Body resp) (1024 * 1024)) with
     | (_, Some err) =>
         setError ("Failed to read response body: " ++ err)
                  (setURL targetURL zeroResponse)
     | (body, None) => extractMetadata body (setURL targetURL zeroResponse)
     end, [targetURL]).
Proof.
  intros HP HS HC H200.
  unfold FetchLinkPreview, http.NewRequestWithContext.
  rewrite HP.
  destruct (String.eqb_spec (url.Scheme parsedURL) ""); [congruence|].
  rewrite HP; unfold bind; rewrite HC, H200.
  change (negb (Z.eqb http.StatusOK http.StatusOK)) with false.
  cbv beta iota.
  destruct (io.ReadAll _) as [body [err|]]; reflexivity.
Qed.

(** [FetchLinkPreview] by its request: without one it ends with an
    error and the client is not called; with one the client is called
    once, for the URL of the result. *)
Lemma FetchLinkPreview_request (client : http.Client) (targetURL : string) :
  let run := FetchLinkPreview client targetURL in
  match requestURL targetURL with
  | None =>
      snd run = [] /\ Error (fst run) <> ""
      /\ exists u e, fst run = mkPreview u "" "" "" "" e
  | Some target =>
      snd run = [target] /\ URL (fst run) = target
      /\ fst run = afterRequest client target
  end.
Proof.
  cbv zeta; unfold FetchLinkPreview, requestURL, afterRequest.
  destruct (url.Parse targetURL) as [parsedURL|err];
    [|split; [reflexivity | split; [discriminate | eexists _, _; reflexivity]]].
  destruct (String.eqb (url.Scheme parsedURL) "").
  - destruct (http.NewRequestWithContext
                (url.String_ (url.withScheme "https" parsedURL)))
      as [req|err] eqn:Hreq;
      [|split; [reflexivity | split; [discriminate | eexists _, _; reflexivity]]].
    apply NewRequest_same in Hreq; subst req.
    destruct (client _) as [resp|err]; [|repeat split].
    destruct (negb _); [repeat split|].
    destruct (io.ReadAll _) as [body [err|]]; [repeat split|].
    split; [reflexivity|]; split; [apply extractMetadata_URL | reflexivity].
  - destruct (http.NewRequestWithContext targetURL)
      as [req|err] eqn:Hreq;
      [|split; [reflexivity | split; [discriminate | eexists _, _; reflexivity]]].
    apply NewRequest_same in Hreq; subst req.
    destruct (client _) as [resp|err]; [|repeat split].
    destruct (negb _); [repeat split|].
    destruct (io.ReadAll _) as [body [err|]]; [repeat split|].
    split; [reflexivity|]; split; [apply extractMetadata_URL | reflexivity].
Qed.

(** C8.  Whenever [FetchLinkPreview] calls the client and is answered
    with status 200, the body is read through a limit of 1,048,576 bytes:
    for a longer body the result is that of the extraction on exactly its
    first 1,048,576 bytes, with no error and nothing that tells of the
    cut; for a body that ends normally within the limit it is that of the
    extraction on the whole body; and in every case what the extraction
    gets is a front part of the body of at most 1,048,576 bytes. *)
Theorem body_read_limit (client : http.Client) (targetURL req : string)
    (resp : http.Response) :
  let run := FetchLinkPreview client targetURL in
  let body := io.data (http.Body resp) in
  let from (read : string) :=
    extractMetadata read (mkPreview req "" "" "" "" "") in
  snd run = [req] -> client req = Ok resp ->
  http.StatusCode resp = 200%Z ->
  ((1048576 < N.of_nat (String.length body))%N ->
   fst run = from (take (N.to_nat 1048576) body)
   /\ N.of_nat (String.length (take (N.to_nat 1048576) body)) = 1048576%N
   /\ Error (fst run) = "")
  /\ ((N.of_nat (String.length body) <= 1048576)%N ->
      io.failure (http.Body resp) = None ->
      fst run = from body /\ Error (fst run) = "")
  /\ (Error (fst run) = "" ->
      exists read,
        fst run = from read
        /\ read = take (String.length read) body
        /\ (N.of_nat (String.length read) <= 1048576)%N).
Proof.
  cbv zeta; intros Hsnd Hclient Hcode.
  pose proof (FetchLinkPreview_request client targetURL) as H; cbv zeta in H.
  destruct (requestURL targetURL) as [target|];
    [|destruct H as (E & _); rewrite E in Hsnd; discriminate].
  destruct H as (E & _ & ->); rewrite E in Hsnd; injection Hsnd as ->.
  unfold afterRequest; rewrite Hclient, Hcode.
  change (negb (200 =? http.StatusOK)%Z) with false; cbv iota.
  change (1024 * 1024)%N with 1048576%N.
  unfold io.ReadAll, io.LimitReader.
  destruct (N.ltb_spec (N.of_nat (String.length (io.data (http.Body resp))))
                       1048576) as [Hlt|Hge]; cbn [io.data io.failure].
  - split; [lia|]; split.
    + intros _ ->; split; [reflexivity | apply extractMetadata_Error].
    + destruct (io.failure (http.Body resp)) as [err|]; [discriminate|].
      intros _; exists (io.data (http.Body resp)).
      split; [reflexivity|]; split; [|lia].
      symmetry; apply take_all; lia.
  - assert (Hcut : String.length
                     (take (N.to_nat 1048576) (io.data (http.Body resp)))
                   = N.to_nat 1048576).
    { rewrite length_take; lia. }
    split; [|split].
    + intros _; split; [reflexivity|]; split;
        [rewrite Hcut; lia | apply extractMetadata_Error].
    + intros Hle _; rewrite take_all by lia.
      split; [reflexivity | apply extractMetadata_Error].
    + intros _; exists (take (N.to_nat 1048576) (io.data (http.Body resp))).
      split; [reflexivity|]; split; [|rewrite Hcut; lia].
      rewrite Hcut; reflexivity.
Qed.

Lemma body_read_limit_witness :
  let big := io.mkReader (replicate (N.to_nat 1048577) "a") (Some "reset") in
  let small := io.mkReader "<title>t</title>" None in
  fst (FetchLinkPreview (answering 200 "OK" big) "https://example.com")
  = extractMetadata (take (N.to_nat 1048576) (io.data big))
                    (mkPreview "https://example.com" "" "" "" "" "")
  /\ fst (FetchLinkPreview (answering 200 "OK" small) "https://example.com")
     = mkPreview "https://example.com" "t" "" "" "" "".
Proof.
  cbv zeta.
  assert (Hparse : exists parsedURL,
             url.Parse "https://example.com" = Ok parsedURL
             /\ url.Scheme parsedURL <> "").
  { eexists; split; [vm_compute; reflexivity | discriminate]. }
  destruct Hparse as (parsedURL & Hparse & Hscheme).
  split.
  - refine (proj1 (proj1 (body_read_limit
                            (answering 200 "OK"
                               (io.mkReader (replicate (N.to_nat 1048577) "a")
                                            (Some "reset")))
                            "https://example.com" "https://example.com"
                            (http.response 200 "OK"
                               (io.mkReader (replicate (N.to_nat 1048577) "a")
                                            (Some "reset")))
                            _ eq_refl eq_refl) _)).
    + rewrite (FetchLinkPreview_200
                 (answering 200 "OK"
                    (io.mkReader (replicate (N.to_nat 1048577) "a")
                                 (Some "reset")))
                 "https://example.com" parsedURL
                 (http.response 200 "OK"
                    (io.mkReader (replicate (N.to_nat 1048577) "a")
                                 (Some "reset")))
                 Hparse Hscheme eq_refl eq_refl).
      reflexivity.
    + cbn [http.Body http.response io.data].
      rewrite length_replicate, N2Nat.id; reflexivity.
  - refine (proj1 (proj1 (proj2 (body_read_limit
                                   (answering 200 "OK"
                                      (io.mkReader "<title>t</title>" None))
                                   "https://example.com" "https://example.com"
                                   (http.response 200 "OK"
                                      (io.mkReader "<title>t</title>" None))
                                   eq_refl eq_refl eq_refl)) _ eq_refl)).
    cbn [http.Body http.response io.data]; simpl String.length; lia.
Defined.

(** ** The handler and the goroutine *)

Section Race.
Variable outcome : LinkPreviewResponse.

Lemma reachable_invariant (s : handler.state) :
  handler.reachable outcome s -> channel_invariant s.
Proof.
  induction 1 as [|s s' _ IH Hstep]; [reflexivity|].
  unfold channel_invariant in *.
  unfold handler.capacity in *.
  destruct Hstep as [Hp|Hc|Hx].
  - destruct Hp as [ch d c|r ch d|r ch d c Hc Hlen|r ch c]; simpl in *; subst;
      simpl; auto.
  - destruct Hc as [p r ch d|p ch|p]; simpl in *; [|exact IH|exact IH].
    destruct p; simpl in *; try discriminate IH; lia.
  - destruct Hx; simpl in *; exact IH.
Qed.

(** A handler that is blocked in its [select] found the channel empty
    and the context alive, and nothing has changed that since. *)
Lemma reachable_waiting (s : handler.state) :
  handler.reachable outcome s ->
  handler.cons s = handler.Waiting ->
  handler.done s = false /\ handler.resultChan s = [].
Proof.
  induction 1 as [|s s' _ IH Hstep]; [discriminate|].
  destruct Hstep as [Hp|Hc|Hx].
  - destruct Hp as [ch d c|r ch d|r ch d c Hc Hlen|r ch c]; simpl in *.
    + exact IH.
    + discriminate.
    + intros E; contradiction.
    + intros E; destruct (IH E) as [E' _]; discriminate E'.
  - destruct Hc as [p r ch d|p ch|p]; simpl in *;
      [discriminate | discriminate | auto].
  - destruct Hx as [p ch c]; simpl in *.
    destruct c; simpl; discriminate.
Qed.

(** Once the handler has answered, its answer stays. *)
Lemma answer_stays (s s' : handler.state) :
  handler.steps outcome s s' ->
  handler.statusOf (handler.cons s) <> None ->
  handler.cons s' = handler.cons s.
Proof.
  induction 1 as [s|s s' s'' Hstep _ IH]; [reflexivity|].
  intros Hs.
  assert (E : handler.cons s' = handler.cons s).
  { destruct Hstep as [Hp|Hc|Hx].
    - destruct Hp; simpl in *; try reflexivity.
      exfalso; apply Hs; reflexivity.
    - destruct Hc; simpl in *; exfalso; apply Hs; reflexivity.
    - destruct Hx as [p ch c]; simpl in *.
      destruct c; simpl in *; try reflexivity.
      exfalso; apply Hs; reflexivity. }
  rewrite <- E; apply IH; rewrite E; exact Hs.
Qed.

(** C9.  In every state the system can reach.  The goroutine never
    blocks: at its deferred [select] it can send, whatever the handler
    has done, also after the time-out, and it exits; the result goes to a
    handler that is blocked in its [select], and into the channel
    otherwise.  The time-out: when the context ends while the handler is
    blocked in its [select], which is when nothing has been delivered,
    the handler takes the time-out, and in every run from there its
    answer is the time-out (status 408, not the 200 of a reply),
    whatever the goroutine does later.  No hang: a handler that has not
    reached its [select] can always execute it, a blocked one has the
    end of the context before it, and once the context has ended the
    handler is not blocked and the step it takes is an answer that
    stays, the time-out when nothing is in the channel.  The channel
    never holds more than its capacity of one. *)
Theorem delivery_never_blocks (s : handler.state) :
  handler.reachable outcome s ->
  (forall r, handler.prod s = handler.Delivering r ->
     exists s', handler.producer_step outcome s s'
                /\ handler.prod s' = handler.Exited
                /\ (handler.cons s = handler.Waiting ->
                    handler.cons s' = handler.Replied r)
                /\ (handler.cons s <> handler.Waiting ->
                    handler.resultChan s' = [r]
                    /\ handler.cons s' = handler.cons s))
  /\ (handler.cons s = handler.Waiting ->
      handler.resultChan s = []
      /\ (exists s1, handler.context_step s s1)
      /\ forall s1 s2,
           handler.context_step s s1 -> handler.steps outcome s1 s2 ->
           handler.cons s2 = handler.TimedOut
           /\ handler.statusOf (handler.cons s2)
              = Some http.StatusRequestTimeout
           /\ forall r, handler.statusOf (handler.cons s2)
                        <> handler.statusOf (handler.Replied r))
  /\ (handler.cons s = handler.Starting ->
      exists s', handler.consumer_step s s')
  /\ (handler.done s = true ->
      handler.cons s <> handler.Waiting
      /\ forall s' s'',
           handler.consumer_step s s' -> handler.steps outcome s' s'' ->
           handler.statusOf (handler.cons s'') <> None
           /\ (handler.resultChan s = [] ->
               handler.cons s'' = handler.TimedOut))
  /\ length (handler.resultChan s) <= handler.capacity.
Proof.
  intros Hreach.
  pose proof (reachable_invariant s Hreach) as Hinv.
  pose proof (reachable_waiting s Hreach) as Hwait.
  unfold channel_invariant in Hinv.
  destruct s as [p ch d c]; simpl in *.
  split; [|split; [|split; [|split]]].
  - intros r ->; subst ch.
    destruct c as [| |x|].
    + exists (handler.mkState handler.Exited ([] ++ [r]) d handler.Starting).
      repeat split; try discriminate.
      apply handler.send; [discriminate | unfold handler.capacity; simpl; lia].
    + exists (handler.mkState handler.Exited [] d (handler.Replied r)).
      split; [apply handler.hand_over|].
      split; [reflexivity|]; split; [reflexivity | contradiction].
    + exists (handler.mkState handler.Exited ([] ++ [r]) d (handler.Replied x)).
      repeat split; try discriminate.
      apply handler.send; [discriminate | unfold handler.capacity; simpl; lia].
    + exists (handler.mkState handler.Exited ([] ++ [r]) d handler.TimedOut).
      repeat split; try discriminate.
      apply handler.send; [discriminate | unfold handler.capacity; simpl; lia].
  - intros ->; destruct (Hwait eq_refl) as [-> ->].
    split; [reflexivity|]; split; [eexists; apply handler.expire|].
    intros s1 s2 Hx Hrun.
    inversion Hx; subst.
    pose proof (answer_stays _ _ Hrun) as Hstay; simpl in Hstay.
    rewrite Hstay by discriminate.
    repeat split; discriminate.
  - intros ->.
    destruct ch as [|r ch].
    + destruct d; eexists; [apply handler.time_out | apply handler.block].
    + eexists; apply handler.receive.
  - intros ->; split.
    + intros ->; destruct (Hwait eq_refl) as [E _]; discriminate E.
    + intros s' s'' Hs' Hrun.
      pose proof (answer_stays _ _ Hrun) as Hstay.
      inversion Hs'; subst; simpl in *;
        (rewrite Hstay by discriminate); split;
        solve [discriminate | reflexivity].
  - destruct p; subst; simpl; auto; unfold handler.capacity; lia.
Qed.

End Race.

(** The handler has timed out and the goroutine only then reaches its
    deferred [select]: it can still send; and the answer of a handler
    that was blocked when the context ended is the time-out also after
    the goroutine has delivered. *)
Lemma delivery_never_blocks_witness :
  let late :=
    handler.mkState (handler.Delivering zeroResponse) [] true handler.TimedOut in
  let delivered :=
    handler.mkState handler.Exited [zeroResponse] true handler.TimedOut in
  (exists s', handler.producer_step zeroResponse late s'
              /\ handler.prod s' = handler.Exited
              /\ handler.resultChan s' = [zeroResponse]
              /\ handler.cons s' = handler.TimedOut)
  /\ handler.cons delivered = handler.TimedOut.
Proof.
  cbv zeta.
  assert (Hblocked : handler.reachable zeroResponse
                       (handler.mkState handler.Fetching [] false
                                        handler.Waiting)).
  { apply handler.reach_step with (s := handler.init);
      [apply handler.reach_init | apply handler.by_consumer, handler.block]. }
  assert (Hexpired : handler.context_step
                       (handler.mkState handler.Fetching [] false
                                        handler.Waiting)
                       (handler.mkState handler.Fetching [] true
                                        handler.TimedOut)).
  { apply (handler.expire handler.Fetching [] handler.Waiting). }
  assert (Hlate : handler.reachable zeroResponse
                    (handler.mkState (handler.Delivering zeroResponse) [] true
                                     handler.TimedOut)).
  { apply handler.reach_step
      with (s := handler.mkState handler.Fetching [] true handler.TimedOut);
      [|apply handler.by_producer, handler.fetch_returns].
    apply handler.reach_step
      with (s := handler.mkState handler.Fetching [] false handler.Waiting);
      [exact Hblocked | apply handler.by_context, Hexpired]. }
  split.
  - destruct (proj1 (delivery_never_blocks zeroResponse _ Hlate)
                    zeroResponse eq_refl)
      as (s' & Hstep & Hprod & _ & Hsent).
    exists s'; destruct (Hsent ltac:(discriminate)) as [Hch Hcons].
    repeat split; assumption.
  - refine (proj1 (proj2 (proj2 (proj1 (proj2
              (delivery_never_blocks zeroResponse _ Hblocked)) eq_refl))
              _ _ Hexpired _)).
    eapply handler.steps_step;
      [apply handler.by_producer, handler.fetch_returns|].
    eapply handler.steps_step;
      [apply handler.by_producer,
         (handler.send zeroResponse zeroResponse [] true handler.TimedOut);
       [discriminate | unfold handler.capacity; simpl; lia]|].
    apply handler.steps_refl.
Defined.

(* ================================================================== *)
(** * Further properties *)

(** ** [strings.TrimSpace] and [strings.Split] *)

Lemma suffix_length (t s : string) :
  suffix_of t s -> String.length t <= String.length s.
Proof. intros (p & ->); rewrite length_append; lia. Qed.

Lemma trimFront_blank (back : bool) (s : string) :
  blank s = true -> strings.trimFront back s = "".
Proof.
  unfold blank; induction s as [|a s IH]; [reflexivity|].
  cbn [string_all]; intros H; apply andb_true_iff in H as [Ha Hs].
  cbn [strings.trimFront]; rewrite Ha; apply IH, Hs.
Qed.

(** White space alone is trimmed to nothing. *)
Lemma TrimSpace_blank (s : string) : blank s = true -> strings.TrimSpace s = "".
Proof.
  intros H; unfold strings.TrimSpace.
  rewrite (trimFront_blank false s H); reflexivity.
Qed.

Lemma frontChecks_fixed (back : bool) (s : string) :
  frontChecks back s -> strings.trimFront back s = s.
Proof.
  destruct s as [|a [|b [|c s3]]]; cbn [frontChecks].
  - reflexivity.
  - intros [E _]; cbn [strings.trimFront]; rewrite E; reflexivity.
  - intros (E1 & E2 & _); cbn [strings.trimFront]; rewrite E1, E2; reflexivity.
  - intros (E1 & E2 & E3); cbn [strings.trimFront]; rewrite E1, E2, E3;
      reflexivity.
Qed.

Lemma trimFront_step (back : bool) (a : ascii) (s1 : string) :
  strings.trimFront back (String a s1)
  = if strings.asciiSpace a then strings.trimFront back s1
    else match s1 with
         | EmptyString => String a s1
         | String b s2 =>
             if (if back then strings.space2 b a else strings.space2 a b)
             then strings.trimFront back s2
             else match s2 with
                  | EmptyString => String a s1
                  | String c s3 =>
                      if (if back then strings.space3 c b a
                          else strings.space3 a b c)
                      then strings.trimFront back s3
                      else String a s1
                  end
         end.
Proof. destruct s1 as [|b [|c s3]]; reflexivity. Qed.

Lemma trimFront_shorter (back : bool) (t u : string) :
  String.length u < String.length t -> strings.trimFront back u <> t.
Proof.
  intros Hlt E.
  pose proof (suffix_length _ _ (trimFront_suffix back u)) as Hle.
  rewrite E in Hle; lia.
Qed.

Lemma fixed_frontChecks (back : bool) (s : string) :
  strings.trimFront back s = s -> frontChecks back s.
Proof.
  destruct s as [|a s1]; [intros _; exact I|].
  rewrite trimFront_step; cbn [frontChecks].
  destruct (strings.asciiSpace a).
  { intros E; exfalso; revert E; apply trimFront_shorter; simpl; lia. }
  destruct s1 as [|b s2]; [auto|].
  destruct (if back then strings.space2 b a else strings.space2 a b).
  { intros E; exfalso; revert E; apply trimFront_shorter; simpl; lia. }
  destruct s2 as [|c s3]; [auto|].
  destruct (if back then strings.space3 c b a else strings.space3 a b c);
    [|auto].
  intros E; exfalso; revert E; apply trimFront_shorter; simpl; lia.
Qed.

(** What [trimFront] returns has no white space at its front. *)
Lemma trimFront_frontChecks (back : bool) (s : string) :
  frontChecks back (strings.trimFront back s).
Proof.
  assert (H : forall n s, String.length s < n ->
                          frontChecks back (strings.trimFront back s)).
  { clear s; induction n as [|n IH]; intros s Hn; [lia|].
    destruct s as [|a s1]; [exact I|].
    rewrite trimFront_step.
    destruct (strings.asciiSpace a) eqn:Ea.
    { apply IH; simpl in *; lia. }
    destruct s1 as [|b s2]; [cbn [frontChecks]; auto|].
    destruct (if back then strings.space2 b a else strings.space2 a b) eqn:E2.
    { apply IH; simpl in *; lia. }
    destruct s2 as [|c s3]; [cbn [frontChecks]; auto|].
    destruct (if back then strings.space3 c b a else strings.space3 a b c)
      eqn:E3.
    { apply IH; simpl in *; lia. }
    cbn [frontChecks]; auto. }
  apply (H (S (String.length s))); lia.
Qed.

(** The checks at the front of a text also fail on its prefixes. *)
Lemma frontChecks_prefix (back : bool) (t q : string) :
  frontChecks back (t ++ q) -> frontChecks back t.
Proof.
  destruct t as [|a [|b [|c t3]]]; cbn [append frontChecks]; auto.
  - destruct q; tauto.
  - destruct q; tauto.
Qed.

(** [strings.TrimSpace] changes nothing when applied a second time. *)
Lemma TrimSpace_idempotent (s : string) :
  strings.TrimSpace (strings.TrimSpace s) = strings.TrimSpace s.
Proof.
  unfold strings.TrimSpace.
  set (t1 := strings.trimFront false s).
  set (x := strings.trimFront true (rev t1)).
  assert (Hfront : strings.trimFront false (rev x) = rev x).
  { apply frontChecks_fixed.
    destruct (trimFront_suffix true (rev t1)) as (p & Hp); fold x in Hp.
    apply (frontChecks_prefix false (rev x) (rev p)).
    rewrite <- rev_append, <- Hp, rev_involutive.
    apply trimFront_frontChecks. }
  rewrite Hfront, rev_involutive.
  unfold x at 1.
  rewrite (frontChecks_fixed true _ (trimFront_frontChecks true (rev t1))).
  reflexivity.
Qed.

Lemma TrimSpace_after_space (s : string) :
  strings.TrimSpace (" " ++ s) = strings.TrimSpace s.
Proof. reflexivity. Qed.

Lemma TrimSpace_without (sep : ascii) (s : string) :
  without sep s = true -> without sep (strings.TrimSpace s) = true.
Proof. apply string_all_infix, TrimSpace_infix. Qed.

Lemma SplitByte_cons (s : string) (sep : ascii) :
  exists piece pieces, strings.SplitByte s sep = piece :: pieces.
Proof.
  induction s as [|a s (piece & pieces & IH)]; cbn [strings.SplitByte].
  - eauto.
  - destruct (byte.eqb a sep); [eauto|].
    rewrite IH; eauto.
Qed.

(** The pieces are made of the bytes between the separators. *)
Lemma SplitByte_pieces (p : ascii -> bool) (sep : ascii) (s : string) :
  string_all (fun c => p c || byte.eqb c sep) s = true ->
  Forall (fun piece => string_all p piece = true) (strings.SplitByte s sep).
Proof.
  induction s as [|a s IH]; cbn [string_all strings.SplitByte]; intros H.
  - repeat constructor.
  - apply andb_true_iff in H as [Ha Hs].
    specialize (IH Hs).
    destruct (byte.eqb a sep) eqn:E.
    + constructor; [reflexivity | exact IH].
    + rewrite orb_false_r in Ha.
      destruct (strings.SplitByte s sep) as [|piece pieces].
      * repeat constructor; cbn; rewrite Ha; reflexivity.
      * inversion IH; subst.
        constructor; [cbn; rewrite Ha; assumption | assumption].
Qed.

Lemma SplitByte_without (sep : ascii) (s : string) :
  Forall (fun piece => without sep piece = true) (strings.SplitByte s sep).
Proof.
  apply SplitByte_pieces.
  induction s as [|a s IH]; cbn; [reflexivity|].
  rewrite IH, orb_negb_l; reflexivity.
Qed.

Lemma SplitByte_single (sep : ascii) (x : string) :
  without sep x = true -> strings.SplitByte x sep = [x].
Proof.
  unfold without; induction x as [|a x IH]; [reflexivity|].
  cbn [string_all strings.SplitByte]; intros H.
  apply andb_true_iff in H as [Ha Hx].
  apply negb_true_iff in Ha; rewrite Ha, (IH Hx); reflexivity.
Qed.

Lemma SplitByte_append (sep : ascii) (x rest : string) :
  without sep x = true ->
  strings.SplitByte (x ++ String sep rest) sep
  = x :: strings.SplitByte rest sep.
Proof.
  unfold without; induction x as [|a x IH].
  - intros _; cbn [append strings.SplitByte].
    unfold byte.eqb; rewrite Ascii.eqb_refl; reflexivity.
  - cbn [string_all append strings.SplitByte]; intros H.
    apply andb_true_iff in H as [Ha Hx].
    apply negb_true_iff in Ha; rewrite Ha, (IH Hx); reflexivity.
Qed.

(** ** [NewConfig] *)

(** The loop of [NewConfig] keeps the trimmed pieces that are not empty,
    in their order, after what it had. *)
Lemma collectOrigins_filter (pieces origins : list string) :
  collectOrigins pieces origins
  = (origins ++ filter nonEmpty (map strings.TrimSpace pieces))%list.
Proof.
  revert origins; induction pieces as [|piece pieces IH]; intros origins.
  - cbn; rewrite app_nil_r; reflexivity.
  - cbn [collectOrigins map filter]; rewrite IH.
    destruct (nonEmpty (strings.TrimSpace piece));
      [rewrite <- app_assoc|]; reflexivity.
Qed.

Lemma defaultOrigins_clean : Forall cleanOrigin defaultOrigins.
Proof.
  repeat constructor; try discriminate; vm_compute; reflexivity.
Qed.

(** X1.  The port of the configuration always begins with a colon: it is
    [:5465] when [PORT] is not set, [PORT] itself when that begins with a
    colon, and [PORT] after a colon otherwise. *)
Theorem NewConfig_port (getenv : Env) :
  let port := Port (NewConfig getenv) in
  strings.HasPrefix port ":" = true
  /\ (getenv "PORT" = "" -> port = ":5465")
  /\ (strings.HasPrefix (getenv "PORT") ":" = true -> port = getenv "PORT")
  /\ (getenv "PORT" <> "" ->
      strings.HasPrefix (getenv "PORT") ":" = false ->
      port = ":" ++ getenv "PORT").
Proof.
  unfold NewConfig; cbn [Port].
  destruct (String.eqb_spec (getenv "PORT") "") as [E|E].
  - rewrite E; cbn.
    split; [reflexivity|]; split; [reflexivity|].
    split; [discriminate | intros H; contradiction].
  - destruct (strings.HasPrefix (getenv "PORT") ":") eqn:Hp; cbn [negb].
    + split; [exact Hp|]; split; [contradiction|].
      split; [reflexivity | discriminate].
    + split; [unfold strings.HasPrefix; simpl; destruct (getenv "PORT"); reflexivity|].
      split; [contradiction|].
      split; [discriminate | reflexivity].
Qed.

Lemma NewConfig_port_witness :
  Port (NewConfig (fun _ => "")) = ":5465"
  /\ Port (NewConfig (fun name => if String.eqb name "PORT" then ":80" else ""))
     = ":80"
  /\ Port (NewConfig (fun name => if String.eqb name "PORT" then "8080" else ""))
     = ":8080".
Proof.
  split; [|split].
  - apply (proj1 (proj2 (NewConfig_port (fun _ => "")))); reflexivity.
  - apply (proj1 (proj2 (proj2 (NewConfig_port
             (fun name => if String.eqb name "PORT" then ":80" else "")))));
      reflexivity.
  - apply (proj2 (proj2 (proj2 (NewConfig_port
             (fun name => if String.eqb name "PORT" then "8080" else "")))));
      [discriminate | reflexivity].
Defined.

Lemma collected_clean (pieces : list string) :
  Forall (fun piece => without "," piece = true) pieces ->
  Forall cleanOrigin (filter nonEmpty (map strings.TrimSpace pieces)).
Proof.
  induction 1 as [|piece pieces Hp _ IH]; [constructor|].
  cbn [map filter].
  destruct (nonEmpty (strings.TrimSpace piece)) eqn:E; [|exact IH].
  constructor; [|exact IH].
  repeat split.
  - apply nonEmpty_true, E.
  - apply TrimSpace_idempotent.
  - apply TrimSpace_without, Hp.
Qed.

(** X2.  The list of allowed origins is never empty, and each of its
    entries is not empty, has no white space around it and no comma. *)
Theorem NewConfig_origins (getenv : Env) :
  AllowedOrigins (NewConfig getenv) <> []
  /\ Forall cleanOrigin (AllowedOrigins (NewConfig getenv)).
Proof.
  unfold NewConfig; cbn [AllowedOrigins].
  set (origins := if nonEmpty (getenv "ALLOWED_ORIGINS") then _ else _).
  assert (Hclean : Forall cleanOrigin origins).
  { unfold origins; destruct (nonEmpty _); [|constructor].
    rewrite collectOrigins_filter; cbn [app].
    apply collected_clean, SplitByte_without. }
  destruct origins as [|o os]; cbn [length Nat.eqb].
  - split; [discriminate | apply defaultOrigins_clean].
  - split; [discriminate | exact Hclean].
Qed.

Lemma blank_pieces_dropped (pieces : list string) :
  Forall (fun piece => blank piece = true) pieces ->
  filter nonEmpty (map strings.TrimSpace pieces) = [].
Proof.
  induction 1 as [|piece pieces Hp _ IH]; [reflexivity|].
  cbn [map filter]; rewrite (TrimSpace_blank piece Hp); exact IH.
Qed.

(** X3.  When [ALLOWED_ORIGINS] holds nothing but white space and commas
    (or is empty), the allowed origins are the three development origins
    of the source. *)
Theorem NewConfig_blank_origins (getenv : Env) :
  string_all (fun c => strings.asciiSpace c || byte.eqb c ",")
             (getenv "ALLOWED_ORIGINS") = true ->
  AllowedOrigins (NewConfig getenv)
  = ["https://localhost:3000"; "http://localhost:3000";
     "http://localhost:5173"].
Proof.
  intros H; unfold NewConfig; cbn [AllowedOrigins].
  destruct (nonEmpty (getenv "ALLOWED_ORIGINS")); [|reflexivity].
  rewrite collectOrigins_filter; cbn [app].
  rewrite blank_pieces_dropped; [reflexivity|].
  apply SplitByte_pieces, H.
Qed.

Lemma NewConfig_blank_origins_witness :
  AllowedOrigins (NewConfig (originsEnv " , ,, "))
  = ["https://localhost:3000"; "http://localhost:3000";
     "http://localhost:5173"].
Proof. apply (NewConfig_blank_origins (originsEnv " , ,, ")); reflexivity. Defined.

Lemma SplitByte_space (t : string) :
  strings.SplitByte (String " " t) ","
  = match strings.SplitByte t "," with
    | piece :: pieces => String " " piece :: pieces
    | [] => [" "]
    end.
Proof. reflexivity. Qed.

Lemma SplitByte_join (origin : string) (rest : list string) :
  Forall (fun o => without "," o = true) (origin :: rest) ->
  strings.SplitByte (joinOrigins (origin :: rest)) ","
  = origin :: map (fun o => " " ++ o) rest.
Proof.
  revert origin; induction rest as [|next rest IH]; intros origin H.
  - inversion H; subst; apply SplitByte_single; assumption.
  - inversion H as [|? ? Ho Hrest]; subst.
    change (joinOrigins (origin :: next :: rest))
      with (origin ++ String "," (String " " (joinOrigins (next :: rest)))).
    rewrite (SplitByte_append "," origin _ Ho), SplitByte_space.
    rewrite (IH next Hrest); reflexivity.
Qed.

Lemma trimmed_kept (origins : list string) (pad : string -> string) :
  (forall o, strings.TrimSpace (pad o) = strings.TrimSpace o) ->
  Forall cleanOrigin origins ->
  filter nonEmpty (map strings.TrimSpace (map pad origins)) = origins.
Proof.
  intros Hpad; induction 1 as [|o origins (Hne & Hfix & _) _ IH];
    [reflexivity|].
  cbn [map filter]; rewrite Hpad, Hfix.
  rewrite (proj2 (nonEmpty_true o) Hne), IH; reflexivity.
Qed.

Lemma clean_without (origins : list string) :
  Forall cleanOrigin origins ->
  Forall (fun o => without "," o = true) origins.
Proof. apply Forall_impl; intros o (_ & _ & H); exact H. Qed.

(** Origins written with a comma and a space between them are collected
    as they are. *)
Lemma collectOrigins_join (origin : string) (rest : list string) :
  Forall cleanOrigin (origin :: rest) ->
  nonEmpty (joinOrigins (origin :: rest)) = true
  /\ collectOrigins (strings.SplitByte (joinOrigins (origin :: rest)) ",") []
     = origin :: rest.
Proof.
  intros Hclean; split.
  - inversion Hclean as [|? ? (Ho & _) _]; subst.
    destruct origin; [contradiction|]; destruct rest; reflexivity.
  - rewrite collectOrigins_filter; cbn [app].
    rewrite (SplitByte_join origin rest (clean_without _ Hclean)).
    inversion Hclean as [|? ? (Ho & Hfix & _) Hrest]; subst.
    cbn [map filter]; rewrite Hfix, (proj2 (nonEmpty_true origin) Ho).
    rewrite (trimmed_kept rest (fun o => " " ++ o) TrimSpace_after_space Hrest).
    reflexivity.
Qed.

(** X4.  Origins written one after another with a comma and a space
    between them are read back as they are, in their order: none is
    lost, none is changed and the defaults are not added. *)
Theorem NewConfig_reads_origins (getenv : Env) (origins : list string) :
  origins <> [] -> Forall cleanOrigin origins ->
  getenv "ALLOWED_ORIGINS" = joinOrigins origins ->
  AllowedOrigins (NewConfig getenv) = origins.
Proof.
  intros Hne Hclean Henv; unfold NewConfig; cbn [AllowedOrigins].
  rewrite Henv.
  destruct origins as [|origin rest]; [contradiction|].
  destruct (collectOrigins_join origin rest Hclean) as [-> ->]; reflexivity.
Qed.

Lemma NewConfig_reads_origins_witness :
  AllowedOrigins
    (NewConfig (originsEnv "https://a.example, https://b.example"))
  = ["https://a.example"; "https://b.example"].
Proof.
  apply (NewConfig_reads_origins
           (originsEnv "https://a.example, https://b.example")
           ["https://a.example"; "https://b.example"]).
  - discriminate.
  - repeat constructor; try discriminate; vm_compute; reflexivity.
  - reflexivity.
Defined.

(** ** [isOriginAllowed] and the CORS middleware *)

Lemma allowedAmong_In (allowedOrigins : list string) (origin : string) :
  allowedAmong allowedOrigins origin = true
  <-> In "*" allowedOrigins \/ In origin allowedOrigins.
Proof.
  induction allowedOrigins as [|allowed rest IH]; cbn [allowedAmong In].
  - intuition discriminate.
  - destruct (String.eqb_spec allowed "*") as [E1|E1];
      destruct (String.eqb_spec allowed origin) as [E2|E2]; cbn [orb];
      try (split; [auto | reflexivity]).
    rewrite IH; tauto.
Qed.

(** X5.  An origin is allowed exactly when it is in the list or the list
    has the wildcard, wherever in the list that is. *)
Theorem isOriginAllowed_spec (c : Config) (origin : string) :
  isOriginAllowed c origin = true
  <-> In "*" (AllowedOrigins c) \/ In origin (AllowedOrigins c).
Proof. apply allowedAmong_In. Qed.

Lemma wildcardAlone_allowed (config : Config) (origin : string) :
  wildcardAlone config = true -> isOriginAllowed config origin = true.
Proof.
  unfold wildcardAlone, isOriginAllowed.
  destruct (AllowedOrigins config) as [|first rest]; cbn [allowedAmong].
  - rewrite andb_false_r; discriminate.
  - intros H; apply andb_true_iff in H as [_ ->]; reflexivity.
Qed.

Lemma Get_Del_same (key : string) (h : gin.Headers) :
  gin.Get key (gin.Del key h) = "".
Proof.
  induction h as [|[k v] h IH]; [reflexivity|].
  unfold gin.Del in *; cbn [filter fst].
  destruct (String.eqb_spec k key) as [E|E]; cbn [negb]; [exact IH|].
  cbn [gin.Get]; rewrite (proj2 (String.eqb_neq k key) E); exact IH.
Qed.

Lemma Get_Del_other (key other : string) (h : gin.Headers) :
  other <> key -> gin.Get key (gin.Del other h) = gin.Get key h.
Proof.
  intros Hne; induction h as [|[k v] h IH]; [reflexivity|].
  unfold gin.Del in *; cbn [filter fst gin.Get].
  destruct (String.eqb_spec k other) as [E|E]; cbn [negb].
  - subst k; rewrite (proj2 (String.eqb_neq other key) Hne); exact IH.
  - cbn [gin.Get]; rewrite IH; reflexivity.
Qed.

Lemma Get_last (key k v : string) (h : gin.Headers) :
  gin.Get key ((h ++ [(k, v)])%list)
  = if hasHeader key h then gin.Get key h
    else if String.eqb k key then v else "".
Proof.
  induction h as [|[k' v'] h IH]; [reflexivity|].
  cbn [app gin.Get hasHeader existsb fst].
  destruct (String.eqb k' key); [reflexivity | exact IH].
Qed.

Lemma hasHeader_Del_same (key : string) (h : gin.Headers) :
  hasHeader key (gin.Del key h) = false.
Proof.
  induction h as [|[k v] h IH]; [reflexivity|].
  unfold gin.Del in *; cbn [filter fst].
  destruct (String.eqb k key) eqn:E; cbn [negb]; [exact IH|].
  cbn [hasHeader existsb fst]; rewrite E; exact IH.
Qed.

Lemma Get_absent (key : string) (h : gin.Headers) :
  hasHeader key h = false -> gin.Get key h = "".
Proof.
  induction h as [|[k v] h IH]; [reflexivity|].
  cbn [hasHeader existsb fst gin.Get].
  destruct (String.eqb k key); [discriminate | exact IH].
Qed.

(** A header that is set has the value it was set to. *)
Lemma Get_Header_same (key value : string) (h : gin.Headers) :
  gin.Get key (gin.Header key value h) = value.
Proof.
  unfold gin.Header.
  destruct (String.eqb_spec value "") as [->|E]; [apply Get_Del_same|].
  rewrite Get_last, hasHeader_Del_same, String.eqb_refl; reflexivity.
Qed.

(** Setting a header leaves the others as they are. *)
Lemma Get_Header_other (key other value : string) (h : gin.Headers) :
  other <> key -> gin.Get key (gin.Header other value h) = gin.Get key h.
Proof.
  intros Hne; unfold gin.Header.
  destruct (String.eqb value ""); [apply Get_Del_other, Hne|].
  rewrite Get_last, (proj2 (String.eqb_neq other key) Hne).
  rewrite (Get_Del_other key other h Hne).
  destruct (hasHeader key (gin.Del other h)) eqn:E; [reflexivity|].
  rewrite <- (Get_Del_other key other h Hne); symmetry.
  apply Get_absent, E.
Qed.

Ltac other_header :=
  rewrite Get_Header_other by (unfold AllowOrigin, AllowCredentials,
                               AllowMethods, AllowHeaders; discriminate).

Lemma wildcardAlone_spec (config : Config) :
  wildcardAlone config = true <-> AllowedOrigins config = ["*"].
Proof.
  unfold wildcardAlone.
  destruct (AllowedOrigins config) as [|first [|second rest]];
    cbn [length Nat.eqb andb].
  - split; discriminate.
  - destruct (String.eqb_spec first "*") as [->|E]; split; try reflexivity;
      try discriminate.
    intros H; inversion H; contradiction.
  - split; discriminate.
Qed.

(** An allowed origin is written back, with credentials allowed. *)
Lemma cors_allowed (config : Config) (origin method : string)
    (h : gin.Headers) :
  origin <> "" -> isOriginAllowed config origin = true ->
  let h' := fst (corsMiddleware config origin method h) in
  gin.Get AllowOrigin h' = origin /\ gin.Get AllowCredentials h' = "true".
Proof.
  intros Hne Hallowed; cbv zeta; unfold corsMiddleware.
  rewrite (proj2 (nonEmpty_true origin) Hne), Hallowed.
  destruct (String.eqb method "OPTIONS"); cbn [fst];
    repeat other_header; fold AllowOrigin AllowCredentials;
    rewrite ?Get_Header_same; repeat other_header;
    rewrite ?Get_Header_same; split; reflexivity.
Qed.

(** For an origin that is not allowed both headers are left alone. *)
Lemma cors_refused (config : Config) (origin method : string)
    (h : gin.Headers) :
  origin <> "" -> isOriginAllowed config origin = false ->
  let h' := fst (corsMiddleware config origin method h) in
  gin.Get AllowOrigin h' = gin.Get AllowOrigin h
  /\ gin.Get AllowCredentials h' = gin.Get AllowCredentials h.
Proof.
  intros Hne Hallowed; cbv zeta; unfold corsMiddleware.
  rewrite (proj2 (nonEmpty_true origin) Hne), Hallowed.
  destruct (wildcardAlone config) eqn:Hw.
  { rewrite (wildcardAlone_allowed config origin Hw) in Hallowed;
      discriminate. }
  destruct (String.eqb method "OPTIONS"); cbn [fst];
    repeat other_header; split; reflexivity.
Qed.

(** Without an origin credentials are left alone. *)
Lemma cors_absent_credentials (config : Config) (method : string)
    (h : gin.Headers) :
  gin.Get AllowCredentials (fst (corsMiddleware config "" method h))
  = gin.Get AllowCredentials h.
Proof.
  unfold corsMiddleware; cbn [nonEmpty String.eqb negb].
  destruct (wildcardAlone config), (String.eqb method "OPTIONS"); cbn [fst];
    repeat other_header; reflexivity.
Qed.

(** X6.  For a request that names its origin: an allowed origin is
    written back as the allowed origin, with credentials allowed; for any
    other origin the middleware leaves both headers as they were, so the
    wildcard is never the answer to a named origin. *)
Theorem cors_origin_present (config : Config) (origin method : string)
    (h : gin.Headers) :
  origin <> "" ->
  let h' := fst (corsMiddleware config origin method h) in
  (isOriginAllowed config origin = true ->
   gin.Get AllowOrigin h' = origin /\ gin.Get AllowCredentials h' = "true")
  /\ (isOriginAllowed config origin = false ->
      gin.Get AllowOrigin h' = gin.Get AllowOrigin h
      /\ gin.Get AllowCredentials h' = gin.Get AllowCredentials h).
Proof.
  intros Hne; cbv zeta; split; intros Hallowed.
  - apply cors_allowed; assumption.
  - apply cors_refused; assumption.
Qed.

Lemma cors_origin_present_witness :
  let config := mkConfig ["https://a.example"] ":5465" in
  gin.Get AllowOrigin
    (fst (corsMiddleware config "https://a.example" "POST" [])) 
  = "https://a.example"
  /\ gin.Get AllowOrigin
       (fst (corsMiddleware config "https://b.example" "POST" [])) = "".
Proof.
  cbv zeta; split.
  - apply (proj1 (cors_origin_present (mkConfig ["https://a.example"] ":5465")
                    "https://a.example" "POST" [] ltac:(discriminate)));
      reflexivity.
  - apply (proj2 (cors_origin_present (mkConfig ["https://a.example"] ":5465")
                    "https://b.example" "POST" [] ltac:(discriminate)));
      reflexivity.
Defined.

(** X7.  For a request without an origin: the allowed origin is the
    wildcard when the wildcard is the only entry of the list, and is left
    as it was otherwise, also when the wildcard is one of several
    entries; credentials are never allowed. *)
Theorem cors_origin_absent (config : Config) (method : string)
    (h : gin.Headers) :
  let h' := fst (corsMiddleware config "" method h) in
  (AllowedOrigins config = ["*"] -> gin.Get AllowOrigin h' = "*")
  /\ (AllowedOrigins config <> ["*"] ->
      gin.Get AllowOrigin h' = gin.Get AllowOrigin h)
  /\ gin.Get AllowCredentials h' = gin.Get AllowCredentials h.
Proof.
  cbv zeta; unfold corsMiddleware; cbn [nonEmpty String.eqb negb].
  destruct (wildcardAlone config) eqn:Hw.
  - apply wildcardAlone_spec in Hw.
    split; [intros _ | split; [contradiction|]];
      destruct (String.eqb method "OPTIONS"); cbn [fst];
      repeat other_header; fold AllowOrigin;
      rewrite ?Get_Header_same; reflexivity.
  - assert (Hnot : AllowedOrigins config <> ["*"]).
    { intros E; apply wildcardAlone_spec in E; congruence. }
    split; [contradiction | split; [intros _|]];
      destruct (String.eqb method "OPTIONS"); cbn [fst];
      repeat other_header; reflexivity.
Qed.

Lemma cors_origin_absent_witness :
  gin.Get AllowOrigin (fst (corsMiddleware (mkConfig ["*"] ":5465") "" "GET" []))
  = "*"
  /\ gin.Get AllowOrigin
       (fst (corsMiddleware (mkConfig ["*"; "https://a.example"] ":5465")
                            "" "GET" [])) = "".
Proof.
  split.
  - apply (proj1 (cors_origin_absent (mkConfig ["*"] ":5465") "GET" []));
      reflexivity.
  - apply (proj1 (proj2 (cors_origin_absent
                           (mkConfig ["*"; "https://a.example"] ":5465")
                           "GET" []))); discriminate.
Defined.

(** X8.  Whatever the origin and the configuration, the middleware sets
    the allowed methods and the allowed headers, answers a preflight
    request itself with status 204 and passes every other request on; no
    header other than its four is changed. *)
Theorem cors_preflight (config : Config) (origin method : string)
    (h : gin.Headers) :
  let after := corsMiddleware config origin method h in
  gin.Get AllowMethods (fst after) = "GET, POST, OPTIONS"
  /\ gin.Get AllowHeaders (fst after) = "Content-Type, Authorization"
  /\ snd after = (if String.eqb method "OPTIONS" then gin.Abort 204
                  else gin.Next)
  /\ forall key,
       ~ In key [AllowOrigin; AllowCredentials; AllowMethods; AllowHeaders] ->
       gin.Get key (fst after) = gin.Get key h.
Proof.
  cbv zeta.
  assert (Hfst : forall m,
             fst (corsMiddleware config origin m h)
             = fst (corsMiddleware config origin "GET" h)).
  { intros m; unfold corsMiddleware.
    destruct (String.eqb m "OPTIONS"); reflexivity. }
  rewrite (Hfst method).
  split; [|split; [|split]].
  - unfold corsMiddleware; cbn [String.eqb Ascii.eqb Bool.eqb fst].
    other_header; apply Get_Header_same.
  - unfold corsMiddleware; cbn [String.eqb Ascii.eqb Bool.eqb fst].
    apply Get_Header_same.
  - unfold corsMiddleware; destruct (String.eqb method "OPTIONS");
      reflexivity.
  - intros key Hkey.
    assert (Hother : forall name value h0,
               In name [AllowOrigin; AllowCredentials; AllowMethods;
                        AllowHeaders] ->
               gin.Get key (gin.Header name value h0) = gin.Get key h0).
    { intros name value h0 Hin; apply Get_Header_other.
      intros ->; apply Hkey, Hin. }
    unfold corsMiddleware; cbn [String.eqb Ascii.eqb Bool.eqb fst].
    rewrite (Hother "Access-Control-Allow-Headers") by (cbn; tauto).
    rewrite (Hother "Access-Control-Allow-Methods") by (cbn; tauto).
    destruct (nonEmpty origin), (isOriginAllowed config origin),
      (wildcardAlone config);
      rewrite ?(Hother "Access-Control-Allow-Credentials") by (cbn; tauto);
      rewrite ?(Hother "Access-Control-Allow-Origin") by (cbn; tauto);
      reflexivity.
Qed.

Lemma cors_preflight_witness :
  gin.Get "X-Request-Id"
    (fst (corsMiddleware (mkConfig ["*"] ":5465") "https://a.example" "OPTIONS"
                         [("X-Request-Id", "7")]))
  = "7".
Proof.
  apply (proj2 (proj2 (proj2 (cors_preflight (mkConfig ["*"] ":5465")
                                "https://a.example" "OPTIONS"
                                [("X-Request-Id", "7")])))).
  cbn; intros [E|[E|[E|[E|[]]]]]; discriminate E.
Defined.

(** X9.  With [ALLOWED_ORIGINS] read by [NewConfig]: a request that
    names an origin of the list, or any origin when the list has the
    wildcard, gets that origin back with credentials allowed; a request
    that names another origin gets no allowed origin. *)
Theorem configured_origins_served (getenv : Env) (origins : list string)
    (origin method : string) :
  origins <> [] -> Forall cleanOrigin origins ->
  getenv "ALLOWED_ORIGINS" = joinOrigins origins ->
  origin <> "" ->
  let h' := fst (corsMiddleware (NewConfig getenv) origin method []) in
  (In "*" origins \/ In origin origins ->
   gin.Get AllowOrigin h' = origin /\ gin.Get AllowCredentials h' = "true")
  /\ (~ (In "*" origins \/ In origin origins) ->
      gin.Get AllowOrigin h' = "" /\ gin.Get AllowCredentials h' = "").
Proof.
  intros Hne Hclean Henv Horigin; cbv zeta.
  assert (Hread : AllowedOrigins (NewConfig getenv) = origins).
  { unfold NewConfig; cbn [AllowedOrigins]; rewrite Henv.
    destruct origins as [|first rest]; [contradiction|].
    destruct (collectOrigins_join first rest Hclean) as [-> ->]; reflexivity. }
  pose proof (allowedAmong_In (AllowedOrigins (NewConfig getenv)) origin)
    as Hspec.
  fold (isOriginAllowed (NewConfig getenv) origin) in Hspec.
  rewrite Hread in Hspec.
  split.
  - intros Hin; apply cors_allowed; [exact Horigin | apply Hspec, Hin].
  - intros Hout.
    apply (cors_refused (NewConfig getenv) origin method [] Horigin).
    destruct (isOriginAllowed (NewConfig getenv) origin); [|reflexivity].
    exfalso; apply Hout, Hspec; reflexivity.
Qed.

Lemma configured_origins_served_witness :
  let h' := fst (corsMiddleware (NewConfig (originsEnv "https://a.example, *"))
                                "https://evil.example" "POST" []) in
  gin.Get AllowOrigin h' = "https://evil.example"
  /\ gin.Get AllowCredentials h' = "true".
Proof.
  cbv zeta.
  apply (proj1 (configured_origins_served
                  (originsEnv "https://a.example, *")
                  ["https://a.example"; "*"] "https://evil.example" "POST"
                  ltac:(discriminate)
                  ltac:(repeat constructor; try discriminate;
                        vm_compute; reflexivity)
                  eq_refl ltac:(discriminate))).
  left; right; left; reflexivity.
Defined.

(** X10.  On a response without headers the middleware never allows
    credentials together with the wildcard origin, unless the request
    itself names the origin [*]. *)
Theorem cors_no_wildcard_with_credentials (config : Config)
    (origin method : string) :
  origin <> "*" ->
  let h' := fst (corsMiddleware config origin method []) in
  ~ (gin.Get AllowOrigin h' = "*" /\ gin.Get AllowCredentials h' = "true").
Proof.
  intros Hstar; cbv zeta; intros [Ho Hc].
  destruct (String.eqb_spec origin "") as [->|Hne].
  - rewrite cors_absent_credentials in Hc; discriminate Hc.
  - destruct (isOriginAllowed config origin) eqn:Hallowed.
    + destruct (cors_allowed config origin method [] Hne Hallowed) as [E _].
      rewrite E in Ho; contradiction.
    + destruct (cors_refused config origin method [] Hne Hallowed) as [_ E].
      rewrite E in Hc; discriminate Hc.
Qed.

Lemma cors_no_wildcard_with_credentials_witness :
  let h' := fst (corsMiddleware (mkConfig ["*"] ":5465") "https://a.example"
                                "GET" []) in
  ~ (gin.Get AllowOrigin h' = "*" /\ gin.Get AllowCredentials h' = "true").
Proof.
  apply (cors_no_wildcard_with_credentials (mkConfig ["*"] ":5465")
           "https://a.example" "GET"); discriminate.
Defined.

(** ** [truncateString] *)

(** X11.  For a bound that is not negative [truncateString] returns: the
    text itself when it fits, and otherwise its first [maxLen] bytes and
    three dots, which is [maxLen + 3] bytes and so up to three bytes more
    than the bound, and longer than the text when that is less than three
    bytes over the bound. *)
Theorem truncateString_length (s : string) (maxLen : Z) :
  (0 <= maxLen)%Z ->
  exists t,
    truncateString s maxLen = Ok t
    /\ take (Z.to_nat maxLen) t = take (Z.to_nat maxLen) s
    /\ ((Z.of_nat (String.length s) <= maxLen)%Z -> t = s)
    /\ ((maxLen < Z.of_nat (String.length s))%Z ->
        t = take (Z.to_nat maxLen) s ++ "..."
        /\ Z.of_nat (String.length t) = (maxLen + 3)%Z).
Proof.
  intros Hpos; unfold truncateString.
  destruct (Z.leb_spec (Z.of_nat (String.length s)) maxLen) as [Hfit|Hlong].
  - exists s; repeat split; auto; lia.
  - destruct (Z.ltb_spec maxLen 0) as [Hneg|_]; [lia|].
    exists (take (Z.to_nat maxLen) s ++ "...").
    assert (Hlen : String.length (take (Z.to_nat maxLen) s) = Z.to_nat maxLen).
    { rewrite length_take; lia. }
    split; [reflexivity|]; split; [|split; [lia|]].
    + rewrite <- Hlen at 1; apply take_append.
    + intros _; split; [reflexivity|].
      rewrite length_append, Hlen; simpl String.length; lia.
Qed.

Lemma truncateString_length_witness :
  truncateString "abcdef" 4 = Ok "abcd..."
  /\ truncateString "abcd" 4 = Ok "abcd".
Proof.
  destruct (truncateString_length "abcdef" 4 ltac:(lia))
    as (t & Ht & _ & _ & Hlong).
  destruct (truncateString_length "abcd" 4 ltac:(lia))
    as (u & Hu & _ & Hfit & _).
  rewrite Ht, Hu.
  rewrite (proj1 (Hlong ltac:(simpl; lia))), (Hfit ltac:(simpl; lia)).
  split; reflexivity.
Defined.

(** X12.  For a negative bound [truncateString] panics on every text,
    the empty one included: nothing fits, and the slice has a negative
    end. *)
Theorem truncateString_negative (s : string) (maxLen : Z) :
  (maxLen < 0)%Z ->
  truncateString s maxLen
  = Fail ("runtime error: slice bounds out of range [:"
          ++ strconv.Itoa maxLen ++ "]").
Proof.
  intros Hneg; unfold truncateString.
  destruct (Z.leb_spec (Z.of_nat (String.length s)) maxLen) as [Hfit|_];
    [lia|].
  destruct (Z.ltb_spec maxLen 0) as [_|Hpos]; [reflexivity | lia].
Qed.

Lemma truncateString_negative_witness :
  truncateString "" (-1) = Fail "runtime error: slice bounds out of range [:-1]".
Proof. apply (truncateString_negative "" (-1)); lia. Defined.

(** X13.  Truncating what was truncated to the same bound changes
    nothing. *)
Theorem truncateString_idempotent (s t : string) (maxLen : Z) :
  truncateString s maxLen = Ok t -> truncateString t maxLen = Ok t.
Proof.
  unfold truncateString.
  destruct (Z.leb_spec (Z.of_nat (String.length s)) maxLen) as [Hfit|Hlong].
  - intros E; injection E as <-.
    destruct (Z.leb_spec (Z.of_nat (String.length s)) maxLen); [reflexivity|lia].
  - destruct (Z.ltb_spec maxLen 0) as [Hneg|Hpos]; [discriminate|].
    intros E; injection E as <-.
    assert (Hlen : String.length (take (Z.to_nat maxLen) s) = Z.to_nat maxLen).
    { rewrite length_take; lia. }
    destruct (Z.leb_spec
                (Z.of_nat (String.length (take (Z.to_nat maxLen) s ++ "...")))
                maxLen) as [Hfit|_].
    { rewrite length_append, Hlen in Hfit; simpl String.length in Hfit; lia. }
    destruct (Z.ltb_spec maxLen 0) as [Hneg|_]; [lia|].
    rewrite <- Hlen at 1; rewrite take_append; reflexivity.
Qed.

Lemma truncateString_idempotent_witness :
  truncateString "abcd..." 4 = Ok "abcd...".
Proof. apply (truncateString_idempotent "abcdef" "abcd..." 4); reflexivity. Defined.

(** ** What [extractMetadata] writes *)

Section GroupFacts.
Context {A : Type}.

Lemma star_inv_run (k : regexp.class) (s : string) (cont : string -> option A)
    (a : A) :
  regexp.star k s cont = Some a ->
  exists g t, s = g ++ t /\ string_all (regexp.accepts k) g = true
              /\ cont t = Some a.
Proof.
  induction s as [|c s IH]; cbn [regexp.star]; intros H.
  - exists "", ""; auto.
  - destruct (regexp.accepts k c) eqn:Ec.
    + destruct (regexp.star k s cont) as [a'|] eqn:E.
      * destruct (IH H) as (g & t & -> & Hg & Hc).
        exists (String c g), t; cbn [append string_all]; rewrite Ec; auto.
      * exists "", (String c s); auto.
    + exists "", (String c s); auto.
Qed.

(** The group that a successful run hands on is the one it started with
    or a run of bytes of the class of a group of the pattern. *)
Lemma run_inv_group (p : ascii -> bool) (r : regexp.Regexp) :
  groupsWithin p r ->
  forall (s : string) (cap : option string)
         (cont : string -> option string -> option A) (a : A),
    regexp.run r s cap cont = Some a ->
    exists t cap',
      cont t cap' = Some a
      /\ (cap' = cap \/ exists g, cap' = Some g /\ string_all p g = true).
Proof.
  induction r as [|k|k|r1 IH1 r2 IH2|r1 IH1]; intros Hr s cap cont a H.
  - exists s, cap; auto.
  - cbn [regexp.run] in H; destruct s as [|c s]; [discriminate|].
    destruct (regexp.accepts k c); [|discriminate].
    exists s, cap; auto.
  - cbn [regexp.run] in H; apply star_inv in H as (t & _ & Hc).
    exists t, cap; auto.
  - destruct Hr as [Hr1 Hr2]; cbn [regexp.run] in H.
    apply (IH1 Hr1) in H as (t1 & cap1 & H & Hcap1).
    apply (IH2 Hr2) in H as (t & cap' & H & Hcap).
    exists t, cap'; split; [exact H|].
    destruct Hcap as [->|Hg]; [exact Hcap1 | right; exact Hg].
  - destruct r1 as [|k|k|r1 r2|r1]; try contradiction.
    cbn [groupsWithin] in Hr; cbn [regexp.run] in H.
    apply star_inv_run in H as (g & t & -> & Hg & H).
    rewrite consumed_append in H.
    exists t, (Some g); split; [exact H|].
    right; exists g; split; [reflexivity|].
    eapply string_all_impl; [exact Hr | exact Hg].
Qed.

End GroupFacts.

Lemma FindStringSubmatch_group (p : ascii -> bool) (r : regexp.Regexp)
    (s : string) :
  groupsWithin p r ->
  match regexp.FindStringSubmatch r s with
  | _ :: g :: _ => string_all p g = true
  | _ => True
  end.
Proof.
  intros Hr; induction s as [|c s IH]; cbn [regexp.FindStringSubmatch].
  - destruct (regexp.matchAt r "") as [[t cap]|] eqn:E; [|exact I].
    unfold regexp.matchAt in E.
    apply (run_inv_group p r Hr) in E as (t' & cap' & E & Hcap).
    injection E as -> ->.
    destruct Hcap as [->|(g & -> & Hg)]; [reflexivity | exact Hg].
  - destruct (regexp.matchAt r (String c s)) as [[t cap]|] eqn:E; [|exact IH].
    unfold regexp.matchAt in E.
    apply (run_inv_group p r Hr) in E as (t' & cap' & E & Hcap).
    injection E as -> ->.
    destruct Hcap as [->|(g & -> & Hg)]; [reflexivity | exact Hg].
Qed.

(** What [extractTag] returns is made of bytes of the class of the
    group. *)
Lemma extractTag_group (p : ascii -> bool) (r : regexp.Regexp) (html : string) :
  groupsWithin p r -> string_all p (extractTag html r) = true.
Proof.
  intros Hr; unfold extractTag.
  pose proof (FindStringSubmatch_group p r html Hr) as H.
  destruct (regexp.FindStringSubmatch r html) as [|w [|g rest]];
    [reflexivity | reflexivity | exact H].
Qed.

Lemma groupsWithin_Literal (p : ascii -> bool) (w : string) :
  groupsWithin p (regexp.Literal w).
Proof. induction w as [|c w IH]; cbn; auto. Qed.

Lemma notQuote_class (c : ascii) :
  regexp.accepts notQuote c = true -> notQuoteByte c = true.
Proof.
  unfold notQuoteByte; cbn; rewrite orb_false_r, negb_orb; auto.
Qed.

Lemma notLt_class (c : ascii) :
  regexp.accepts notLt c = true -> notLtByte c = true.
Proof. unfold notLtByte; cbn; rewrite orb_false_r; auto. Qed.

Lemma titlePattern_group : groupsWithin notLtByte titlePattern.
Proof.
  unfold titlePattern; cbn [regexp.Seq groupsWithin].
  repeat split; auto using groupsWithin_Literal, notLt_class.
Qed.

Lemma metaPattern_group (marker key : string) :
  groupsWithin notQuoteByte (markerFirst marker key)
  /\ groupsWithin notQuoteByte (contentFirst marker key).
Proof.
  unfold markerFirst, contentFirst, markerPart, valuePart;
    cbn [regexp.Seq groupsWithin].
  repeat split; auto using groupsWithin_Literal, notQuote_class.
Qed.

Lemma extractMetaContent_notQuote (html key : string) :
  string_all notQuoteByte (extractMetaContent html key) = true.
Proof.
  unfold extractMetaContent; cbv zeta.
  split_guards; apply extractTag_group; apply metaPattern_group.
Qed.

Lemma TrimSpace_all (p : ascii -> bool) (s : string) :
  string_all p s = true -> string_all p (strings.TrimSpace s) = true.
Proof. apply string_all_infix, TrimSpace_infix. Qed.

(** X14.  No description, image or site name that [extractMetadata]
    writes has a quote character in it, of either kind, and a title that
    it writes has no quote character or no [<]: each field is as it was,
    or free of these bytes. *)
Theorem extracted_values_delimited
    (htmlContent : string) (result : LinkPreviewResponse) :
  let after := extractMetadata htmlContent result in
  (Title after = Title result
   \/ string_all notQuoteByte (Title after) = true
   \/ string_all notLtByte (Title after) = true)
  /\ (Description after = Description result
      \/ string_all notQuoteByte (Description after) = true)
  /\ (Image after = Image result
      \/ string_all notQuoteByte (Image after) = true)
  /\ (SiteName after = SiteName result
      \/ string_all notQuoteByte (SiteName after) = true).
Proof.
  cbv zeta.
  rewrite extractMetadata_Title, extractMetadata_Description,
    extractMetadata_Image, extractMetadata_SiteName; cbv zeta.
  repeat split; split_guards; auto;
    try (right; apply TrimSpace_all, extractMetaContent_notQuote);
    try (right; left; apply TrimSpace_all, extractMetaContent_notQuote).
  right; right; apply TrimSpace_all, extractTag_group, titlePattern_group.
Qed.

(** X15.  Every value that [extractMetadata] writes has no white space
    around it: each field is as it was, or is left unchanged by
    [strings.TrimSpace]. *)
Theorem extracted_values_trimmed
    (htmlContent : string) (result : LinkPreviewResponse) :
  let after := extractMetadata htmlContent result in
  (Title after = Title result
   \/ strings.TrimSpace (Title after) = Title after)
  /\ (Description after = Description result
      \/ strings.TrimSpace (Description after) = Description after)
  /\ (Image after = Image result
      \/ strings.TrimSpace (Image after) = Image after)
  /\ (SiteName after = SiteName result
      \/ strings.TrimSpace (SiteName after) = SiteName after).
Proof.
  cbv zeta.
  rewrite extractMetadata_Title, extractMetadata_Description,
    extractMetadata_Image, extractMetadata_SiteName; cbv zeta.
  repeat split; split_guards; auto; right; apply TrimSpace_idempotent.
Qed.

Lemma Contains_cons (c : ascii) (s sub : string) :
  strings.Contains (String c s) sub = false ->
  String.prefix sub (String c s) = false /\ strings.Contains s sub = false.
Proof.
  unfold strings.Contains; cbn [strings.Index].
  destruct (String.prefix sub (String c s)); [discriminate|].
  destruct (strings.Index s sub); [discriminate | auto].
Qed.

(** A pattern that starts with the literal [w] finds nothing in a text
    in which [w] does not occur. *)
Lemma FindStringSubmatch_absent (w : string) (r : regexp.Regexp) (s : string) :
  w <> "" ->
  (forall s, String.prefix w s = false -> regexp.matchAt r s = None) ->
  strings.Contains s w = false ->
  regexp.FindStringSubmatch r s = [].
Proof.
  intros Hw Hr; induction s as [|c s IH]; intros Hs.
  - cbn [regexp.FindStringSubmatch]; rewrite Hr; [reflexivity|].
    destruct w; [contradiction | reflexivity].
  - apply Contains_cons in Hs as [Hp Hs].
    rewrite FindStringSubmatch_miss; [apply IH, Hs | apply Hr, Hp].
Qed.

Lemma extractMetaContent_absent (html key : string) :
  strings.Contains html "<meta" = false -> extractMetaContent html key = "".
Proof.
  intros H; unfold extractMetaContent, extractTag.
  rewrite !(FindStringSubmatch_absent "<meta");
    try exact H; try discriminate;
    try apply markerFirst_needsMeta; try apply contentFirst_needsMeta.
  reflexivity.
Qed.

(** X16.  A document in which the text [<meta] does not occur, in any
    letter case, gives no description, image or site name, and its title
    can only come from the title element; when the text [<title] does not
    occur in it either, in lower case, the record is left as it was. *)
Theorem extractMetadata_without_tags
    (htmlContent : string) (result : LinkPreviewResponse) :
  strings.Contains (strings.ToLower htmlContent) "<meta" = false ->
  let after := extractMetadata htmlContent result in
  Description after = Description result
  /\ Image after = Image result
  /\ SiteName after = SiteName result
  /\ Title after
     = (if nonEmpty (extractTag htmlContent titlePattern)
        then strings.TrimSpace (extractTag htmlContent titlePattern)
        else Title result)
  /\ (strings.Contains htmlContent "<title" = false -> after = result).
Proof.
  intros Hmeta; cbv zeta.
  rewrite extractMetadata_Title, extractMetadata_Description,
    extractMetadata_Image, extractMetadata_SiteName; cbv zeta.
  rewrite !(extractMetaContent_absent _ _ Hmeta); cbn [nonEmpty String.eqb negb].
  repeat split.
  intros Htitle; unfold extractMetadata, extractFields; cbv zeta.
  rewrite !(extractMetaContent_absent _ _ Hmeta).
  unfold extractTag.
  rewrite (FindStringSubmatch_absent "<title" titlePattern htmlContent);
    [reflexivity | discriminate | apply titlePattern_needsTitle | exact Htitle].
Qed.

Lemma extractMetadata_without_tags_witness :
  extractMetadata "Plain text, 1 < 2, no tags."
                  (mkPreview "u" "t" "d" "i" "s" "")
  = mkPreview "u" "t" "d" "i" "s" "".
Proof.
  apply (extractMetadata_without_tags "Plain text, 1 < 2, no tags."
           (mkPreview "u" "t" "d" "i" "s" "")); reflexivity.
Defined.

Lemma blank_plain (s : string) :
  blank s = true -> string_all plainByte s = true.
Proof.
  apply string_all_impl; intros c Hc.
  destruct c as [[] [] [] [] [] [] [] []]; try discriminate Hc; reflexivity.
Qed.

Lemma blank_ToLower (s : string) : blank s = true -> blank (strings.ToLower s) = true.
Proof.
  unfold blank; induction s as [|c s IH]; [reflexivity|].
  cbn [string_all strings.ToLower]; intros H.
  apply andb_true_iff in H as [Hc Hs].
  change (strings.ToLower (String c s))
    with (String (byte.toLower c) (strings.ToLower s)).
  cbn [string_all]; rewrite (IH Hs), andb_true_r.
  destruct c as [[] [] [] [] [] [] [] []]; try discriminate Hc; reflexivity.
Qed.

(** X17.  An Open Graph title or description that is white space alone
    is taken, and trimmed to nothing: the title of the title element and
    the generic description are then lost, and the field is empty. *)
Theorem blank_social_value_erases
    (text generic social : string) (result : LinkPreviewResponse) :
  string_all notLtByte text = true ->
  string_all plainByte generic = true ->
  blank social = true -> social <> "" ->
  Title (extractMetadata ("<title>" ++ text ++ "</title>"
                          ++ metaTag "property" "og:title" social) result)
  = ""
  /\ Description
       (extractMetadata (metaTag "name" "description" generic
                         ++ metaTag "property" "og:description" social)
                        result)
     = "".
Proof.
  intros Htext Hgeneric Hblank Hne.
  rewrite (title_both text social result Htext (blank_plain _ Hblank) Hne).
  rewrite (description_both generic social result Hgeneric
             (blank_plain _ Hblank) Hne).
  rewrite (TrimSpace_blank _ (blank_ToLower _ Hblank)); split; reflexivity.
Qed.

Lemma blank_social_value_erases_witness :
  Title (extractMetadata ("<title>" ++ "Good title" ++ "</title>"
                          ++ metaTag "property" "og:title" " ")
                         (mkPreview "" "kept?" "" "" "" ""))
  = "".
Proof.
  apply (proj1 (blank_social_value_erases "Good title" "" " "
                  (mkPreview "" "kept?" "" "" "" "")
                  eq_refl eq_refl eq_refl ltac:(discriminate))).
Defined.

(** ** The requests of [FetchLinkPreview] *)

(** X18.  [FetchLinkPreview] ends without an error exactly when it
    called the client, the client answered with status 200 and the body
    was read to its end or to the limit; its result is then what
    [extractMetadata] makes of the body read, for the URL requested. *)
Theorem FetchLinkPreview_success (client : http.Client) (targetURL : string) :
  let run := FetchLinkPreview client targetURL in
  let read (resp : http.Response) :=
    io.ReadAll (io.LimitReader (http.Body resp) (1024 * 1024)) in
  (Error (fst run) = ""
   <-> exists resp,
         snd run = [URL (fst run)]
         /\ client (URL (fst run)) = Ok resp
         /\ http.StatusCode resp = 200%Z
         /\ snd (read resp) = None)
  /\ (forall resp,
         snd run = [URL (fst run)] -> client (URL (fst run)) = Ok resp ->
         Error (fst run) = "" ->
         fst run
         = extractMetadata (fst (read resp))
                           (mkPreview (URL (fst run)) "" "" "" "" "")).
Proof.
  cbv zeta.
  pose proof (FetchLinkPreview_request client targetURL) as H; cbv zeta in H.
  destruct (requestURL targetURL) as [target|].
  - destruct H as (Hsnd & Hurl & Hfst).
    rewrite Hsnd, Hurl, Hfst; clear Hsnd Hurl Hfst.
    unfold afterRequest.
    destruct (client target) as [resp|err].
    + destruct (Z.eqb_spec (http.StatusCode resp) http.StatusOK) as [Hok|Hbad];
        cbn [negb].
      * destruct (io.ReadAll (io.LimitReader (http.Body resp) (1024 * 1024)))
          as [body [err|]] eqn:Hread.
        -- split.
           ++ split; [discriminate|].
              intros (resp' & _ & E & _ & Hnone).
              injection E as <-; rewrite Hread in Hnone; discriminate.
           ++ intros resp' _ _; discriminate.
        -- split.
           ++ split; [|intros _; apply extractMetadata_Error].
              intros _; exists resp; rewrite Hread; auto.
           ++ intros resp' _ E _; injection E as <-.
              rewrite Hread; reflexivity.
      * split.
        -- split; [discriminate|].
           intros (resp' & _ & E & Hcode & _).
           injection E as <-; contradiction.
        -- intros resp' _ _; discriminate.
    + split.
      * split; [discriminate | intros (resp' & _ & E & _); discriminate].
      * intros resp' _ E; discriminate.
  - destruct H as (Hsnd & Herr & _); rewrite Hsnd.
    split.
    + split; [contradiction | intros (resp' & E & _); discriminate].
    + intros resp' E; discriminate.
Qed.

Lemma FetchLinkPreview_success_witness :
  let client :=
    answering 200 "OK" (io.mkReader "<title>Example</title>" None) in
  Error (fst (FetchLinkPreview client "https://example.com")) = "".
Proof.
  cbv zeta.
  apply (proj2 (proj1 (FetchLinkPreview_success
                         (answering 200 "OK"
                            (io.mkReader "<title>Example</title>" None))
                         "https://example.com"))).
  eexists; repeat split; reflexivity.
Defined.

Lemma prefix_append (p s t : string) :
  String.prefix p s = true -> String.prefix p (s ++ t) = true.
Proof.
  revert s; induction p as [|c p IH]; intros s;
    [destruct s, t; reflexivity|].
  destruct s as [|d s]; [discriminate|].
  cbn [String.prefix append].
  destruct (ascii_dec c d); [apply IH | discriminate].
Qed.

Lemma prefix_split (p s : string) :
  String.prefix p s = true -> s = p ++ drop (String.length p) s.
Proof.
  revert s; induction p as [|c p IH]; intros s; [reflexivity|].
  destruct s as [|d s]; [discriminate|].
  cbn [String.prefix append].
  destruct (ascii_dec c d) as [<-|]; [|discriminate].
  intros H; cbn [String.length drop append]; f_equal; apply IH, H.
Qed.

(** A URL whose scheme is set to [https] is written out with [https:]
    in front. *)
Lemma String_https (u : url.URL) :
  String.prefix "https:" (url.String_ (url.withScheme "https" u)) = true.
Proof.
  unfold url.String_, url.withScheme;
    cbn [url.Scheme url.Opaque url.User url.Host url.Path url.RawPath
         url.OmitHost url.ForceQuery url.RawQuery url.Fragment
         url.RawFragment].
  change (nonEmpty "https") with true; cbv zeta; cbn [orb].
  change ("https" ++ ":") with "https:".
  repeat match goal with
         | |- String.prefix _ (if ?c then _ else _) = true => destruct c
         | |- String.prefix _ (_ ++ _) = true => apply prefix_append
         end; reflexivity.
Qed.

Lemma Cut_https (rest : string) :
  exists before,
    fst (fst (strings.Cut ("https:" ++ rest) "#")) = "https:" ++ before.
Proof.
  unfold strings.Cut.
  change (strings.Index ("https:" ++ rest) "#")
    with (option_map S (option_map S (option_map S (option_map S
           (option_map S (option_map S (strings.Index rest "#"))))))).
  destruct (strings.Index rest "#") as [i|]; cbn [option_map fst].
  - exists (take i rest); reflexivity.
  - exists rest; reflexivity.
Qed.

Ltac crack H :=
  unfold bind in H;
  repeat match type of H with
         | context [match ?x with _ => _ end] =>
             let E := fresh "E" in
             destruct x eqn:E; try discriminate H
         end.

(** A text that starts with [https:] is parsed, if at all, with the
    scheme [https]. *)
Lemma parse_https (rest : string) (viaRequest : bool) (u : url.URL) :
  url.parse ("https:" ++ rest) viaRequest = Ok u -> url.Scheme u = "https".
Proof.
  unfold url.parse.
  destruct (url.stringContainsCTLByte ("https:" ++ rest)); [discriminate|].
  change (String.eqb ("https:" ++ rest) "") with false.
  change (String.eqb ("https:" ++ rest) "*") with false.
  change (url.getScheme ("https:" ++ rest)) with (Ok ("https", rest)).
  cbn [andb bind]; change (strings.ToLower "https") with "https".
  change (nonEmpty "https") with true.
  intros H.
  crack H; injection H as <-; reflexivity.
Qed.

Lemma Parse_https (rawURL : string) (u : url.URL) :
  String.prefix "https:" rawURL = true ->
  url.Parse rawURL = Ok u -> url.Scheme u = "https".
Proof.
  intros Hp; rewrite (prefix_split _ _ Hp).
  set (rest := drop (String.length "https:") rawURL).
  unfold url.Parse.
  destruct (Cut_https rest) as (before & Hcut).
  destruct (strings.Cut ("https:" ++ rest) "#") as [[raw frag] found].
  cbn [fst] in Hcut; subst raw.
  destruct (url.parse ("https:" ++ before) false) as [parsed|err] eqn:Hparse;
    [|discriminate].
  apply parse_https in Hparse.
  destruct (String.eqb frag ""); [intros E; injection E as <-; exact Hparse|].
  destruct (url.setFragment frag) as [[fragment rawFragment]|err];
    [|discriminate].
  intros E; injection E as <-; exact Hparse.
Qed.

(** X19.  Every URL that [FetchLinkPreview] asks the client for is one
    that [net/url] parses with a scheme: the scheme of the target, or
    [https] when the target had none. *)
Theorem requests_have_scheme (client : http.Client) (targetURL req : string) :
  In req (snd (FetchLinkPreview client targetURL)) ->
  exists parsedURL,
    url.Parse req = Ok parsedURL /\ url.Scheme parsedURL <> ""
    /\ (forall target, url.Parse targetURL = Ok target ->
        url.Scheme parsedURL
        = if String.eqb (url.Scheme target) "" then "https"
          else url.Scheme target).
Proof.
  pose proof (FetchLinkPreview_request client targetURL) as H; cbv zeta in H.
  unfold requestURL in H.
  destruct (url.Parse targetURL) as [parsed|err] eqn:Hparse.
  - destruct (String.eqb_spec (url.Scheme parsed) "") as [Hnone|Hsome].
    + destruct (http.NewRequestWithContext _) as [r|err] eqn:Hreq.
      * destruct H as (-> & _); intros [<-|[]].
        pose proof (NewRequest_same _ _ Hreq) as ->.
        unfold http.NewRequestWithContext in Hreq.
        destruct (url.Parse (url.String_ (url.withScheme "https" parsed)))
          as [again|err] eqn:Hagain; [|discriminate].
        pose proof (Parse_https _ _ (String_https parsed) Hagain) as Hs.
        exists again; split; [reflexivity|].
        split; [rewrite Hs; discriminate|].
        intros target E; injection E as <-.
        rewrite Hnone; exact Hs.
      * destruct H as (-> & _); intros [].
    + destruct (http.NewRequestWithContext _) as [r|err] eqn:Hreq.
      * destruct H as (-> & _); intros [<-|[]].
        pose proof (NewRequest_same _ _ Hreq) as ->.
        exists parsed; split; [exact Hparse|]; split; [exact Hsome|].
        intros target E; injection E as <-.
        rewrite (proj2 (String.eqb_neq _ _) Hsome); reflexivity.
      * destruct H as (-> & _); intros [].
  - destruct H as (-> & _); intros [].
Qed.

Lemma requests_have_scheme_witness :
  exists parsedURL,
    url.Parse "https://example.com/about" = Ok parsedURL
    /\ url.Scheme parsedURL <> "".
Proof.
  destruct (requests_have_scheme offline "example.com/about"
              "https://example.com/about" ltac:(left; reflexivity))
    as (parsedURL & Hp & Hs & _).
  exists parsedURL; split; assumption.
Defined.

Lemma infix_length (g s : string) :
  infix_of g s -> String.length g <= String.length s.
Proof. intros (x & y & ->); rewrite !length_append; lia. Qed.

Lemma ToLower_length (s : string) :
  String.length (strings.ToLower s) = String.length s.
Proof.
  induction s as [|c s IH]; [reflexivity|].
  change (strings.ToLower (String c s))
    with (String (byte.toLower c) (strings.ToLower s)).
  cbn [String.length]; rewrite IH; reflexivity.
Qed.

Lemma LimitReader_length (r : io.Reader) (n : N) :
  (N.of_nat (String.length (fst (io.ReadAll (io.LimitReader r n)))) <= n)%N.
Proof.
  unfold io.ReadAll, io.LimitReader.
  destruct (N.ltb_spec (N.of_nat (String.length (io.data r))) n) as [H|H];
    cbn [fst io.data]; [lia|].
  rewrite length_take; lia.
Qed.

Lemma trimmed_piece_length (g html : string) :
  infix_of g html ->
  String.length (strings.TrimSpace g) <= String.length html.
Proof.
  intros H; apply infix_length.
  eapply infix_trans; [apply TrimSpace_infix | exact H].
Qed.

(** No field that [extractMetadata] writes is longer than the
    document. *)
Lemma extractMetadata_lengths (html : string) (result : LinkPreviewResponse) :
  let after := extractMetadata html result in
  (Title after = Title result
   \/ String.length (Title after) <= String.length html)
  /\ (Description after = Description result
      \/ String.length (Description after) <= String.length html)
  /\ (Image after = Image result
      \/ String.length (Image after) <= String.length html)
  /\ (SiteName after = SiteName result
      \/ String.length (SiteName after) <= String.length html).
Proof.
  cbv zeta.
  rewrite extractMetadata_Title, extractMetadata_Description,
    extractMetadata_Image, extractMetadata_SiteName; cbv zeta.
  repeat split; split_guards; auto; right;
    try (rewrite <- (ToLower_length html);
         apply trimmed_piece_length, extractMetaContent_infix).
  apply trimmed_piece_length, extractTag_infix.
Qed.

(** X20.  When the bodies that the client delivers are ASCII text, no
    metadata field of the result of [FetchLinkPreview] is longer than the
    limit of the body read, 1,048,576 bytes, whatever the client
    answers. *)
Theorem metadata_size_bound (client : http.Client) (targetURL field : string) :
  (forall req resp, client req = Ok resp ->
                    asciiText (io.data (http.Body resp)) = true) ->
  let result := fst (FetchLinkPreview client targetURL) in
  In field [Title result; Description result; Image result; SiteName result] ->
  (N.of_nat (String.length field) <= 1048576)%N.
Proof.
  intros _; cbv zeta.
  pose proof (FetchLinkPreview_request client targetURL) as H; cbv zeta in H.
  destruct (requestURL targetURL) as [target|].
  - destruct H as (_ & _ & ->); unfold afterRequest.
    destruct (client target) as [resp|err];
      [|cbn; intros [<-|[<-|[<-|[<-|[]]]]]; cbn; lia].
    destruct (negb _); [cbn; intros [<-|[<-|[<-|[<-|[]]]]]; cbn; lia|].
    pose proof (LimitReader_length (http.Body resp) (1024 * 1024)) as Hlimit.
    destruct (io.ReadAll _) as [body [err|]];
      [cbn; intros [<-|[<-|[<-|[<-|[]]]]]; cbn; lia|].
    cbn [fst] in Hlimit.
    destruct (extractMetadata_lengths body (setURL target zeroResponse))
      as (Ht & Hd & Hi & Hs).
    cbn [In]; intros [<-|[<-|[<-|[<-|[]]]]];
      match goal with
      | Hf : ?f _ = _ \/ _ |- (N.of_nat (String.length (?f _)) <= _)%N =>
          destruct Hf as [->|Hf]; [cbn; lia | lia]
      end.
  - destruct H as (_ & _ & u & e & ->).
    cbn; intros [<-|[<-|[<-|[<-|[]]]]]; cbn; lia.
Qed.

Lemma metadata_size_bound_witness :
  let result :=
    fst (FetchLinkPreview
           (answering 200 "OK" (io.mkReader "<title>Example</title>" None))
           "https://example.com") in
  (N.of_nat (String.length (Title result)) <= 1048576)%N.
Proof.
  cbv zeta.
  apply (metadata_size_bound
           (answering 200 "OK" (io.mkReader "<title>Example</title>" None))
           "https://example.com").
  - intros req resp E; injection E as <-; reflexivity.
  - left; reflexivity.
Defined.

(** ** The answers of [handleLinkPreview] *)

Lemma reachable_reply (outcome : LinkPreviewResponse) (s : handler.state) :
  handler.reachable outcome s -> reply_invariant outcome s.
Proof.
  induction 1 as [|s s' Hreach IH Hstep].
  - repeat split; cbn; intros; try discriminate; contradiction.
  - pose proof (reachable_invariant outcome s Hreach) as Hch.
    unfold channel_invariant, handler.capacity in Hch.
    destruct IH as (I1 & I2 & I3 & I4).
    assert (Hbusy : forall x, handler.cons s = handler.Replied x ->
                              handler.prod s = handler.Exited).
    { intros x Hx; apply (I3 x Hx). }
    unfold reply_invariant.
    destruct Hstep as [Hp|Hc|Hx].
    + destruct Hp as [ch d c|r ch d|r ch d c Hc Hlen|r ch c];
        cbn [handler.prod handler.resultChan handler.cons handler.done] in *.
      * split; [intros x E; injection E as <-; reflexivity|].
        split; [exact I2|]; split; [|exact I4].
        intros x Hx; discriminate (Hbusy x Hx).
      * split; [discriminate|]; split; [exact I2|]; split; [|discriminate].
        intros x E; injection E as <-.
        split; [apply I1; reflexivity | auto].
      * split; [discriminate|]; subst ch.
        split; [intros x [<-|[]]; apply I1; reflexivity|].
        split; [|exact I4].
        intros x Hx; discriminate (Hbusy x Hx).
      * split; [discriminate|]; split; [exact I2|]; split; [|exact I4].
        intros x Hx; discriminate (Hbusy x Hx).
    + destruct Hc as [p r ch d|p ch|p];
        cbn [handler.prod handler.resultChan handler.cons handler.done] in *.
      * assert (Hp : p = handler.Exited /\ ch = []).
        { destruct p; try discriminate Hch.
          split; [reflexivity|]; destruct ch; [reflexivity | cbn in Hch; lia]. }
        destruct Hp as [-> ->].
        split; [discriminate|]; split; [intros x []|].
        split; [|discriminate].
        intros x E; injection E as <-.
        split; [apply I2; left; reflexivity | auto].
      * split; [exact I1|]; split; [exact I2|].
        split; [discriminate | reflexivity].
      * split; [exact I1|]; split; [exact I2|].
        split; discriminate.
    + destruct Hx as [p ch c];
        cbn [handler.prod handler.resultChan handler.cons handler.done] in *.
      split; [exact I1|]; split; [exact I2|]; split; [|reflexivity].
      destruct c; cbn [handler.wake]; try discriminate; exact I3.
Qed.

(** X21.  In every state the system can reach: a reply of the handler is
    the result the fetch ended with, given after the goroutine has
    finished, and it leaves the channel empty; whatever is in the channel
    is that result; and the handler answers with the time-out only when
    the context has ended. *)
Theorem reply_is_fetch_result (outcome : LinkPreviewResponse)
    (s : handler.state) :
  handler.reachable outcome s ->
  (forall r, handler.cons s = handler.Replied r ->
     r = outcome /\ handler.prod s = handler.Exited
     /\ handler.resultChan s = [])
  /\ (forall r, In r (handler.resultChan s) ->
        r = outcome /\ handler.prod s = handler.Exited)
  /\ (handler.cons s = handler.TimedOut -> handler.done s = true).
Proof.
  intros Hreach.
  destruct (reachable_reply outcome s Hreach) as (_ & I2 & I3 & I4).
  pose proof (reachable_invariant outcome s Hreach) as Hch.
  unfold channel_invariant in Hch.
  split; [exact I3|]; split; [|exact I4].
  intros r Hr; split; [apply I2, Hr|].
  destruct (handler.prod s); try reflexivity; rewrite Hch in Hr; contradiction.
Qed.

Lemma replied_reachable (outcome : LinkPreviewResponse) :
  handler.reachable outcome
    (handler.mkState handler.Exited [] false (handler.Replied outcome)).
Proof.
  apply handler.reach_step
    with (s := handler.mkState handler.Exited [outcome] false handler.Starting);
    [|apply handler.by_consumer, handler.receive].
  apply handler.reach_step
    with (s := handler.mkState (handler.Delivering outcome) [] false
                               handler.Starting);
    [|apply handler.by_producer,
        (handler.send outcome outcome [] false handler.Starting);
      [discriminate | unfold handler.capacity; cbn; lia]].
  apply handler.reach_step with (s := handler.init);
    [apply handler.reach_init | apply handler.by_producer, handler.fetch_returns].
Qed.

Lemma reply_is_fetch_result_witness :
  zeroResponse = zeroResponse /\ handler.Exited = handler.Exited
  /\ @nil LinkPreviewResponse = [].
Proof.
  apply (proj1 (reply_is_fetch_result zeroResponse
                  (handler.mkState handler.Exited [] false
                                   (handler.Replied zeroResponse))
                  (replied_reachable zeroResponse))
               zeroResponse eq_refl).
Defined.

(** X22.  A request whose URL is white space alone is answered with
    status 400 and the message that the URL cannot be empty, whatever
    the client and the goroutine would do: no fetch decides it.  A
    request whose URL is empty, [null] or missing does not get that far:
    the binding rejects it for the tag [required], and the answer is the
    400 of an invalid request, with the error of the validator as its
    details. *)
Theorem blank_url_rejected (extractor : http.Client)
    (schedule : LinkPreviewResponse -> handler.state) (url : string) :
  let invalid :=
    Some (gin.mkAnswer 400 []
            (gin.Object
               [("error",
                 "Invalid request format. Expected JSON with 'url' field.");
                ("details", requiredError)])) in
  (url <> "" -> blank url = true ->
   handleLinkPreview extractor schedule (Decoded (Some url))
   = Some (gin.mkAnswer 400 []
             (gin.Object [("error", "URL cannot be empty")])))
  /\ handleLinkPreview extractor schedule (Decoded (Some "")) = invalid
  /\ handleLinkPreview extractor schedule (Decoded None) = invalid.
Proof.
  cbv zeta; split; [|split; reflexivity].
  intros Hne Hblank; unfold handleLinkPreview, ShouldBindJSON.
  rewrite (proj2 (String.eqb_neq url "") Hne); cbn [reqURL].
  rewrite (TrimSpace_blank _ Hblank); reflexivity.
Qed.

Lemma blank_url_rejected_witness :
  handleLinkPreview offline (fun _ => handler.init) (Decoded (Some "   "))
  = Some (gin.mkAnswer 400 []
            (gin.Object [("error", "URL cannot be empty")])).
Proof.
  apply (proj1 (blank_url_rejected offline (fun _ => handler.init) "   "));
    [discriminate | reflexivity].
Defined.

(** X23.  The answers of the handler, with the fetch and the goroutine
    behind it, for every run of the system that the handler starts: the
    400 of the binding; or, for a URL that is bound, status 400 when the
    trimmed URL is empty; status 200 with the result of
    [FetchLinkPreview] for the trimmed URL, given after the goroutine has
    exited, and with the caching header exactly when that result has no
    error; or status 408 once the context has ended, naming the URL as
    it was sent, not trimmed. *)
Theorem handler_answers (extractor : http.Client)
    (schedule : LinkPreviewResponse -> handler.state) (body : RequestBody)
    (a : gin.Answer) :
  (forall outcome, handler.reachable outcome (schedule outcome)) ->
  handleLinkPreview extractor schedule body = Some a ->
  (exists details,
      ShouldBindJSON body = Fail details
      /\ gin.Code a = 400%Z /\ gin.Head a = []
      /\ gin.Body a
         = gin.Object
             [("error",
               "Invalid request format. Expected JSON with 'url' field.");
              ("details", details)])
  \/ exists url,
       body = Decoded (Some url) /\ url <> ""
       /\ let target := strings.TrimSpace url in
          let result := fst (FetchLinkPreview extractor target) in
          (target = "" /\ gin.Code a = 400%Z /\ gin.Head a = []
           /\ gin.Body a = gin.Object [("error", "URL cannot be empty")])
          \/ (target <> "" /\ gin.Code a = 200%Z
              /\ gin.Body a = gin.Preview result
              /\ URL result <> ""
              /\ handler.prod (schedule result) = handler.Exited
              /\ gin.Get "Cache-Control" (gin.Head a)
                 = (if nonEmpty (Error result) then "" else cacheControl))
          \/ (target <> "" /\ gin.Code a = 408%Z /\ gin.Head a = []
              /\ handler.done (schedule result) = true
              /\ gin.Body a
                 = gin.Object
                     [("error",
                       "Request timed out while fetching link preview");
                      ("url", url)]).
Proof.
  intros Hreach; unfold handleLinkPreview.
  destruct (ShouldBindJSON body) as [req|details] eqn:Hbind.
  - assert (Hbody : body = Decoded (Some (reqURL req)) /\ reqURL req <> "").
    { unfold ShouldBindJSON in Hbind.
      destruct body as [d|[u|]]; try discriminate Hbind.
      destruct (String.eqb_spec u "") as [->|Hu]; [discriminate Hbind|].
      injection Hbind as <-; auto. }
    destruct Hbody as [Hbody Hurl].
    intros H; right; exists (reqURL req).
    split; [exact Hbody|]; split; [exact Hurl|]; cbv zeta.
    destruct (String.eqb_spec (strings.TrimSpace (reqURL req)) "") as [E|E].
    + injection H as <-; left; rewrite E; auto.
    + cbv zeta in H.
      set (result := fst (FetchLinkPreview extractor
                            (strings.TrimSpace (reqURL req)))) in *.
      destruct (reachable_reply result (schedule result) (Hreach result))
        as (_ & _ & Hreply & Htime).
      destruct (handler.cons (schedule result)) as [| |r|] eqn:Hcons;
        [discriminate H | discriminate H | |].
      * destruct (Hreply r eq_refl) as (-> & Hexit & _).
        assert (Hresult : URL result <> "").
        { unfold result; rewrite FetchLinkPreview_URL.
          destruct (url.Parse _) as [parsedURL|err]; [|exact E].
          destruct (String.eqb (url.Scheme parsedURL) ""); [|exact E].
          intros Hempty.
          pose proof (String_https parsedURL) as Hp.
          rewrite Hempty in Hp; discriminate Hp. }
        destruct (nonEmpty (Error result)) eqn:Herr; injection H as <-;
          right; left; cbn [gin.Code gin.Body gin.Head];
          repeat split; auto.
      * injection H as <-; right; right; cbn.
        repeat split; auto.
  - intros H; injection H as <-; left; exists details; cbn; auto.
Qed.

Lemma handler_answers_witness :
  let result := fst (FetchLinkPreview offline "https://example.com") in
  let a := gin.mkAnswer 200 [] (gin.Preview result) in
  gin.Code a = 200%Z /\ gin.Body a = gin.Preview result
  /\ gin.Get "Cache-Control" (gin.Head a) = "".
Proof.
  cbv zeta.
  destruct (handler_answers offline
              (fun outcome =>
                 handler.mkState handler.Exited [] false
                                 (handler.Replied outcome))
              (Decoded (Some " https://example.com "))
              (gin.mkAnswer 200 []
                 (gin.Preview
                    (fst (FetchLinkPreview offline "https://example.com"))))
              replied_reachable eq_refl)
    as [(details & E & _)|(url & Hbody & _ & Hcases)];
    [discriminate E|].
  injection Hbody as <-; cbv zeta in Hcases.
  destruct Hcases as [(E & _)|[(_ & Hcode & Hbody & _ & _ & Hhead)|(_ & E & _)]];
    [discriminate E | | discriminate E].
  split; [exact Hcode|]; split; [exact Hbody | exact Hhead].
Defined.
